(** * rsbuild-plugin-block-imports: scanner, locator and reporter

    A shallow embedding of [src/index.ts].  JavaScript strings are
    sequences of UTF-16 code units, so a string is a list of [N]; the
    console is a list of events in the order they were written; the file
    system is a partial function from paths to file contents; the
    insertion-ordered [Map] and [Set] of the source are lists without
    repeated keys, in insertion order. *)

From Stdlib Require Import List NArith Bool Arith Lia String Ascii DecimalString DecimalNat Sorted.
Import ListNotations.

Set Implicit Arguments.

(* ================================================================== *)
(** ** JavaScript strings *)
(* ================================================================== *)

Definition char := N.
Definition jsstring := list char.

(** A string literal of the source whose characters are all ASCII. *)
Definition js (s : string) : jsstring :=
  List.map N_of_ascii (list_ascii_of_string s).

(** Template-literal rendering of a non-negative integer. *)
Definition ofNat (n : nat) : jsstring :=
  js (NilEmpty.string_of_uint (Nat.to_uint n)).

Fixpoint str_eqb (a b : jsstring) : bool :=
  match a, b with
  | [], [] => true
  | c :: a', d :: b' => N.eqb c d && str_eqb a' b'
  | _, _ => false
  end.

(** [s.startsWith(p)] *)
Fixpoint startsWith (s p : jsstring) {struct p} : bool :=
  match p with
  | [] => true
  | c :: p' =>
      match s with
      | [] => false
      | d :: s' => N.eqb c d && startsWith s' p'
      end
  end.

(** [s.includes(sub)] *)
Fixpoint includes (s sub : jsstring) : bool :=
  startsWith s sub ||
  match s with
  | [] => false
  | _ :: s' => includes s' sub
  end.

(** [s.replace(pat, empty)] with a string [pat]: the first occurrence of
    [pat] is removed, the rest of [s] is kept. *)
Fixpoint removeFirst (s pat : jsstring) : jsstring :=
  if startsWith s pat then skipn (List.length pat) s
  else match s with
       | [] => []
       | c :: s' => c :: removeFirst s' pat
       end.

(** [s.padEnd(n)]: spaces are appended up to length [n]. *)
Definition padEnd (s : jsstring) (n : nat) : jsstring :=
  s ++ repeat 32%N (n - List.length s).

(** [content.split] at line feeds. *)
Fixpoint splitLines (s : jsstring) : list jsstring :=
  match s with
  | [] => [[]]
  | c :: s' =>
      if N.eqb c 10 then [] :: splitLines s'
      else match splitLines s' with
           | l :: ls => (c :: l) :: ls
           | [] => [[c]]
           end
  end.

(** WhiteSpace and LineTerminator code units: what [trim] strips and
    what the class [\s] accepts. *)
Definition isSpace (c : char) : bool :=
  ((9 <=? c) && (c <=? 13) || (c =? 32) || (c =? 160) || (c =? 5760)
   || (8192 <=? c) && (c <=? 8202) || (c =? 8232) || (c =? 8233)
   || (c =? 8239) || (c =? 8287) || (c =? 12288) || (c =? 65279))%N.

Fixpoint trimStart (s : jsstring) : jsstring :=
  match s with
  | [] => []
  | c :: s' => if isSpace c then trimStart s' else s
  end.

Definition trimEnd (s : jsstring) : jsstring := rev (trimStart (rev s)).

Definition trim (s : jsstring) : jsstring := trimEnd (trimStart s).

(** Truthiness of a string: the empty string alone is falsy. *)
Definition truthy (s : jsstring) : bool :=
  match s with [] => false | _ :: _ => true end.

(* ================================================================== *)
(** ** Regular expressions of the locator *)
(* ================================================================== *)

(** The fragment of the pattern language the three locator expressions
    use: single characters and classes, concatenation, the greedy
    optional group [(?:r)?] and the greedy star of a class. *)
Inductive regex : Type :=
| Eps
| Chr (p : char -> bool)
| Seq (r1 r2 : regex)
| Opt (r : regex)
| Star (p : char -> bool).

(** Greedy iteration of a class with backtracking into the continuation. *)
Fixpoint starK (p : char -> bool) (k : jsstring -> bool) (s : jsstring) : bool :=
  match s with
  | [] => k []
  | c :: s' => (p c && starK p k s') || k s
  end.

(** Backtracking matcher: [matchK r s k] tries [r] at the head of [s] and
    hands what is left to the continuation [k]. *)
Fixpoint matchK (r : regex) (s : jsstring) (k : jsstring -> bool) : bool :=
  match r with
  | Eps => k s
  | Chr p => match s with
             | [] => false
             | c :: s' => p c && k s'
             end
  | Seq r1 r2 => matchK r1 s (fun s' => matchK r2 s' k)
  | Opt r1 => matchK r1 s k || k s
  | Star p => starK p k s
  end.

Definition matchesAt (r : regex) (s : jsstring) : bool :=
  matchK r s (fun _ => true).

(** [s.match(r)] for an expression without flags: the start positions are
    tried from left to right; the result is [match.index]. *)
Fixpoint searchFrom (r : regex) (s : jsstring) (i : nat) : option nat :=
  if matchesAt r s then Some i
  else match s with
       | [] => None
       | _ :: s' => searchFrom r s' (S i)
       end.

Definition matchIndex (s : jsstring) (r : regex) : option nat :=
  searchFrom r s 0.

(** Literal text as an expression. *)
Fixpoint lit (s : jsstring) : regex :=
  match s with
  | [] => Eps
  | c :: s' => Seq (Chr (N.eqb c)) (lit s')
  end.

Definition plus (p : char -> bool) : regex := Seq (Chr p) (Star p).

(** The characters of the class that the escaping step replaces. *)
Definition isSyntaxChar (c : char) : bool :=
  existsb (N.eqb c) (js ".*+?^${}()|[]\").

(** [importPattern.replace(..., backslash + match)]: every syntax character
    gets a backslash in front of it. *)
Definition escapeRegExp (importPattern : jsstring) : jsstring :=
  flat_map (fun c => if isSyntaxChar c then [92%N; c] else [c]) importPattern.

(** How [new RegExp] reads the interpolated text: a backslash followed by
    a syntax character, or a character that is not a syntax character,
    stands for itself; anything else is outside the fragment and is
    reported as a construction failure. *)
Fixpoint parseEscaped (src : jsstring) : option regex :=
  match src with
  | [] => Some Eps
  | c :: rest =>
      if N.eqb c 92 then
        match rest with
        | d :: rest' =>
            if isSyntaxChar d then
              match parseEscaped rest' with
              | Some r => Some (Seq (Chr (N.eqb d)) r)
              | None => None
              end
            else None
        | [] => None
        end
      else if isSyntaxChar c then None
      else match parseEscaped rest with
           | Some r => Some (Seq (Chr (N.eqb c)) r)
           | None => None
           end
  end.

Definition isQuote (c : char) : bool := (c =? 39)%N || (c =? 34)%N.
Definition notQuote (c : char) : bool := negb (isQuote c).

(** The common tail of the three expressions: the interpolated pattern, an
    optional group made of a slash and any run of characters other than
    quotes, and a closing single or double quote. *)
Definition specifierTail (pat : regex) : regex :=
  Seq pat (Seq (Opt (Seq (Chr (N.eqb 47)) (Star notQuote))) (Chr isQuote)).

(** First form: the word from, at least one space, an opening quote. *)
Definition fromForm (pat : regex) : regex :=
  Seq (lit (js "from")) (Seq (plus isSpace) (Seq (Chr isQuote) (specifierTail pat))).

(** Second form: the word require, spaces, an opening parenthesis, spaces,
    an opening quote. *)
Definition requireForm (pat : regex) : regex :=
  Seq (lit (js "require"))
    (Seq (Star isSpace)
       (Seq (Chr (N.eqb 40))
          (Seq (Star isSpace) (Seq (Chr isQuote) (specifierTail pat))))).

(** Third form: the word import, spaces, an opening parenthesis, spaces,
    an opening quote. *)
Definition importForm (pat : regex) : regex :=
  Seq (lit (js "import"))
    (Seq (Star isSpace)
       (Seq (Chr (N.eqb 40))
          (Seq (Star isSpace) (Seq (Chr isQuote) (specifierTail pat))))).

(** The array [patterns] built for one import pattern; [None] when the
    construction of an expression throws. *)
Definition importRegexes (importPattern : jsstring) : option (list regex) :=
  match parseEscaped (escapeRegExp importPattern) with
  | Some pat => Some [fromForm pat; requireForm pat; importForm pat]
  | None => None
  end.

(* ================================================================== *)
(** ** Insertion-ordered sets and maps *)
(* ================================================================== *)

(** [set.add(x)] on a [Set] of strings: a new element goes to the end. *)
Definition setAdd (x : jsstring) (s : list jsstring) : list jsstring :=
  if existsb (str_eqb x) s then s else s ++ [x].

(** [new Set(array)] *)
Definition setOfArray (l : list jsstring) : list jsstring :=
  fold_left (fun s x => setAdd x s) l [].

Section JsMap.
Variable V : Type.

Fixpoint mapGet (k : jsstring) (m : list (jsstring * V)) : option V :=
  match m with
  | [] => None
  | (k', v) :: m' => if str_eqb k k' then Some v else mapGet k m'
  end.

Definition mapHas (k : jsstring) (m : list (jsstring * V)) : bool :=
  match mapGet k m with Some _ => true | None => false end.

(** [map.set(k, v)]: an existing key keeps its place, a new one goes to
    the end. *)
Fixpoint mapSet (k : jsstring) (v : V) (m : list (jsstring * V)) : list (jsstring * V) :=
  match m with
  | [] => [(k, v)]
  | (k', v') :: m' =>
      if str_eqb k k' then (k', v) :: m' else (k', v') :: mapSet k v m'
  end.
End JsMap.

(* ================================================================== *)
(** ** Types of the plugin *)
(* ================================================================== *)

Record ForbiddenImport : Type := {
  pattern : jsstring;
  alternative : jsstring;
  reason : option jsstring
}.

(** An entry of [exclude]: a string, or a [RegExp] seen through its [test]
    method (an expression without the global or sticky flag, so [test]
    is a function of the path alone). *)
Inductive ExcludeRule : Type :=
| ExcludeString (s : jsstring)
| ExcludeRegExp (test : jsstring -> bool).

(** What a caller may put in the [forbiddenImports] field. *)
Inductive jsval : Type :=
| VUndefined
| VNull
| VBool (b : bool)
| VNumber (n : N)
| VString (s : jsstring)
| VObject
| VArray (items : list ForbiddenImport).

Definition valTruthy (v : jsval) : bool :=
  match v with
  | VUndefined | VNull => false
  | VBool b => b
  | VNumber n => negb (N.eqb n 0)
  | VString s => truthy s
  | VObject | VArray _ => true
  end.

Definition isArray (v : jsval) : bool :=
  match v with VArray _ => true | _ => false end.

(** [PluginBlockImportsOptions] as passed by the caller. *)
Record PluginBlockImportsOptions : Type := {
  opt_forbiddenImports : jsval;
  opt_exclude : option (list ExcludeRule);
  opt_failOnError : option bool;
  opt_errorHeader : option jsstring;
  opt_colors : option bool
}.

(** [Required<PluginBlockImportsOptions>] *)
Record ResolvedOptions : Type := {
  forbiddenImports : list ForbiddenImport;
  exclude : list ExcludeRule;
  failOnError : bool;
  errorHeader : jsstring;
  colors : bool
}.

Record ImportError : Type := {
  importName : jsstring;
  line : nat;
  column : nat;
  lineContent : jsstring
}.

Record Dependency : Type := {
  request : option jsstring;
  userRequest : option jsstring
}.

Record ModuleDescriptor : Type := {
  resource : option jsstring;
  dependencies : option (list Dependency)
}.

(** The console: what [console.error] and [console.warn] wrote, oldest
    first. *)
Inductive event : Type :=
| ConsoleError (text : jsstring)
| ConsoleWarn (text : jsstring).

(** [fs.readFileSync(path, 'utf-8')]: the text of the file, or [None] when
    the read throws. *)
Definition FileSystem := jsstring -> option jsstring.

Inductive result (A : Type) : Type :=
| Ok (a : A)
| Throw (message : jsstring).
Arguments Ok {A} a.
Arguments Throw {A} message.

(* ================================================================== *)
(** ** Constants *)
(* ================================================================== *)

Definition ESC : char := 27%N.

Definition ANSI_red : jsstring := ESC :: js "[31m".
Definition ANSI_yellow : jsstring := ESC :: js "[33m".
Definition ANSI_cyan : jsstring := ESC :: js "[36m".
Definition ANSI_gray : jsstring := ESC :: js "[90m".
Definition ANSI_bold : jsstring := ESC :: js "[1m".
Definition ANSI_reset : jsstring := ESC :: js "[0m".

(** Code units of the symbols used in the report. *)
Definition heavyCross : char := 10006%N.   (* U+2716 *)
Definition boxVertical : char := 9474%N.   (* U+2502 *)
Definition boxHorizontal : char := 9472%N. (* U+2500 *)
Definition boxTopLeft : char := 9581%N.    (* U+256D *)
Definition boxTopRight : char := 9582%N.   (* U+256E *)
Definition boxBottomLeft : char := 9584%N. (* U+2570 *)
Definition boxBottomRight : char := 9583%N. (* U+256F *)
Definition bullet : char := 8226%N.        (* U+2022 *)
Definition arrow : char := 8594%N.         (* U+2192 *)

Definition dquote : jsstring := [34%N].

Definition mkForbidden (p a : jsstring) : ForbiddenImport :=
  {| pattern := p; alternative := a; reason := None |}.

Definition NEXTJS_FORBIDDEN_IMPORTS : list ForbiddenImport :=
  [ mkForbidden (js "next/link")
      (js "<a href=" ++ dquote ++ js "..." ++ dquote ++ js "> or react-router Link");
    mkForbidden (js "next/image")
      (js "<img src=" ++ dquote ++ js "..." ++ dquote ++ js "> with proper sizing");
    mkForbidden (js "next/router") (js "window.location or custom navigation");
    mkForbidden (js "next/navigation") (js "window.location or custom navigation");
    mkForbidden (js "next/head") (js "react-helmet or document.head manipulation");
    mkForbidden (js "next/script") (js "<script> tag or useEffect for dynamic scripts");
    mkForbidden (js "next/dynamic") (js "React.lazy() + Suspense");
    mkForbidden (js "next/font") (js "CSS @font-face or Google Fonts link tag");
    mkForbidden (js "next/headers") (js "Pass headers as props from host application");
    mkForbidden (js "next/cookies") (js "document.cookie or js-cookie library");
    mkForbidden (js "next-intl") (js "react-intl, i18next, or react-i18next");
    mkForbidden (js "next-auth") (js "Pass auth state as props from host application");
    mkForbidden (js "next-themes") (js "Custom theme context or CSS variables");
    mkForbidden (js "next-seo") (js "react-helmet or manual meta tag management");
    mkForbidden (js "next-i18next") (js "i18next + react-i18next") ].

(* ================================================================== *)
(** ** Utility functions *)
(* ================================================================== *)

Record Colorizer : Type := {
  red : jsstring -> jsstring;
  yellow : jsstring -> jsstring;
  cyan : jsstring -> jsstring;
  gray : jsstring -> jsstring;
  bold : jsstring -> jsstring
}.

Definition createColorizer (enabled : bool) : Colorizer :=
  if negb enabled then
    {| red := fun s => s;
       yellow := fun s => s;
       cyan := fun s => s;
       gray := fun s => s;
       bold := fun s => s |}
  else
    {| red := fun s => ANSI_red ++ s ++ ANSI_reset;
       yellow := fun s => ANSI_yellow ++ s ++ ANSI_reset;
       cyan := fun s => ANSI_cyan ++ s ++ ANSI_reset;
       gray := fun s => ANSI_gray ++ s ++ ANSI_reset;
       bold := fun s => ANSI_bold ++ s ++ ANSI_reset |}.

(** The loop of [shouldExclude] over the configured entries. *)
Fixpoint excludedBy (filePath : jsstring) (excludePatterns : list ExcludeRule) : bool :=
  match excludePatterns with
  | [] => false
  | ExcludeString s :: rest =>
      if includes filePath s then true else excludedBy filePath rest
  | ExcludeRegExp test :: rest =>
      if test filePath then true else excludedBy filePath rest
  end.

Definition shouldExclude (filePath : jsstring) (excludePatterns : list ExcludeRule) : bool :=
  if includes filePath (js "node_modules") then true
  else excludedBy filePath excludePatterns.

(* ================================================================== *)
(** ** Locator *)
(* ================================================================== *)

(** [forEach] whose callback may throw: the first failure ends the loop. *)
Fixpoint forEachTry (A S : Type) (f : A -> S -> option S) (l : list A) (s : S) : option S :=
  match l with
  | [] => Some s
  | a :: l' =>
      match f a s with
      | Some s' => forEachTry f l' s'
      | None => None
      end
  end.

(** The array elements paired with their indices, as [forEach] hands them
    to its callback. *)
Definition indexed (A : Type) (l : list A) : list (A * nat) :=
  combine l (seq 0 (List.length l)).

(** [for (const regex of patterns)] with its [break]: the index of the
    match of the first expression that matches. *)
Fixpoint firstMatch (lineContent : jsstring) (patterns : list regex) : option nat :=
  match patterns with
  | [] => None
  | regex :: rest =>
      match matchIndex lineContent regex with
      | Some i => Some i
      | None => firstMatch lineContent rest
      end
  end.

(** Body of the inner [forEach]: one import pattern on one line. *)
Definition locateOnLine (lineContent : jsstring) (index : nat)
    (importPattern : jsstring) (errors : list ImportError) : option (list ImportError) :=
  match importRegexes importPattern with
  | None => None
  | Some patterns =>
      match firstMatch lineContent patterns with
      | Some i =>
          Some (errors ++ [ {| importName := importPattern;
                               line := index + 1;
                               column := i;
                               lineContent := trim lineContent |} ])
      | None => Some errors
      end
  end.

(** The [try] block: [None] when something in it throws. *)
Definition locateTry (fs : FileSystem) (filePath : jsstring) (imports : list jsstring)
    : option (list ImportError) :=
  match fs filePath with
  | None => None
  | Some content =>
      forEachTry
        (fun (entry : jsstring * nat) errors =>
           forEachTry (locateOnLine (fst entry) (snd entry)) imports errors)
        (indexed (splitLines content)) []
  end.

Definition degraded (imp : jsstring) : ImportError :=
  {| importName := imp; line := 0; column := 0; lineContent := [] |}.

(** [findImportLocations]: what was written to the console and the
    returned array. *)
Definition findImportLocations (fs : FileSystem) (filePath : jsstring)
    (imports : list jsstring) : list event * list ImportError :=
  match locateTry fs filePath imports with
  | Some errors => ([], errors)
  | None =>
      ([ConsoleWarn (js "[plugin-block-imports] Could not read file: " ++ filePath)],
       List.map degraded imports)
  end.

(* ================================================================== *)
(** ** Reporter *)
(* ================================================================== *)

(** The mutable locals of [printErrorReport] together with the console. *)
Record ReportState : Type := {
  console : list event;
  foundImports : list jsstring;
  errorCount : nat
}.

Definition consoleError (text : jsstring) (st : ReportState) : ReportState :=
  {| console := console st ++ [ConsoleError text];
     foundImports := foundImports st;
     errorCount := errorCount st |}.

Definition consoleEvents (evs : list event) (st : ReportState) : ReportState :=
  {| console := console st ++ evs;
     foundImports := foundImports st;
     errorCount := errorCount st |}.

Definition addFound (imp : jsstring) (st : ReportState) : ReportState :=
  {| console := console st;
     foundImports := setAdd imp (foundImports st);
     errorCount := errorCount st |}.

Definition incrCount (st : ReportState) : ReportState :=
  {| console := console st;
     foundImports := foundImports st;
     errorCount := S (errorCount st) |}.

Definition boxTop : jsstring :=
  js "  " ++ [boxTopLeft] ++ repeat boxHorizontal 61 ++ [boxTopRight].

Definition boxBottom : jsstring :=
  js "  " ++ [boxBottomLeft] ++ repeat boxHorizontal 61 ++ [boxBottomRight].

Definition printHeader (c : Colorizer) (options : ResolvedOptions) (st : ReportState) : ReportState :=
  let st := consoleError [] st in
  let st := consoleError (red c (bold c boxTop)) st in
  let st := consoleError
              (red c (bold c (js "  " ++ [boxVertical] ++ js "  "
                              ++ padEnd (errorHeader options) 59 ++ [boxVertical]))) st in
  let st := consoleError (red c (bold c boxBottom)) st in
  let st := consoleError [] st in
  let st := consoleError
              (red c (bold c (js "  " ++ [heavyCross]
                              ++ js " Forbidden imports detected in source files"))) st in
  let st := consoleError
              (gray c (js "    These imports will not work in the remote environment.")) st in
  consoleError [] st.

(** Body of [importErrors.forEach]. *)
Definition reportOccurrence (c : Colorizer) (relativePath : jsstring)
    (err : ImportError) (st : ReportState) : ReportState :=
  let st := addFound (importName err) st in
  let location :=
    if 0 <? line err
    then js ":" ++ ofNat (line err) ++ js ":" ++ ofNat (column err)
    else [] in
  let st := consoleError (cyan c (js "  " ++ relativePath ++ location)) st in
  let st := consoleError
              (red c (js "    " ++ [heavyCross] ++ js " Forbidden import: "
                      ++ bold c (importName err))) st in
  let st := if truthy (lineContent err)
            then consoleError
                   (gray c (js "    " ++ [boxVertical] ++ js " " ++ lineContent err)) st
            else st in
  let st := consoleError [] st in
  incrCount st.

(** Body of [errorMap.forEach]. *)
Definition reportFile (c : Colorizer) (fs : FileSystem) (cwd : jsstring)
    (st : ReportState) (entry : jsstring * list jsstring) : ReportState :=
  let absolutePath := fst entry in
  let imports := snd entry in
  let relativePath := removeFirst absolutePath cwd in
  let located := findImportLocations fs absolutePath imports in
  fold_left (fun st err => reportOccurrence c relativePath err st)
            (snd located) (consoleEvents (fst located) st).

(** Body of [foundImports.forEach]. *)
Definition reportAlternative (c : Colorizer)
    (alternativesMap : list (jsstring * jsstring))
    (st : ReportState) (imp : jsstring) : ReportState :=
  match mapGet imp alternativesMap with
  | Some alt =>
      if truthy alt
      then consoleError
             (gray c (js "    " ++ [bullet] ++ js " " ++ imp ++ js " " ++ [arrow]
                      ++ js " " ++ alt)) st
      else st
  | None => st
  end.

Definition summaryLine (n : nat) (fail : bool) : jsstring :=
  ofNat n ++ js " error(s) found." ++ (if fail then js " Build failed." else []).

(** The state after the [errorMap.forEach] loop. *)
Definition reportFiles (c : Colorizer) (fs : FileSystem) (cwd : jsstring)
    (errorMap : list (jsstring * list jsstring)) (st : ReportState) : ReportState :=
  fold_left (reportFile c fs cwd) errorMap st.

(** The lookup map for alternatives: a later rule with the same pattern
    overwrites the alternative of an earlier one. *)
Definition alternativesOf (forbidden : list ForbiddenImport) : list (jsstring * jsstring) :=
  fold_left (fun m f => mapSet (pattern f) (alternative f) m) forbidden [].

(** The section with the alternatives of the patterns that were found. *)
Definition printAlternatives (c : Colorizer)
    (alternativesMap : list (jsstring * jsstring)) (st : ReportState) : ReportState :=
  if 0 <? List.length (foundImports st) then
    let st := consoleError (yellow c (js "  Suggested alternatives:")) st in
    let st := fold_left (reportAlternative c alternativesMap) (foundImports st) st in
    consoleError [] st
  else st.

Definition printSummary (c : Colorizer) (options : ResolvedOptions)
    (st : ReportState) : ReportState :=
  let summary := summaryLine (errorCount st) (failOnError options) in
  let st := consoleError (red c (bold c (js "  " ++ summary))) st in
  consoleError [] st.

Definition printErrorReport (fs : FileSystem)
    (errorMap : list (jsstring * list jsstring))
    (forbidden : list ForbiddenImport)
    (options : ResolvedOptions) (cwd : jsstring) : list event * nat :=
  let c := createColorizer (colors options) in
  let alternativesMap := alternativesOf forbidden in
  let st := {| console := []; foundImports := []; errorCount := 0 |} in
  let st := printHeader c options st in
  let st := reportFiles c fs cwd errorMap st in
  let st := printAlternatives c alternativesMap st in
  let st := printSummary c options st in
  (console st, errorCount st).

(* ================================================================== *)
(** ** Plugin *)
(* ================================================================== *)

Record Plugin : Type := {
  resolvedOptions : ResolvedOptions;
  forbiddenPatterns : list jsstring
}.

Definition orDefault (A : Type) (o : option A) (d : A) : A :=
  match o with Some a => a | None => d end.

Definition pluginBlockImports (options : PluginBlockImportsOptions) : result Plugin :=
  if negb (valTruthy (opt_forbiddenImports options))
     || negb (isArray (opt_forbiddenImports options))
  then Throw (js "[plugin-block-imports] forbiddenImports option is required and must be an array")
  else
    let items := match opt_forbiddenImports options with
                 | VArray items => items
                 | _ => []
                 end in
    let resolved :=
      {| forbiddenImports := items;
         exclude := orDefault (opt_exclude options) [];
         failOnError := orDefault (opt_failOnError options) true;
         errorHeader := orDefault (opt_errorHeader options) (js "MODULE FEDERATION BUILD ERROR");
         colors := orDefault (opt_colors options) true |} in
    Ok {| resolvedOptions := resolved;
          forbiddenPatterns := setOfArray (List.map pattern items) |}.

(** [dep.request || dep.userRequest || ''] *)
Definition requestOf (dep : Dependency) : jsstring :=
  match request dep with
  | Some (c :: r) => c :: r
  | _ =>
      match userRequest dep with
      | Some (c :: r) => c :: r
      | _ => []
      end
  end.

(** [for (const pattern of forbiddenPatterns)] with its [break]. *)
Fixpoint findForbidden (request : jsstring) (patterns : list jsstring) : option jsstring :=
  match patterns with
  | [] => None
  | pattern :: rest =>
      if startsWith request pattern then Some pattern
      else findForbidden request rest
  end.

(** The three statements run on a match: create the entry when the file
    has none, then add the pattern to the set stored in the map. *)
Definition recordMatch (resource pattern : jsstring)
    (errorMap : list (jsstring * list jsstring)) : list (jsstring * list jsstring) :=
  let errorMap := if mapHas resource errorMap then errorMap
                  else mapSet resource [] errorMap in
  match mapGet resource errorMap with
  | Some matched => mapSet resource (setAdd pattern matched) errorMap
  | None => errorMap
  end.

Definition scanDependency (patterns : list jsstring) (resource : jsstring)
    (errorMap : list (jsstring * list jsstring)) (dep : Dependency)
    : list (jsstring * list jsstring) :=
  match findForbidden (requestOf dep) patterns with
  | Some pattern => recordMatch resource pattern errorMap
  | None => errorMap
  end.

(** Body of [for (const module of modules)]. *)
Definition scanModule (excludeRules : list ExcludeRule) (patterns : list jsstring)
    (errorMap : list (jsstring * list jsstring)) (module : ModuleDescriptor)
    : list (jsstring * list jsstring) :=
  match resource module with
  | None => errorMap
  | Some resource =>
      if negb (truthy resource) then errorMap
      else if shouldExclude resource excludeRules then errorMap
      else fold_left (scanDependency patterns resource)
                     (orDefault (dependencies module) []) errorMap
  end.

Definition scanModules (excludeRules : list ExcludeRule) (patterns : list jsstring)
    (modules : list ModuleDescriptor) : list (jsstring * list jsstring) :=
  fold_left (scanModule excludeRules patterns) modules [].

Definition abortMessage (n : nat) : jsstring :=
  js "[plugin-block-imports] " ++ ofNat n ++ js " forbidden import(s) detected. "
  ++ js "See the error report above for details.".

(** The [finishModules] callback: the console output and whether the
    callback returned or threw. *)
Definition finishModules (plugin : Plugin) (fs : FileSystem) (cwd : jsstring)
    (modules : list ModuleDescriptor) : list event * result unit :=
  let options := resolvedOptions plugin in
  let errorMap := scanModules (exclude options) (forbiddenPatterns plugin) modules in
  if 0 <? List.length errorMap then
    let report := printErrorReport fs errorMap (forbiddenImports options) options cwd in
    if failOnError options && (0 <? snd report)
    then (fst report, Throw (abortMessage (snd report)))
    else (fst report, Ok tt)
  else ([], Ok tt).

(* ================================================================== *)
(** ** Specification vocabulary *)
(* ================================================================== *)

(** The strings an expression accepts, independently of the matcher. *)
Inductive matches : regex -> jsstring -> Prop :=
| MEps : matches Eps []
| MChr : forall p c, p c = true -> matches (Chr p) [c]
| MSeq : forall r1 r2 s1 s2,
    matches r1 s1 -> matches r2 s2 -> matches (Seq r1 r2) (s1 ++ s2)
| MOptSkip : forall r, matches (Opt r) []
| MOptTake : forall r s, matches r s -> matches (Opt r) s
| MStar : forall p s, Forall (fun c => p c = true) s -> matches (Star p) s.

(** The text between the quotes of an import specifier that the locator
    accepts for a pattern: the pattern itself, or the pattern followed by
    a slash and characters other than quotes. *)
Definition subpathOf (sub : jsstring) : Prop :=
  sub = [] \/ exists rest, sub = 47%N :: rest /\ Forall (fun c => notQuote c = true) rest.

(** [path] is a key of the finding and [p] belongs to its matched set. *)
Definition recorded (path p : jsstring) (errorMap : list (jsstring * list jsstring)) : Prop :=
  exists matched, mapGet path errorMap = Some matched /\ In p matched.

(** Every matched set of the finding is non-empty and repetition-free. *)
Definition wellFormed (errorMap : list (jsstring * list jsstring)) : Prop :=
  forall path matched,
    mapGet path errorMap = Some matched -> matched <> [] /\ NoDup matched.

(** What one scan step can add for [path]: a module with that resource,
    not excluded, one of whose requests has [p] as its first match. *)
Definition contributes (excludeRules : list ExcludeRule) (patterns : list jsstring)
    (modules : list ModuleDescriptor) (path p : jsstring) : Prop :=
  exists module dep,
    In module modules /\ resource module = Some path /\ truthy path = true /\
    shouldExclude path excludeRules = false /\
    In dep (orDefault (dependencies module) []) /\
    findForbidden (requestOf dep) patterns = Some p.

(** The three expressions of the locator for one pattern, in the order
    in which they are tried. *)
Definition formsOf (importPattern : jsstring) : list regex :=
  [fromForm (lit importPattern); requireForm (lit importPattern);
   importForm (lit importPattern)].

(** What one pattern contributes on one line: nothing, or one occurrence. *)
Definition occurrencesOn (lineContent : jsstring) (index : nat)
    (importPattern : jsstring) : list ImportError :=
  match firstMatch lineContent (formsOf importPattern) with
  | Some i => [ {| importName := importPattern;
                   line := index + 1;
                   column := i;
                   lineContent := trim lineContent |} ]
  | None => []
  end.

(** The occurrences of a text: line by line, and pattern by pattern on
    each line. *)
Definition occurrencesIn (content : jsstring) (imports : list jsstring) : list ImportError :=
  flat_map (fun entry : jsstring * nat =>
              flat_map (occurrencesOn (fst entry) (snd entry)) imports)
           (indexed (splitLines content)).

(** Line number and pattern of an occurrence. *)
Definition occurrenceKey (o : ImportError) : nat * jsstring :=
  (line o, importName o).

(** The (file, pattern) pairs a scan records, in the order in which the
    loops meet them. *)
Definition dependencyHits (patterns : list jsstring) (path : jsstring)
    (dep : Dependency) : list (jsstring * jsstring) :=
  match findForbidden (requestOf dep) patterns with
  | Some p => [(path, p)]
  | None => []
  end.

Definition moduleHits (excludeRules : list ExcludeRule) (patterns : list jsstring)
    (module : ModuleDescriptor) : list (jsstring * jsstring) :=
  match resource module with
  | None => []
  | Some path =>
      if negb (truthy path) then []
      else if shouldExclude path excludeRules then []
      else flat_map (dependencyHits patterns path) (orDefault (dependencies module) [])
  end.

Definition recordHit (errorMap : list (jsstring * list jsstring))
    (hit : jsstring * jsstring) : list (jsstring * list jsstring) :=
  recordMatch (fst hit) (snd hit) errorMap.

(** What the reporter writes for one occurrence. *)
Definition occurrenceBlock (c : Colorizer) (relativePath : jsstring)
    (err : ImportError) : list event :=
  [ ConsoleError (cyan c (js "  " ++ relativePath
                          ++ (if 0 <? line err
                              then js ":" ++ ofNat (line err) ++ js ":" ++ ofNat (column err)
                              else [])));
    ConsoleError (red c (js "    " ++ [heavyCross] ++ js " Forbidden import: "
                         ++ bold c (importName err))) ]
  ++ (if truthy (lineContent err)
      then [ConsoleError (gray c (js "    " ++ [boxVertical] ++ js " " ++ lineContent err))]
      else [])
  ++ [ConsoleError []].

(** What is written while one file of the finding is reported: the
    warning of the locator, if any, then one block per occurrence. *)
Definition fileBlock (c : Colorizer) (fs : FileSystem) (cwd : jsstring)
    (entry : jsstring * list jsstring) : list event :=
  fst (findImportLocations fs (fst entry) (snd entry))
  ++ flat_map (occurrenceBlock c (removeFirst (fst entry) cwd))
              (snd (findImportLocations fs (fst entry) (snd entry))).

(** Every occurrence the locator returns over a finding, file by file in
    map order. *)
Definition allOccurrences (fs : FileSystem)
    (errorMap : list (jsstring * list jsstring)) : list ImportError :=
  flat_map (fun entry => snd (findImportLocations fs (fst entry) (snd entry))) errorMap.

(** The eight lines of the header. *)
Definition headerLines (c : Colorizer) (options : ResolvedOptions) : list event :=
  [ ConsoleError [];
    ConsoleError (red c (bold c boxTop));
    ConsoleError (red c (bold c (js "  " ++ [boxVertical] ++ js "  "
                                 ++ padEnd (errorHeader options) 59 ++ [boxVertical])));
    ConsoleError (red c (bold c boxBottom));
    ConsoleError [];
    ConsoleError (red c (bold c (js "  " ++ [heavyCross]
                                 ++ js " Forbidden imports detected in source files")));
    ConsoleError (gray c (js "    These imports will not work in the remote environment."));
    ConsoleError [] ].

(** The line of the alternatives section for one found pattern, if it has
    a non-empty alternative. *)
Definition alternativeLine (c : Colorizer) (alternativesMap : list (jsstring * jsstring))
    (imp : jsstring) : list event :=
  match mapGet imp alternativesMap with
  | Some alt =>
      if truthy alt
      then [ConsoleError (gray c (js "    " ++ [bullet] ++ js " " ++ imp ++ js " "
                                  ++ [arrow] ++ js " " ++ alt))]
      else []
  | None => []
  end.

(** The alternatives section for the patterns that were found. *)
Definition alternativesSection (c : Colorizer)
    (alternativesMap : list (jsstring * jsstring)) (found : list jsstring) : list event :=
  match found with
  | [] => []
  | _ :: _ =>
      [ConsoleError (yellow c (js "  Suggested alternatives:"))]
      ++ flat_map (alternativeLine c alternativesMap) found
      ++ [ConsoleError []]
  end.

(** No escape character in a string or on the console. *)
Definition escFree (s : jsstring) : Prop := ~ In ESC s.

Definition eventText (ev : event) : jsstring :=
  match ev with ConsoleError t => t | ConsoleWarn t => t end.

(** Nothing written so far, and no pattern found so far, holds an escape
    character. *)
Definition quiet (st : ReportState) : Prop :=
  Forall (fun ev => escFree (eventText ev)) (console st) /\
  Forall escFree (foundImports st).

(** Total number of occurrences the locator returns over a finding. *)
Definition totalOccurrences (fs : FileSystem)
    (errorMap : list (jsstring * list jsstring)) : nat :=
  list_sum (List.map (fun entry =>
                        List.length (snd (findImportLocations fs (fst entry) (snd entry))))
                     errorMap).

(* ================================================================== *)
(** ** Sample inputs *)
(* ================================================================== *)

(** Options with the given rules and flags, everything else left out. *)
Definition optionsOf (items : list ForbiddenImport) (fail colored : option bool)
    : PluginBlockImportsOptions :=
  {| opt_forbiddenImports := VArray items;
     opt_exclude := None;
     opt_failOnError := fail;
     opt_errorHeader := None;
     opt_colors := colored |}.

(** The plugin that [pluginBlockImports] returns for [options], when it
    returns one. *)
Definition installed (options : PluginBlockImportsOptions) : Plugin :=
  match pluginBlockImports options with
  | Ok plugin => plugin
  | Throw _ =>
      {| resolvedOptions :=
           {| forbiddenImports := []; exclude := []; failOnError := true;
              errorHeader := []; colors := true |};
         forbiddenPatterns := [] |}
  end.

(** A module with a resource path whose dependencies carry the given
    request strings. *)
Definition moduleOf (path : jsstring) (requests : list jsstring) : ModuleDescriptor :=
  {| resource := Some path;
     dependencies :=
       Some (List.map (fun r => {| request := Some r; userRequest := None |}) requests) |}.

(** A file system with one readable file. *)
Definition oneFile (path content : jsstring) : FileSystem :=
  fun p => if str_eqb p path then Some content else None.

Definition lf : jsstring := [10%N].

(** A scan of two modules with the default rules: one imports a subpath
    of next/image, the other imports nothing forbidden. *)
Definition heroOptions : PluginBlockImportsOptions :=
  optionsOf NEXTJS_FORBIDDEN_IMPORTS None None.
Definition heroPlugin : Plugin := installed heroOptions.
Definition heroPath : jsstring := js "/app/src/Hero.tsx".
Definition heroModule : ModuleDescriptor :=
  moduleOf heroPath [js "react"; js "next/image/foo"].
Definition heroModules : list ModuleDescriptor :=
  [heroModule; moduleOf (js "/app/src/Plain.tsx") [js "react"]].
Definition heroDep : Dependency :=
  {| request := Some (js "next/image/foo"); userRequest := None |}.

(** A module that lives in a dependency directory. *)
Definition vendoredPath : jsstring := js "/app/node_modules/next/dist/client/image.js".
Definition vendoredModules : list ModuleDescriptor :=
  [moduleOf vendoredPath [js "next/image"; js "next/link"]].

(** Options without the [forbiddenImports] field. *)
Definition missingOptions : PluginBlockImportsOptions :=
  {| opt_forbiddenImports := VUndefined; opt_exclude := None;
     opt_failOnError := None; opt_errorHeader := None; opt_colors := None |}.

(** A file system on which every read fails. *)
Definition noFiles : FileSystem := fun _ => None.

(** A registry in which the empty pattern comes after next/link, and a
    module whose only request is next/link. *)
Definition shadowOptions : PluginBlockImportsOptions :=
  optionsOf [mkForbidden (js "next/link") (js "a plain anchor");
             mkForbidden [] (js "nothing")] None None.
Definition shadowPlugin : Plugin := installed shadowOptions.
Definition shadowPath : jsstring := js "/app/src/Nav.tsx".
Definition shadowModule : ModuleDescriptor := moduleOf shadowPath [js "next/link"].
Definition shadowDep : Dependency :=
  {| request := Some (js "next/link"); userRequest := None |}.

(** A registry whose first pattern is empty, and a module whose only
    dependency carries no request at all. *)
Definition blankOptions : PluginBlockImportsOptions :=
  optionsOf [mkForbidden [] (js "nothing");
             mkForbidden (js "next/link") (js "a plain anchor")] None None.
Definition blankPlugin : Plugin := installed blankOptions.
Definition blankDep : Dependency := {| request := None; userRequest := None |}.
Definition blankModule : ModuleDescriptor :=
  {| resource := Some shadowPath; dependencies := Some [blankDep] |}.

(** One file that imports two forbidden modules, one per line. *)
Definition pagePath : jsstring := js "/app/src/Page.tsx".
Definition pageText : jsstring :=
  js "import Image from 'next/image';" ++ lf
  ++ js "import { useTranslations } from 'next-intl';" ++ lf.
Definition pageModules : list ModuleDescriptor :=
  [moduleOf pagePath [js "next/image"; js "react"; js "next-intl"]].
Definition pageFinding : list (jsstring * list jsstring) :=
  scanModules (exclude (resolvedOptions heroPlugin)) (forbiddenPatterns heroPlugin)
              pageModules.

(** The same rules with [failOnError] switched off. *)
Definition lenientPlugin : Plugin :=
  installed (optionsOf NEXTJS_FORBIDDEN_IMPORTS (Some false) None).

(** A request that extends a pattern by one letter, in a file that
    imports exactly that request. *)
Definition routerOptions : PluginBlockImportsOptions :=
  optionsOf [mkForbidden (js "next/router") (js "window.location or custom navigation")]
            (Some true) None.
Definition routerPlugin : Plugin := installed routerOptions.
Definition routerPath : jsstring := js "/app/src/Nav.tsx".
Definition routerText : jsstring := js "import { push } from 'next/routerx';" ++ lf.
Definition routerModules : list ModuleDescriptor :=
  [moduleOf routerPath [js "react"; js "next/routerx"]].

(** The default rules with colors switched off. *)
Definition plainPlugin : Plugin :=
  installed (optionsOf NEXTJS_FORBIDDEN_IMPORTS None (Some false)).

(** Options whose exclusion list holds the empty string. *)
Definition muteOptions : PluginBlockImportsOptions :=
  {| opt_forbiddenImports := VArray NEXTJS_FORBIDDEN_IMPORTS;
     opt_exclude := Some [ExcludeString []];
     opt_failOnError := None;
     opt_errorHeader := None;
     opt_colors := None |}.
Definition mutePlugin : Plugin := installed muteOptions.

(** Rules in which one pattern is registered twice. *)
Definition twiceOptions : PluginBlockImportsOptions :=
  optionsOf [mkForbidden (js "next/link") (js "first advice");
             mkForbidden (js "next-intl") (js "react-intl");
             mkForbidden (js "next/link") (js "second advice")] None None.
Definition twicePlugin : Plugin := installed twiceOptions.

(** A file with a static import, a call of require with a subpath and a
    dynamic import, each of a different forbidden module. *)
Definition mixedPath : jsstring := js "/app/src/Mixed.tsx".
Definition mixedText : jsstring :=
  js "import Link from 'next/link';" ++ lf
  ++ js "  const head = require( 'next/head/amp' );" ++ lf
  ++ js "const lazy = () => import('next/dynamic');".
Definition mixedFs : FileSystem := oneFile mixedPath mixedText.

(* ================================================================== *)
(** * Properties *)
(* ================================================================== *)

(** ** Strings *)

Lemma str_eqb_eq : forall a b, str_eqb a b = true <-> a = b.
Proof.
  induction a as [|c a IH]; destruct b as [|d b]; simpl; split; intro H;
    try reflexivity; try discriminate.
  - apply andb_true_iff in H. destruct H as [Hc Hab].
    apply N.eqb_eq in Hc. apply IH in Hab. now subst.
  - injection H as -> ->. rewrite N.eqb_refl. simpl. now apply IH.
Qed.

Lemma str_eqb_refl : forall a, str_eqb a a = true.
Proof. intro a. now apply str_eqb_eq. Qed.

Lemma str_eqb_neq : forall a b, str_eqb a b = false <-> a <> b.
Proof.
  intros a b. split.
  - intros H E. apply str_eqb_eq in E. congruence.
  - intro H. destruct (str_eqb a b) eqn:E; [|reflexivity].
    apply str_eqb_eq in E. contradiction.
Qed.

Lemma startsWith_spec : forall p s,
  startsWith s p = true <-> exists t, s = p ++ t.
Proof.
  induction p as [|c p IH]; intro s; simpl.
  - split; [intros _; now exists s | reflexivity].
  - destruct s as [|d s].
    + split; [discriminate | intros [t Ht]; discriminate].
    + rewrite andb_true_iff, N.eqb_eq, IH. split.
      * intros [-> [t ->]]. now exists t.
      * intros [t Ht]. injection Ht as -> ->. split; [reflexivity | now exists t].
Qed.

Lemma startsWith_empty : forall s, startsWith s [] = true.
Proof. reflexivity. Qed.

Lemma includes_spec : forall s sub,
  includes s sub = true <-> exists pre post, s = pre ++ sub ++ post.
Proof.
  induction s as [|c s IH]; intro sub; simpl.
  - rewrite orb_false_r, startsWith_spec. split.
    + intros [t Ht]. now exists [], t.
    + intros [pre [post H]]. destruct pre; simpl in H.
      * now exists post.
      * discriminate.
  - rewrite orb_true_iff, startsWith_spec, IH. split.
    + intros [[t Ht] | [pre [post H]]].
      * now exists [], t.
      * exists (c :: pre), post. simpl. now rewrite H.
    + intros [pre [post H]]. destruct pre as [|d pre]; simpl in H.
      * left. now exists post.
      * right. injection H as _ H. now exists pre, post.
Qed.

Lemma in_trimStart : forall x s, In x (trimStart s) -> In x s.
Proof.
  induction s as [|c s IH]; simpl; [tauto|].
  destruct (isSpace c); [right; auto | auto].
Qed.

Lemma in_trim : forall x s, In x (trim s) -> In x s.
Proof.
  intros x s H. unfold trim, trimEnd in H.
  apply in_rev in H. apply in_trimStart in H. apply in_rev in H.
  now apply in_trimStart.
Qed.

Lemma in_skipn : forall (A : Type) (x : A) n l, In x (skipn n l) -> In x l.
Proof.
  induction n as [|n IH]; intros l H; simpl in H; [assumption|].
  destruct l; [contradiction | right; auto].
Qed.

Lemma in_removeFirst : forall x pat s, In x (removeFirst s pat) -> In x s.
Proof.
  induction s as [|c s IH]; simpl.
  - destruct (startsWith [] pat); [apply in_skipn | tauto].
  - destruct (startsWith (c :: s) pat).
    + apply in_skipn.
    + simpl. intros [H | H]; auto.
Qed.

Lemma in_splitLines : forall x s l, In l (splitLines s) -> In x l -> In x s.
Proof.
  induction s as [|c s IH]; simpl; intros l Hl Hx.
  - destruct Hl as [<- | []]. assumption.
  - destruct (N.eqb c 10).
    + destruct Hl as [<- | Hl]; [contradiction | right; eauto].
    + destruct (splitLines s) as [|l0 ls] eqn:E.
      * destruct Hl as [<- | []]. destruct Hx as [-> | []]. now left.
      * destruct Hl as [<- | Hl].
        -- destruct Hx as [-> | Hx]; [now left | right]. apply (IH l0); simpl; auto.
        -- right. apply (IH l); simpl; auto.
Qed.

Lemma splitLines_nonempty : forall s, splitLines s <> [].
Proof.
  destruct s as [|c s]; simpl; [discriminate|].
  destruct (N.eqb c 10); [discriminate|].
  destruct (splitLines s); discriminate.
Qed.

Lemma js_app : forall a b, js (a ++ b) = js a ++ js b.
Proof.
  intros a b. unfold js. rewrite <- map_app. f_equal.
  induction a as [|c a IH]; simpl; [reflexivity | now rewrite IH].
Qed.

Lemma ofNat_digits : forall n c, In c (ofNat n) -> (48 <= c <= 57)%N.
Proof.
  intros n c. unfold ofNat. generalize (Nat.to_uint n). intro d.
  assert (G : forall d, In c (js (NilEmpty.string_of_uint d)) -> (48 <= c <= 57)%N).
  { clear. induction d; simpl; intro H;
      try contradiction;
      (destruct H as [<- | H]; [vm_compute; split; discriminate | auto]). }
  apply G.
Qed.

(** ** The matcher against the accepted strings *)

Lemma starK_spec : forall p k s,
  starK p k s = true <->
  exists s1 s2, s = s1 ++ s2 /\ Forall (fun c => p c = true) s1 /\ k s2 = true.
Proof.
  intros p k. induction s as [|c s IH]; simpl.
  - split.
    + intro H. exists [], []. auto.
    + intros [s1 [s2 [E [_ H]]]]. symmetry in E. apply app_eq_nil in E.
      destruct E as [_ ->]. assumption.
  - rewrite orb_true_iff, andb_true_iff, IH. split.
    + intros [[Hc [s1 [s2 [-> [Hall Hk]]]]] | Hk].
      * exists (c :: s1), s2. auto.
      * exists [], (c :: s). auto.
    + intros [s1 [s2 [E [Hall Hk]]]]. destruct s1 as [|d s1]; simpl in E.
      * right. now subst s2.
      * injection E as <- ->. inversion Hall; subst. left. split; [assumption|].
        now exists s1, s2.
Qed.

Lemma matchK_spec : forall r s k,
  matchK r s k = true <->
  exists s1 s2, s = s1 ++ s2 /\ matches r s1 /\ k s2 = true.
Proof.
  induction r as [|p|r1 IH1 r2 IH2|r IH|p]; intros s k; simpl.
  - split.
    + intro H. exists [], s. repeat split; [constructor | assumption].
    + intros [s1 [s2 [-> [M H]]]]. inversion M; subst. assumption.
  - destruct s as [|c s].
    + split; [discriminate|]. intros [s1 [s2 [E [M _]]]].
      inversion M; subst. discriminate.
    + rewrite andb_true_iff. split.
      * intros [Hp Hk]. exists [c], s. repeat split; [now constructor | assumption].
      * intros [s1 [s2 [E [M Hk]]]]. inversion M; subst.
        injection E as -> ->. auto.
  - rewrite IH1. split.
    + intros [s1 [s2 [-> [M1 H]]]]. apply IH2 in H.
      destruct H as [s3 [s4 [-> [M2 Hk]]]].
      exists (s1 ++ s3), s4. rewrite app_assoc. repeat split; [now constructor | assumption].
    + intros [s1 [s2 [-> [M Hk]]]]. inversion M; subst.
      exists s0, (s3 ++ s2). rewrite app_assoc. repeat split; [assumption|].
      apply IH2. now exists s3, s2.
  - rewrite orb_true_iff, IH. split.
    + intros [[s1 [s2 [-> [M Hk]]]] | Hk].
      * exists s1, s2. repeat split; [now apply MOptTake | assumption].
      * exists [], s. repeat split; [apply MOptSkip | assumption].
    + intros [s1 [s2 [-> [M Hk]]]]. inversion M; subst.
      * now right.
      * left. now exists s1, s2.
  - rewrite starK_spec. split.
    + intros [s1 [s2 [-> [Hall Hk]]]]. exists s1, s2.
      repeat split; [now constructor | assumption].
    + intros [s1 [s2 [-> [M Hk]]]]. inversion M; subst. now exists s1, s2.
Qed.

Lemma matchesAt_spec : forall r s,
  matchesAt r s = true <-> exists s1 s2, s = s1 ++ s2 /\ matches r s1.
Proof.
  intros r s. unfold matchesAt. rewrite matchK_spec. split.
  - intros [s1 [s2 [E [M _]]]]. now exists s1, s2.
  - intros [s1 [s2 [E M]]]. now exists s1, s2.
Qed.

Lemma searchFrom_Some : forall r s i j,
  searchFrom r s i = Some j <->
  i <= j /\ j - i <= List.length s /\ matchesAt r (skipn (j - i) s) = true /\
  forall d, d < j - i -> matchesAt r (skipn d s) = false.
Proof.
  intros r. induction s as [|c s IH]; intros i j; simpl.
  - destruct (matchesAt r []) eqn:E.
    + split.
      * intro H. injection H as <-. rewrite Nat.sub_diag. simpl.
        repeat split; auto; lia.
      * intros [Hij [Hlen _]]. f_equal. lia.
    + split; [discriminate|]. intros [_ [Hlen [Hm _]]].
      assert (j - i = 0) as Z by lia. rewrite Z in Hm. simpl in Hm. congruence.
  - destruct (matchesAt r (c :: s)) eqn:E.
    + split.
      * intro H. injection H as <-. rewrite Nat.sub_diag. simpl.
        repeat split; auto; lia.
      * intros [Hij [_ [_ Hmin]]]. f_equal.
        destruct (Nat.eq_dec (j - i) 0) as [Z|NZ]; [lia|].
        specialize (Hmin 0). simpl in Hmin. rewrite E in Hmin.
        assert (0 < j - i) as P by lia. apply Hmin in P. discriminate.
    + rewrite IH. split.
      * intros [Hij [Hlen [Hm Hmin]]].
        replace (j - i) with (S (j - S i)) by lia. simpl.
        repeat split; try lia; [assumption|].
        intros d Hd. destruct d as [|d]; simpl; [assumption|]. apply Hmin. lia.
      * intros [Hij [Hlen [Hm Hmin]]].
        destruct (j - i) as [|n] eqn:En.
        -- simpl in Hm. congruence.
        -- replace (j - S i) with n by lia. simpl in Hm.
           repeat split; try lia; [assumption|].
           intros d Hd. apply (Hmin (S d)). lia.
Qed.

(** [match.index] is the leftmost position at which the expression
    accepts a prefix of what is left of the line. *)
Lemma matchIndex_Some : forall s r i,
  matchIndex s r = Some i <->
  i <= List.length s /\ matchesAt r (skipn i s) = true /\
  forall d, d < i -> matchesAt r (skipn d s) = false.
Proof.
  intros s r i. unfold matchIndex. rewrite searchFrom_Some, Nat.sub_0_r.
  split; intros H; repeat split; try apply H; lia.
Qed.

Lemma matchIndex_None : forall s r,
  matchIndex s r = None <->
  forall d, d <= List.length s -> matchesAt r (skipn d s) = false.
Proof.
  intros s r. split.
  - intros H d Hd. destruct (matchesAt r (skipn d s)) eqn:E; [|reflexivity].
    exfalso. revert H.
    assert (G : exists i, i <= d /\ matchesAt r (skipn i s) = true /\
                          forall e, e < i -> matchesAt r (skipn e s) = false).
    { clear Hd. induction d as [d IHd] using lt_wf_ind.
      destruct (existsb (fun e => matchesAt r (skipn e s)) (seq 0 d)) eqn:Ex.
      - apply existsb_exists in Ex. destruct Ex as [e [He Hm]].
        apply in_seq in He. destruct (IHd e ltac:(lia) Hm) as [i [Hi [Hmi Hmin]]].
        exists i. repeat split; [lia | assumption | assumption].
      - exists d. repeat split; [lia | assumption |].
        intros e He. destruct (matchesAt r (skipn e s)) eqn:Em; [|reflexivity].
        assert (existsb (fun e => matchesAt r (skipn e s)) (seq 0 d) = true).
        { apply existsb_exists. exists e. split; [apply in_seq; lia | assumption]. }
        congruence. }
    destruct G as [i [Hi [Hmi Hmin]]].
    assert (matchIndex s r = Some i) as S by (apply matchIndex_Some; repeat split; auto; lia).
    congruence.
  - intro H. destruct (matchIndex s r) as [i|] eqn:E; [|reflexivity].
    apply matchIndex_Some in E. destruct E as [Hi [Hm _]].
    rewrite (H i Hi) in Hm. discriminate.
Qed.

Lemma matches_lit : forall s t, matches (lit s) t <-> t = s.
Proof.
  induction s as [|c s IH]; intro t; simpl.
  - split; [intro M; now inversion M | intros ->; constructor].
  - split.
    + intro M. inversion M as [| |r1 r2 s1 s2 M1 M2| | |]; subst.
      inversion M1; subst. apply IH in M2. subst.
      match goal with H : N.eqb _ _ = true |- _ => apply N.eqb_eq in H; now subst end.
    + intros ->. change (c :: s) with ([c] ++ s). constructor.
      * constructor. apply N.eqb_refl.
      * now apply IH.
Qed.

(** ** Escaping makes the pattern literal *)

Lemma backslash_is_syntax : isSyntaxChar 92%N = true.
Proof. reflexivity. Qed.

Lemma parseEscaped_escapeRegExp : forall p,
  parseEscaped (escapeRegExp p) = Some (lit p).
Proof.
  induction p as [|c p IH]; [reflexivity|].
  unfold escapeRegExp in *. simpl flat_map.
  destruct (isSyntaxChar c) eqn:Hc.
  - simpl. rewrite Hc, IH. reflexivity.
  - simpl. destruct (N.eqb c 92) eqn:E.
    + apply N.eqb_eq in E. subst. rewrite backslash_is_syntax in Hc. discriminate.
    + rewrite Hc, IH. reflexivity.
Qed.

(** Constructing the three expressions never throws. *)
Lemma importRegexes_total : forall p,
  importRegexes p = Some [fromForm (lit p); requireForm (lit p); importForm (lit p)].
Proof.
  intro p. unfold importRegexes. now rewrite parseEscaped_escapeRegExp.
Qed.

(** ** The three textual forms *)

Lemma matches_Seq : forall r1 r2 t,
  matches (Seq r1 r2) t <-> exists a b, t = a ++ b /\ matches r1 a /\ matches r2 b.
Proof.
  intros r1 r2 t. split.
  - intro M. inversion M; subst. eauto.
  - intros [a [b [-> [M1 M2]]]]. now constructor.
Qed.

Lemma matches_Chr : forall p t,
  matches (Chr p) t <-> exists c, t = [c] /\ p c = true.
Proof.
  intros p t. split.
  - intro M. inversion M; subst. eauto.
  - intros [c [-> H]]. now constructor.
Qed.

Lemma matches_Star : forall p t,
  matches (Star p) t <-> Forall (fun c => p c = true) t.
Proof.
  intros p t. split.
  - intro M. now inversion M.
  - intro H. now constructor.
Qed.

Lemma matches_tail_group : forall t,
  matches (Opt (Seq (Chr (N.eqb 47)) (Star notQuote))) t <-> subpathOf t.
Proof.
  intro t. unfold subpathOf. split.
  - intro M. inversion M; subst; [now left | right].
    match goal with H : matches (Seq _ _) _ |- _ => apply matches_Seq in H;
      destruct H as [a [b [-> [Ma Mb]]]] end.
    apply matches_Chr in Ma. destruct Ma as [c [-> Hc]].
    apply N.eqb_eq in Hc. subst c. apply matches_Star in Mb. now exists b.
  - intros [-> | [rest [-> Hrest]]].
    + apply MOptSkip.
    + apply MOptTake. change (47%N :: rest) with ([47%N] ++ rest).
      constructor; [constructor; reflexivity | now constructor].
Qed.

(** The specifier after the opening quote: the pattern, an optional
    subpath, a closing quote. *)
Lemma matches_specifierTail : forall p t,
  matches (specifierTail (lit p)) t <->
  exists sub q, t = p ++ sub ++ [q] /\ subpathOf sub /\ isQuote q = true.
Proof.
  intros p t. unfold specifierTail. rewrite matches_Seq. split.
  - intros [a [b [-> [Ma Mb]]]]. apply matches_lit in Ma. subst a.
    apply matches_Seq in Mb. destruct Mb as [sub [e [-> [Msub Me]]]].
    apply matches_tail_group in Msub. apply matches_Chr in Me.
    destruct Me as [q [-> Hq]]. now exists sub, q.
  - intros [sub [q [-> [Hsub Hq]]]]. exists p, (sub ++ [q]).
    repeat split; [now apply matches_lit|].
    constructor; [now apply matches_tail_group | now constructor].
Qed.

(** First form: [from], at least one space, a quote, the specifier. *)
Lemma matches_fromForm : forall p t,
  matches (fromForm (lit p)) t <->
  exists ws q1 sub q2,
    t = js "from" ++ ws ++ [q1] ++ p ++ sub ++ [q2] /\
    ws <> [] /\ Forall (fun c => isSpace c = true) ws /\
    isQuote q1 = true /\ subpathOf sub /\ isQuote q2 = true.
Proof.
  intros p t. unfold fromForm, plus. rewrite matches_Seq. split.
  - intros [a [b [-> [Ma Mb]]]]. apply matches_lit in Ma. subst a.
    apply matches_Seq in Mb. destruct Mb as [ws [b' [-> [Mws Mb']]]].
    apply matches_Seq in Mws. destruct Mws as [w1 [w2 [-> [Mw1 Mw2]]]].
    apply matches_Chr in Mw1. destruct Mw1 as [w [-> Hw]].
    apply matches_Star in Mw2.
    apply matches_Seq in Mb'. destruct Mb' as [o [tl [-> [Mo Mtl]]]].
    apply matches_Chr in Mo. destruct Mo as [q1 [-> Hq1]].
    apply matches_specifierTail in Mtl. destruct Mtl as [sub [q2 [-> [Hsub Hq2]]]].
    exists ([w] ++ w2), q1, sub, q2. repeat split; auto.
    + discriminate.
    + constructor; assumption.
  - intros [ws [q1 [sub [q2 [-> [Hne [Hws [Hq1 [Hsub Hq2]]]]]]]]].
    exists (js "from"), (ws ++ [q1] ++ p ++ sub ++ [q2]).
    repeat split; [now apply matches_lit|].
    constructor.
    + destruct ws as [|w ws]; [contradiction|]. inversion Hws; subst.
      change (w :: ws) with ([w] ++ ws). constructor; now constructor.
    + constructor; [now constructor|]. apply matches_specifierTail. now exists sub, q2.
Qed.

(** Second and third form: a keyword, spaces, an opening parenthesis,
    spaces, a quote, the specifier. *)
Lemma matches_callForm : forall kw p t,
  matches (Seq (lit kw)
             (Seq (Star isSpace)
                (Seq (Chr (N.eqb 40))
                   (Seq (Star isSpace) (Seq (Chr isQuote) (specifierTail (lit p))))))) t <->
  exists ws1 ws2 q1 sub q2,
    t = kw ++ ws1 ++ [40%N] ++ ws2 ++ [q1] ++ p ++ sub ++ [q2] /\
    Forall (fun c => isSpace c = true) ws1 /\
    Forall (fun c => isSpace c = true) ws2 /\
    isQuote q1 = true /\ subpathOf sub /\ isQuote q2 = true.
Proof.
  intros kw p t. rewrite matches_Seq. split.
  - intros [a [b [-> [Ma Mb]]]]. apply matches_lit in Ma. subst a.
    apply matches_Seq in Mb. destruct Mb as [ws1 [b1 [-> [M1 Mb1]]]].
    apply matches_Star in M1.
    apply matches_Seq in Mb1. destruct Mb1 as [par [b2 [-> [Mpar Mb2]]]].
    apply matches_Chr in Mpar. destruct Mpar as [c [-> Hc]].
    apply N.eqb_eq in Hc. subst c.
    apply matches_Seq in Mb2. destruct Mb2 as [ws2 [b3 [-> [M2 Mb3]]]].
    apply matches_Star in M2.
    apply matches_Seq in Mb3. destruct Mb3 as [o [tl [-> [Mo Mtl]]]].
    apply matches_Chr in Mo. destruct Mo as [q1 [-> Hq1]].
    apply matches_specifierTail in Mtl. destruct Mtl as [sub [q2 [-> [Hsub Hq2]]]].
    exists ws1, ws2, q1, sub, q2. repeat split; auto.
  - intros [ws1 [ws2 [q1 [sub [q2 [-> [H1 [H2 [Hq1 [Hsub Hq2]]]]]]]]]].
    exists kw, (ws1 ++ [40%N] ++ ws2 ++ [q1] ++ p ++ sub ++ [q2]).
    repeat split; [now apply matches_lit|].
    constructor; [now constructor|].
    constructor; [constructor; reflexivity|].
    constructor; [now constructor|].
    constructor; [now constructor|].
    apply matches_specifierTail. now exists sub, q2.
Qed.

Lemma matches_requireForm : forall p t,
  matches (requireForm (lit p)) t <->
  exists ws1 ws2 q1 sub q2,
    t = js "require" ++ ws1 ++ [40%N] ++ ws2 ++ [q1] ++ p ++ sub ++ [q2] /\
    Forall (fun c => isSpace c = true) ws1 /\
    Forall (fun c => isSpace c = true) ws2 /\
    isQuote q1 = true /\ subpathOf sub /\ isQuote q2 = true.
Proof. intros p t. apply matches_callForm. Qed.

Lemma matches_importForm : forall p t,
  matches (importForm (lit p)) t <->
  exists ws1 ws2 q1 sub q2,
    t = js "import" ++ ws1 ++ [40%N] ++ ws2 ++ [q1] ++ p ++ sub ++ [q2] /\
    Forall (fun c => isSpace c = true) ws1 /\
    Forall (fun c => isSpace c = true) ws2 /\
    isQuote q1 = true /\ subpathOf sub /\ isQuote q2 = true.
Proof. intros p t. apply matches_callForm. Qed.

(** The loop over the expressions stops at the first one that matches. *)
Lemma firstMatch_Some : forall l rs i,
  firstMatch l rs = Some i <->
  exists pre r post,
    rs = pre ++ r :: post /\
    Forall (fun r' => matchIndex l r' = None) pre /\
    matchIndex l r = Some i.
Proof.
  intros l. induction rs as [|r rs IH]; intro i; simpl.
  - split; [discriminate|]. intros [pre [r [post [E _]]]].
    destruct pre; discriminate.
  - destruct (matchIndex l r) as [j|] eqn:E.
    + split.
      * intro H. injection H as ->. exists [], r, rs. auto.
      * intros [pre [r' [post [Ers [Hpre Hr']]]]].
        destruct pre as [|r0 pre]; simpl in Ers; injection Ers as -> ->.
        -- congruence.
        -- inversion Hpre; subst. congruence.
    + rewrite IH. split.
      * intros [pre [r' [post [-> [Hpre Hr']]]]].
        exists (r :: pre), r', post. auto.
      * intros [pre [r' [post [Ers [Hpre Hr']]]]].
        destruct pre as [|r0 pre]; simpl in Ers; injection Ers as -> ->.
        -- congruence.
        -- inversion Hpre; subst. now exists pre, r', post.
Qed.

(** ** Locator on a readable file *)

Lemma locateOnLine_eq : forall l i p errors,
  locateOnLine l i p errors = Some (errors ++ occurrencesOn l i p).
Proof.
  intros l i p errors. unfold locateOnLine, occurrencesOn.
  rewrite importRegexes_total. fold (formsOf p).
  destruct (firstMatch l (formsOf p)); [reflexivity | now rewrite app_nil_r].
Qed.

Lemma forEachTry_total : forall (A B : Type) (f : A -> list B -> option (list B))
    (g : A -> list B),
  (forall a acc, f a acc = Some (acc ++ g a)) ->
  forall l acc, forEachTry f l acc = Some (acc ++ flat_map g l).
Proof.
  intros A B f g Hf. induction l as [|a l IH]; intro acc; simpl.
  - now rewrite app_nil_r.
  - rewrite Hf, IH, app_assoc. reflexivity.
Qed.

Lemma locateTry_readable : forall fs filePath imports content,
  fs filePath = Some content ->
  locateTry fs filePath imports = Some (occurrencesIn content imports).
Proof.
  intros fs filePath imports content Hread. unfold locateTry. rewrite Hread.
  rewrite (forEachTry_total
             (fun (entry : jsstring * nat) errors =>
                forEachTry (locateOnLine (fst entry) (snd entry)) imports errors)
             (fun entry => flat_map (occurrencesOn (fst entry) (snd entry)) imports)).
  - reflexivity.
  - intros [l i] acc. simpl. apply forEachTry_total. intros p acc'.
    apply locateOnLine_eq.
Qed.

(** On a readable file nothing is written to the console and the result
    is the list of occurrences of its text. *)
Lemma findImportLocations_readable : forall fs filePath imports content,
  fs filePath = Some content ->
  findImportLocations fs filePath imports = ([], occurrencesIn content imports).
Proof.
  intros fs filePath imports content Hread. unfold findImportLocations.
  now rewrite (locateTry_readable _ _ _ Hread).
Qed.

Lemma in_combine_seq : forall (A : Type) (ls : list A) k (l : A) i,
  In (l, i) (combine ls (seq k (List.length ls))) <->
  k <= i /\ nth_error ls (i - k) = Some l.
Proof.
  induction ls as [|x ls IH]; intros k l i; simpl.
  - split; [tauto|]. intros [_ H]. destruct (i - k); discriminate.
  - rewrite IH. split.
    + intros [H | [Hk Hn]].
      * injection H as -> ->. rewrite Nat.sub_diag. simpl. auto.
      * split; [lia|]. replace (i - k) with (S (i - S k)) by lia. assumption.
    + intros [Hk Hn]. destruct (i - k) as [|n] eqn:E.
      * left. simpl in Hn. injection Hn as ->. f_equal. lia.
      * right. split; [lia|]. replace (i - S k) with n by lia. assumption.
Qed.

Lemma in_indexed : forall (A : Type) (ls : list A) l i,
  In (l, i) (indexed ls) <-> nth_error ls i = Some l.
Proof.
  intros A ls l i. unfold indexed. rewrite in_combine_seq, Nat.sub_0_r.
  split; [tauto | intro H; split; [lia | assumption]].
Qed.

Lemma map_snd_combine_seq : forall (A : Type) (ls : list A) k,
  List.map snd (combine ls (seq k (List.length ls))) = seq k (List.length ls).
Proof.
  induction ls as [|x ls IH]; intro k; simpl; [reflexivity | now rewrite IH].
Qed.

Lemma NoDup_indexed : forall (A : Type) (ls : list A), NoDup (indexed ls).
Proof.
  intros A ls. apply (NoDup_map_inv snd). unfold indexed.
  rewrite map_snd_combine_seq. apply seq_NoDup.
Qed.

Lemma NoDup_map_flat_map : forall (A B K : Type) (key : B -> K) (f : A -> list B) l,
  NoDup l ->
  (forall a, In a l -> NoDup (List.map key (f a))) ->
  (forall a a' b b', In a l -> In a' l -> In b (f a) -> In b' (f a') ->
                     key b = key b' -> a = a') ->
  NoDup (List.map key (flat_map f l)).
Proof.
  intros A B K key f. induction l as [|a l IH]; intros Hnd Hin Hinj; simpl.
  - constructor.
  - rewrite map_app. inversion Hnd as [|? ? Hnotin Hnd']; subst.
    apply NoDup_app.
    + apply Hin. now left.
    + apply IH; [assumption | intros; apply Hin; now right |].
      intros a0 a' b b' H0 H' Hb Hb' Hk.
      apply (Hinj a0 a' b b'); auto; now right.
    + intros k Hk Hk'. apply in_map_iff in Hk. destruct Hk as [b [<- Hb]].
      apply in_map_iff in Hk'. destruct Hk' as [b' [Ek Hb']].
      apply in_flat_map in Hb'. destruct Hb' as [a' [Ha' Hb']].
      assert (a = a') as -> by (apply (Hinj a a' b b'); auto; [now left | now right]).
      contradiction.
Qed.

Lemma in_occurrencesOn : forall l i p o,
  In o (occurrencesOn l i p) <->
  exists c, firstMatch l (formsOf p) = Some c /\
            o = {| importName := p; line := i + 1; column := c; lineContent := trim l |}.
Proof.
  intros l i p o. unfold occurrencesOn.
  destruct (firstMatch l (formsOf p)) as [c|]; simpl.
  - split.
    + intros [<- | []]. now exists c.
    + intros [c' [E ->]]. injection E as ->. now left.
  - split; [tauto | intros [c [E _]]; discriminate].
Qed.

(** Every occurrence comes from one line and one requested pattern, and
    carries the one-based number of the line, the index at which the first
    matching form matched, and the trimmed text of the line; conversely
    every line on which a form matches for a requested pattern yields such
    an occurrence. *)
Lemma in_occurrencesIn : forall content imports o,
  In o (occurrencesIn content imports) <->
  exists l i p c,
    nth_error (splitLines content) i = Some l /\ In p imports /\
    firstMatch l (formsOf p) = Some c /\
    o = {| importName := p; line := i + 1; column := c; lineContent := trim l |}.
Proof.
  intros content imports o. unfold occurrencesIn. rewrite in_flat_map. split.
  - intros [[l i] [He Ho]]. simpl in Ho. apply in_indexed in He.
    apply in_flat_map in Ho. destruct Ho as [p [Hp Ho]].
    apply in_occurrencesOn in Ho. destruct Ho as [c [Hc ->]].
    now exists l, i, p, c.
  - intros [l [i [p [c [Hl [Hp [Hc ->]]]]]]]. exists (l, i). split.
    + now apply in_indexed.
    + simpl. apply in_flat_map. exists p. split; [assumption|].
      apply in_occurrencesOn. now exists c.
Qed.

(** One occurrence at most for a line and a pattern. *)
Lemma occurrencesIn_keys_NoDup : forall content imports,
  NoDup imports ->
  NoDup (List.map occurrenceKey (occurrencesIn content imports)).
Proof.
  intros content imports Hnd. unfold occurrencesIn.
  apply NoDup_map_flat_map.
  - apply NoDup_indexed.
  - intros [l i] _. simpl. apply NoDup_map_flat_map.
    + assumption.
    + intros p _. unfold occurrencesOn.
      destruct (firstMatch l (formsOf p)); simpl; repeat constructor; auto.
    + intros p p' b b' _ _ Hb Hb' Hk.
      apply in_occurrencesOn in Hb. destruct Hb as [c [_ ->]].
      apply in_occurrencesOn in Hb'. destruct Hb' as [c' [_ ->]].
      unfold occurrenceKey in Hk. simpl in Hk. congruence.
  - intros [l i] [l' i'] b b' He He' Hb Hb' Hk. simpl in Hb, Hb'.
    apply in_flat_map in Hb. destruct Hb as [p [_ Hb]].
    apply in_flat_map in Hb'. destruct Hb' as [p' [_ Hb']].
    apply in_occurrencesOn in Hb. destruct Hb as [c [_ ->]].
    apply in_occurrencesOn in Hb'. destruct Hb' as [c' [_ ->]].
    unfold occurrenceKey in Hk. simpl in Hk.
    assert (i = i') as <- by (injection Hk; lia).
    apply in_indexed in He. apply in_indexed in He'. congruence.
Qed.

(** C4 (the worked example of the locator).  For pattern next/image and a
    file whose fifth line is the import of Image from next/image, the
    locator returns one occurrence on line 5 with the trimmed line as its
    text, and its column is 13: the index at which the first form starts
    to match, which is where the word from begins, not the start of the
    line. *)
Theorem locator_next_image_line5 : forall filePath,
  findImportLocations
    (fun _ => Some (js "// a" ++ [10%N] ++ js "// b" ++ [10%N] ++ js "// c" ++ [10%N]
                    ++ js "// d" ++ [10%N] ++ js "import Image from 'next/image';"))
    filePath [js "next/image"]
  = ([], [ {| importName := js "next/image";
              line := 5;
              column := 13;
              lineContent := js "import Image from 'next/image';" |} ]).
Proof.
  intro filePath. vm_compute. reflexivity.
Qed.

(** C7.  When the read of the file fails, the locator returns normally:
    it writes one warning naming the file and returns one occurrence per
    requested pattern, in the order of the set, each with line 0, column 0
    and empty text. *)
Theorem unreadable_file_degrades : forall (fs : FileSystem) filePath imports,
  fs filePath = None ->
  imports <> [] ->
  fst (findImportLocations fs filePath imports)
    = [ConsoleWarn (js "[plugin-block-imports] Could not read file: " ++ filePath)] /\
  List.length (snd (findImportLocations fs filePath imports)) = List.length imports /\
  List.map importName (snd (findImportLocations fs filePath imports)) = imports /\
  Forall (fun o => line o = 0 /\ column o = 0 /\ lineContent o = [])
         (snd (findImportLocations fs filePath imports)).
Proof.
  intros fs filePath imports Hread _. unfold findImportLocations, locateTry.
  rewrite Hread. simpl. repeat split.
  - apply length_map.
  - rewrite map_map. simpl. apply map_id.
  - apply Forall_forall. intros o Ho. apply in_map_iff in Ho.
    destruct Ho as [p [<- _]]. auto.
Qed.

Lemma unreadable_file_degrades_witness :
  fst (findImportLocations noFiles (js "/app/src/Gone.tsx") [js "next/link"; js "next-intl"])
    = [ConsoleWarn (js "[plugin-block-imports] Could not read file: "
                    ++ js "/app/src/Gone.tsx")] /\
  List.length (snd (findImportLocations noFiles (js "/app/src/Gone.tsx")
                      [js "next/link"; js "next-intl"]))
    = List.length [js "next/link"; js "next-intl"] /\
  List.map importName (snd (findImportLocations noFiles (js "/app/src/Gone.tsx")
                              [js "next/link"; js "next-intl"]))
    = [js "next/link"; js "next-intl"] /\
  Forall (fun o => line o = 0 /\ column o = 0 /\ lineContent o = [])
         (snd (findImportLocations noFiles (js "/app/src/Gone.tsx")
                 [js "next/link"; js "next-intl"])).
Proof.
  apply (@unreadable_file_degrades noFiles (js "/app/src/Gone.tsx")
           [js "next/link"; js "next-intl"]).
  - reflexivity.
  - discriminate.
Defined.

(** ** Sets and maps *)

Lemma existsb_str_eqb : forall x s, existsb (str_eqb x) s = true <-> In x s.
Proof.
  intros x s. rewrite existsb_exists. split.
  - intros [y [Hy E]]. apply str_eqb_eq in E. now subst.
  - intro H. exists x. split; [assumption | apply str_eqb_refl].
Qed.

Lemma in_setAdd : forall x y s, In y (setAdd x s) <-> y = x \/ In y s.
Proof.
  intros x y s. unfold setAdd. destruct (existsb (str_eqb x) s) eqn:E.
  - apply existsb_str_eqb in E. split; [tauto | intros [-> | H]; assumption].
  - rewrite in_app_iff. simpl. split; intros [H | H]; auto.
    destruct H as [<- | []]. now left.
Qed.

Lemma NoDup_setAdd : forall x s, NoDup s -> NoDup (setAdd x s).
Proof.
  intros x s H. unfold setAdd. destruct (existsb (str_eqb x) s) eqn:E; [assumption|].
  apply NoDup_app; [assumption | repeat constructor; auto |].
  intros a Ha [-> | []].
  assert (existsb (str_eqb a) s = true) by now apply existsb_str_eqb.
  congruence.
Qed.

Lemma setAdd_nonempty : forall x s, setAdd x s <> [].
Proof.
  intros x s H. assert (In x (setAdd x s)) as I by (apply in_setAdd; now left).
  rewrite H in I. contradiction.
Qed.

Lemma in_fold_setAdd : forall l acc x,
  In x (fold_left (fun s y => setAdd y s) l acc) <-> In x acc \/ In x l.
Proof.
  induction l as [|y l IH]; intros acc x; simpl.
  - tauto.
  - rewrite IH, in_setAdd. intuition (subst; auto).
Qed.

Lemma in_setOfArray : forall l x, In x (setOfArray l) <-> In x l.
Proof.
  intros l x. unfold setOfArray. rewrite in_fold_setAdd. simpl. tauto.
Qed.

Lemma NoDup_setOfArray : forall l, NoDup (setOfArray l).
Proof.
  intro l. unfold setOfArray.
  assert (G : forall acc, NoDup acc -> NoDup (fold_left (fun s y => setAdd y s) l acc)).
  { induction l as [|y l IH]; intros acc H; simpl; [assumption|].
    apply IH. now apply NoDup_setAdd. }
  apply G. constructor.
Qed.

Lemma mapGet_mapSet_same : forall (V : Type) k (v : V) m,
  mapGet k (mapSet k v m) = Some v.
Proof.
  intros V k v. induction m as [|[k' v'] m IH]; simpl.
  - now rewrite str_eqb_refl.
  - destruct (str_eqb k k') eqn:E; simpl; rewrite E; [reflexivity | assumption].
Qed.

Lemma mapGet_mapSet_other : forall (V : Type) k k' (v : V) m,
  k <> k' -> mapGet k (mapSet k' v m) = mapGet k m.
Proof.
  intros V k k' v m Hne. induction m as [|[k0 v0] m IH]; simpl.
  - apply str_eqb_neq in Hne. now rewrite Hne.
  - destruct (str_eqb k' k0) eqn:E; simpl.
    + apply str_eqb_eq in E. subst k0. apply str_eqb_neq in Hne. now rewrite Hne.
    + destruct (str_eqb k k0); [reflexivity | assumption].
Qed.

Lemma length_mapSet : forall (V : Type) k (v : V) m,
  List.length m <= List.length (mapSet k v m).
Proof.
  intros V k v. induction m as [|[k' v'] m IH]; simpl; [lia|].
  destruct (str_eqb k k'); simpl; lia.
Qed.

(** ** Registry: first match in registration order *)

Lemma findForbidden_Some : forall r ps p,
  findForbidden r ps = Some p <->
  exists pre post,
    ps = pre ++ p :: post /\ startsWith r p = true /\
    Forall (fun q => startsWith r q = false) pre.
Proof.
  intros r. induction ps as [|q ps IH]; intro p; simpl.
  - split; [discriminate|]. intros [pre [post [E _]]]. destruct pre; discriminate.
  - destruct (startsWith r q) eqn:E.
    + split.
      * intro H. injection H as ->. exists [], ps. auto.
      * intros [pre [post [Eps [Hp Hpre]]]].
        destruct pre as [|q0 pre]; simpl in Eps; injection Eps as -> ->.
        -- reflexivity.
        -- inversion Hpre; subst. congruence.
    + rewrite IH. split.
      * intros [pre [post [-> [Hp Hpre]]]]. exists (q :: pre), post. auto.
      * intros [pre [post [Eps [Hp Hpre]]]].
        destruct pre as [|q0 pre]; simpl in Eps; injection Eps as -> ->.
        -- congruence.
        -- inversion Hpre; subst. now exists pre, post.
Qed.

Lemma findForbidden_None : forall r ps,
  findForbidden r ps = None <-> forall q, In q ps -> startsWith r q = false.
Proof.
  intros r. induction ps as [|q ps IH]; simpl.
  - split; [intros _ q [] | reflexivity].
  - destruct (startsWith r q) eqn:E.
    + split; [discriminate|]. intro H. specialize (H q (or_introl eq_refl)). congruence.
    + rewrite IH. split.
      * intros H q' [<- | Hq']; auto.
      * intros H q' Hq'. apply H. now right.
Qed.

Lemma findForbidden_in : forall r ps p,
  findForbidden r ps = Some p -> In p ps /\ startsWith r p = true.
Proof.
  intros r ps p H. apply findForbidden_Some in H.
  destruct H as [pre [post [-> [Hp _]]]]. split; [|assumption].
  apply in_app_iff. right. now left.
Qed.

Lemma findForbidden_app : forall r ps qs,
  findForbidden r (ps ++ qs) =
  match findForbidden r ps with
  | Some p => Some p
  | None => findForbidden r qs
  end.
Proof.
  intros r. induction ps as [|p ps IH]; intro qs; simpl; [reflexivity|].
  destruct (startsWith r p); [reflexivity | apply IH].
Qed.

Lemma findForbidden_setAdd : forall r x s,
  findForbidden r (setAdd x s) = findForbidden r (s ++ [x]).
Proof.
  intros r x s. unfold setAdd. destruct (existsb (str_eqb x) s) eqn:E; [|reflexivity].
  apply existsb_str_eqb in E. rewrite findForbidden_app.
  destruct (findForbidden r s) eqn:F; [reflexivity|].
  simpl. rewrite (proj1 (findForbidden_None r s) F x E). reflexivity.
Qed.

(** Building the lookup set from the rules does not change which pattern
    is met first. *)
Lemma findForbidden_setOfArray : forall r l,
  findForbidden r (setOfArray l) = findForbidden r l.
Proof.
  intros r l. unfold setOfArray.
  assert (G : forall acc,
             findForbidden r (fold_left (fun s y => setAdd y s) l acc)
             = findForbidden r (acc ++ l)).
  { induction l as [|y l IH]; intro acc; simpl.
    - now rewrite app_nil_r.
    - rewrite IH. rewrite findForbidden_app, findForbidden_setAdd.
      rewrite <- findForbidden_app. now rewrite <- app_assoc. }
  apply G.
Qed.

(** ** Scanner *)

Lemma recordMatch_same : forall path p m,
  mapGet path (recordMatch path p m)
  = Some (setAdd p (orDefault (mapGet path m) [])).
Proof.
  intros path p m. unfold recordMatch, mapHas.
  destruct (mapGet path m) as [matched|] eqn:E.
  - rewrite E. simpl. apply mapGet_mapSet_same.
  - rewrite mapGet_mapSet_same. simpl. apply mapGet_mapSet_same.
Qed.

Lemma recordMatch_other : forall path path' p m,
  path' <> path -> mapGet path' (recordMatch path p m) = mapGet path' m.
Proof.
  intros path path' p m Hne. unfold recordMatch, mapHas.
  destruct (mapGet path m) as [matched|] eqn:E.
  - rewrite E. now apply mapGet_mapSet_other.
  - rewrite mapGet_mapSet_same. rewrite !mapGet_mapSet_other by assumption.
    reflexivity.
Qed.

Lemma fold_left_flat_map : forall (A B S : Type) (f : S -> B -> S) (g : A -> list B) l s,
  fold_left f (flat_map g l) s = fold_left (fun s a => fold_left f (g a) s) l s.
Proof.
  intros A B S f g. induction l as [|a l IH]; intro s; simpl; [reflexivity|].
  now rewrite fold_left_app, IH.
Qed.

Lemma scanDependency_hits : forall patterns path m dep,
  scanDependency patterns path m dep
  = fold_left recordHit (dependencyHits patterns path dep) m.
Proof.
  intros patterns path m dep. unfold scanDependency, dependencyHits.
  destruct (findForbidden (requestOf dep) patterns); reflexivity.
Qed.

Lemma scanModule_hits : forall excludeRules patterns m module,
  scanModule excludeRules patterns m module
  = fold_left recordHit (moduleHits excludeRules patterns module) m.
Proof.
  intros excludeRules patterns m module. unfold scanModule, moduleHits.
  destruct (resource module) as [path|]; [|reflexivity].
  destruct (negb (truthy path)); [reflexivity|].
  destruct (shouldExclude path excludeRules); [reflexivity|].
  rewrite fold_left_flat_map. revert m.
  induction (orDefault (dependencies module) []) as [|dep deps IH]; intro m; simpl.
  - reflexivity.
  - rewrite scanDependency_hits. apply IH.
Qed.

Lemma scanModules_hits : forall excludeRules patterns modules,
  scanModules excludeRules patterns modules
  = fold_left recordHit (flat_map (moduleHits excludeRules patterns) modules) [].
Proof.
  intros excludeRules patterns modules. unfold scanModules.
  rewrite fold_left_flat_map. generalize (@nil (jsstring * list jsstring)).
  induction modules as [|module modules IH]; intro m; simpl; [reflexivity|].
  rewrite scanModule_hits. apply IH.
Qed.

Lemma recorded_recordMatch : forall path p path' p' m,
  recorded path p (recordMatch path' p' m) <->
  recorded path p m \/ (path = path' /\ p = p').
Proof.
  intros path p path' p' m. unfold recorded.
  destruct (list_eq_dec N.eq_dec path path') as [->|Hne].
  - rewrite recordMatch_same. split.
    + intros [matched [E Hin]]. injection E as <-. apply in_setAdd in Hin.
      destruct Hin as [-> | Hin]; [now right | left].
      destruct (mapGet path' m) as [old|]; simpl in Hin; [|contradiction].
      now exists old.
    + intros [[matched [E Hin]] | [_ ->]].
      * rewrite E. simpl. exists (setAdd p' matched). split; [reflexivity|].
        apply in_setAdd. now right.
      * eexists. split; [reflexivity|]. apply in_setAdd. now left.
  - rewrite recordMatch_other by assumption. split; [now left|].
    intros [H | [E _]]; [assumption | contradiction].
Qed.

Lemma fold_recordHit_recorded : forall hits m path p,
  recorded path p (fold_left recordHit hits m) <->
  recorded path p m \/ In (path, p) hits.
Proof.
  induction hits as [|[path' p'] hits IH]; intros m path p; simpl.
  - tauto.
  - rewrite IH. unfold recordHit. simpl. rewrite recorded_recordMatch.
    split.
    + intros [[H | [-> ->]] | H]; auto.
    + intros [H | [H | H]]; auto. injection H as -> ->. auto.
Qed.

Lemma fold_recordHit_absent : forall hits m path,
  mapGet path (fold_left recordHit hits m) = None <->
  mapGet path m = None /\ forall p, ~ In (path, p) hits.
Proof.
  induction hits as [|[path' p'] hits IH]; intros m path; simpl.
  - split; [intro H; split; [assumption | tauto] | tauto].
  - rewrite IH. unfold recordHit. simpl.
    destruct (list_eq_dec N.eq_dec path path') as [->|Hne].
    + rewrite recordMatch_same. split; [intros [H _]; discriminate|].
      intros [_ H]. exfalso. apply (H p'). now left.
    + rewrite recordMatch_other by assumption. split.
      * intros [Hm Hh]. split; [assumption|]. intros p [E | Hin].
        -- injection E as E _. congruence.
        -- now apply (Hh p).
      * intros [Hm Hh]. split; [assumption|]. intros p Hin. apply (Hh p). now right.
Qed.

Lemma wellFormed_recordMatch : forall path p m,
  wellFormed m -> wellFormed (recordMatch path p m).
Proof.
  intros path p m Hwf path' matched Hget.
  destruct (list_eq_dec N.eq_dec path' path) as [->|Hne].
  - rewrite recordMatch_same in Hget. injection Hget as <-. split.
    + apply setAdd_nonempty.
    + apply NoDup_setAdd. destruct (mapGet path m) as [old|] eqn:E; simpl.
      * now apply (Hwf path old).
      * constructor.
  - rewrite recordMatch_other in Hget by assumption. now apply (Hwf path').
Qed.

Lemma fold_recordHit_wellFormed : forall hits m,
  wellFormed m -> wellFormed (fold_left recordHit hits m).
Proof.
  induction hits as [|hit hits IH]; intros m Hwf; simpl; [assumption|].
  apply IH. now apply wellFormed_recordMatch.
Qed.

Lemma wellFormed_empty : wellFormed [].
Proof. intros path matched H. discriminate. Qed.

Lemma in_hits : forall excludeRules patterns modules path p,
  In (path, p) (flat_map (moduleHits excludeRules patterns) modules) <->
  contributes excludeRules patterns modules path p.
Proof.
  intros excludeRules patterns modules path p. rewrite in_flat_map.
  unfold contributes, moduleHits. split.
  - intros [module [Hm Hin]]. exists module.
    destruct (resource module) as [path'|]; [|contradiction].
    destruct (truthy path') eqn:Ht; simpl in Hin; [|contradiction].
    destruct (shouldExclude path' excludeRules) eqn:Hx; [contradiction|].
    apply in_flat_map in Hin. destruct Hin as [dep [Hdep Hin]].
    unfold dependencyHits in Hin.
    destruct (findForbidden (requestOf dep) patterns) as [q|] eqn:F; [|contradiction].
    destruct Hin as [E | []]. injection E as -> ->.
    exists dep. auto 10.
  - intros [module [dep [Hm [Hres [Ht [Hx [Hdep F]]]]]]]. exists module.
    split; [assumption|]. rewrite Hres, Ht. simpl. rewrite Hx.
    apply in_flat_map. exists dep. split; [assumption|].
    unfold dependencyHits. rewrite F. now left.
Qed.

(** The finding holds exactly what the scanned modules contribute. *)
Lemma scanModules_recorded : forall excludeRules patterns modules path p,
  recorded path p (scanModules excludeRules patterns modules) <->
  contributes excludeRules patterns modules path p.
Proof.
  intros. rewrite scanModules_hits, fold_recordHit_recorded, in_hits.
  split; [|now right]. intros [[matched [H _]] | H]; [discriminate | assumption].
Qed.

Lemma scanModules_absent : forall excludeRules patterns modules path,
  mapGet path (scanModules excludeRules patterns modules) = None <->
  forall p, ~ contributes excludeRules patterns modules path p.
Proof.
  intros. rewrite scanModules_hits, fold_recordHit_absent. split.
  - intros [_ H] p Hc. apply (H p). now apply in_hits.
  - intro H. split; [reflexivity|]. intros p Hin. apply (H p). now apply in_hits.
Qed.

Lemma scanModules_wellFormed : forall excludeRules patterns modules,
  wellFormed (scanModules excludeRules patterns modules).
Proof.
  intros. rewrite scanModules_hits. apply fold_recordHit_wellFormed, wellFormed_empty.
Qed.

Lemma plugin_patterns : forall options plugin,
  pluginBlockImports options = Ok plugin ->
  forbiddenPatterns plugin
  = setOfArray (List.map pattern (forbiddenImports (resolvedOptions plugin))) /\
  opt_forbiddenImports options = VArray (forbiddenImports (resolvedOptions plugin)).
Proof.
  intros options plugin H. unfold pluginBlockImports in H.
  destruct (opt_forbiddenImports options) eqn:E; simpl in H;
    try discriminate; try (destruct b; discriminate);
    try (destruct (negb (N.eqb n 0)); discriminate);
    try (destruct (truthy s); discriminate).
  injection H as <-. simpl. auto.
Qed.

(** C1.  For a module with a resource path that is not excluded and any
    of its dependency requests [r]: if [r] starts with a registered
    pattern, the resource path is a key of the finding and its matched
    set, which has no repetition, holds the first pattern in registration
    order that is a prefix of [r]; if [r] starts with no registered
    pattern, the dependency leaves the finding as it was; and a file none
    of whose dependency requests starts with a registered pattern is not a
    key of the finding. *)
Theorem scanner_records_first_match :
  forall options plugin modules module path dep,
    pluginBlockImports options = Ok plugin ->
    In module modules ->
    resource module = Some path ->
    truthy path = true ->
    shouldExclude path (exclude (resolvedOptions plugin)) = false ->
    In dep (orDefault (dependencies module) []) ->
    let registry := List.map pattern (forbiddenImports (resolvedOptions plugin)) in
    let finding := scanModules (exclude (resolvedOptions plugin))
                               (forbiddenPatterns plugin) modules in
    let r := requestOf dep in
    (forall p, In p registry -> startsWith r p = true ->
       exists q pre post matched,
         registry = pre ++ q :: post /\
         Forall (fun q' => startsWith r q' = false) pre /\
         startsWith r q = true /\
         mapGet path finding = Some matched /\ In q matched /\ NoDup matched) /\
    ((forall p, In p registry -> startsWith r p = false) ->
       forall errorMap,
         scanDependency (forbiddenPatterns plugin) path errorMap dep = errorMap) /\
    (forall file,
       (forall module' dep' p,
          In module' modules -> resource module' = Some file ->
          In dep' (orDefault (dependencies module') []) ->
          In p registry -> startsWith (requestOf dep') p = false) ->
       mapGet file finding = None).
Proof.
  intros options plugin modules module path dep Hsetup Hmod Hres Htruthy Hexcl Hdep
         registry finding r.
  destruct (plugin_patterns _ Hsetup) as [Hpats _]. fold registry in Hpats.
  repeat split.
  - intros p Hp Hstart.
    destruct (findForbidden r registry) as [q|] eqn:F.
    + pose proof F as F'. apply findForbidden_Some in F'.
      destruct F' as [pre [post [Ereg [Hq Hpre]]]].
      assert (Hrec : recorded path q finding).
      { apply scanModules_recorded. exists module, dep. repeat split; auto.
        rewrite Hpats, findForbidden_setOfArray. exact F. }
      destruct Hrec as [matched [Hget Hin]].
      exists q, pre, post, matched. repeat split; auto.
      exact (proj2 (scanModules_wellFormed _ _ _ _ Hget)).
    + rewrite (proj1 (findForbidden_None r registry) F p Hp) in Hstart. discriminate.
  - intros Hnone errorMap. unfold scanDependency.
    rewrite Hpats, findForbidden_setOfArray. fold r.
    now rewrite (proj2 (findForbidden_None r registry) Hnone).
  - intros file Hnone. apply scanModules_absent.
    intros p [module' [dep' [Hm' [Hr' [_ [_ [Hd' F]]]]]]].
    rewrite Hpats, findForbidden_setOfArray in F.
    apply findForbidden_in in F. destruct F as [Hin Hstart].
    rewrite (Hnone module' dep' p Hm' Hr' Hd' Hin) in Hstart. discriminate.
Qed.

Lemma scanner_records_first_match_witness :
  (forall p, In p (List.map pattern (forbiddenImports (resolvedOptions heroPlugin))) ->
     startsWith (requestOf heroDep) p = true ->
     exists q pre post matched,
       List.map pattern (forbiddenImports (resolvedOptions heroPlugin)) = pre ++ q :: post /\
       Forall (fun q' => startsWith (requestOf heroDep) q' = false) pre /\
       startsWith (requestOf heroDep) q = true /\
       mapGet heroPath
         (scanModules (exclude (resolvedOptions heroPlugin))
                      (forbiddenPatterns heroPlugin) heroModules) = Some matched /\
       In q matched /\ NoDup matched) /\
  ((forall p, In p (List.map pattern (forbiddenImports (resolvedOptions heroPlugin))) ->
      startsWith (requestOf heroDep) p = false) ->
     forall errorMap,
       scanDependency (forbiddenPatterns heroPlugin) heroPath errorMap heroDep = errorMap) /\
  (forall file,
     (forall module' dep' p,
        In module' heroModules -> resource module' = Some file ->
        In dep' (orDefault (dependencies module') []) ->
        In p (List.map pattern (forbiddenImports (resolvedOptions heroPlugin))) ->
        startsWith (requestOf dep') p = false) ->
     mapGet file
       (scanModules (exclude (resolvedOptions heroPlugin))
                    (forbiddenPatterns heroPlugin) heroModules) = None).
Proof.
  apply (@scanner_records_first_match heroOptions heroPlugin heroModules heroModule
           heroPath heroDep).
  - reflexivity.
  - simpl. left. reflexivity.
  - reflexivity.
  - reflexivity.
  - reflexivity.
  - simpl. right. left. reflexivity.
Defined.

(** C6.  A path that contains node_modules is excluded whatever the
    configured exclusion rules are; a module with such a resource leaves
    the finding untouched, its dependencies are not looked at, and the
    path is never a key of the finding. *)
Theorem node_modules_never_reported :
  forall excludeRules patterns modules path,
    includes path (js "node_modules") = true ->
    shouldExclude path excludeRules = true /\
    (forall module errorMap,
       resource module = Some path ->
       scanModule excludeRules patterns errorMap module = errorMap) /\
    mapGet path (scanModules excludeRules patterns modules) = None.
Proof.
  intros excludeRules patterns modules path Hnm.
  assert (Hx : shouldExclude path excludeRules = true)
    by (unfold shouldExclude; now rewrite Hnm).
  repeat split.
  - exact Hx.
  - intros module errorMap Hres. unfold scanModule. rewrite Hres, Hx.
    now destruct (negb (truthy path)).
  - apply scanModules_absent. intros p [module [dep [_ [_ [_ [Hno _]]]]]].
    congruence.
Qed.

Lemma node_modules_never_reported_witness :
  shouldExclude vendoredPath [] = true /\
  (forall module errorMap,
     resource module = Some vendoredPath ->
     scanModule [] [js "next/image"; js "next/link"] errorMap module = errorMap) /\
  mapGet vendoredPath
    (scanModules [] [js "next/image"; js "next/link"] vendoredModules) = None.
Proof.
  apply (@node_modules_never_reported [] [js "next/image"; js "next/link"]
           vendoredModules vendoredPath).
  reflexivity.
Defined.

(** C5, as the code has it.  Setup throws the configuration error when
    [forbiddenImports] is missing or is anything but an array, and it
    succeeds for every array of rules, the empty array included. *)
Theorem setup_requires_an_array : forall options,
  (isArray (opt_forbiddenImports options) = false ->
   pluginBlockImports options
   = Throw (js "[plugin-block-imports] forbiddenImports option is required and must be an array")) /\
  (forall items,
     opt_forbiddenImports options = VArray items ->
     exists plugin,
       pluginBlockImports options = Ok plugin /\
       forbiddenImports (resolvedOptions plugin) = items /\
       forbiddenPatterns plugin = setOfArray (List.map pattern items)).
Proof.
  intro options. split.
  - intro H. unfold pluginBlockImports. rewrite H. simpl.
    now rewrite orb_true_r.
  - intros items H. unfold pluginBlockImports. rewrite H. simpl.
    eexists. repeat split.
Qed.

Lemma setup_requires_an_array_witness :
  (pluginBlockImports missingOptions
   = Throw (js "[plugin-block-imports] forbiddenImports option is required and must be an array")) /\
  (exists plugin,
     pluginBlockImports heroOptions = Ok plugin /\
     forbiddenImports (resolvedOptions plugin) = NEXTJS_FORBIDDEN_IMPORTS /\
     forbiddenPatterns plugin = setOfArray (List.map pattern NEXTJS_FORBIDDEN_IMPORTS)).
Proof.
  split.
  - apply (proj1 (setup_requires_an_array missingOptions)). reflexivity.
  - apply (proj2 (setup_requires_an_array heroOptions) NEXTJS_FORBIDDEN_IMPORTS).
    reflexivity.
Defined.

(** C5, counterexample to the claim as written: with an empty array of
    rules setup does not throw; it returns a plugin with no pattern. *)
Lemma setup_accepts_empty_array :
  pluginBlockImports (optionsOf [] None None)
  = Ok {| resolvedOptions :=
            {| forbiddenImports := []; exclude := []; failOnError := true;
               errorHeader := js "MODULE FEDERATION BUILD ERROR"; colors := true |};
          forbiddenPatterns := [] |}.
Proof. reflexivity. Qed.

(** C10, as the code has it.  When a registered rule has the empty
    pattern, every module with a resource path that is not excluded and
    with at least one dependency is a key of the finding: each of its
    requests, the empty fallback included, starts with the empty string,
    so each has a first match, and that first match is in the matched
    set.  The empty pattern itself is in the matched set when some request
    of the module starts with no pattern registered before it. *)
Theorem empty_pattern_flags_every_module :
  forall options plugin modules module path dep,
    pluginBlockImports options = Ok plugin ->
    In [] (List.map pattern (forbiddenImports (resolvedOptions plugin))) ->
    In module modules ->
    resource module = Some path ->
    truthy path = true ->
    shouldExclude path (exclude (resolvedOptions plugin)) = false ->
    In dep (orDefault (dependencies module) []) ->
    let registry := List.map pattern (forbiddenImports (resolvedOptions plugin)) in
    let finding := scanModules (exclude (resolvedOptions plugin))
                               (forbiddenPatterns plugin) modules in
    startsWith (requestOf dep) [] = true /\
    (exists matched q,
       mapGet path finding = Some matched /\ In q matched /\
       findForbidden (requestOf dep) registry = Some q) /\
    (forall pre post,
       registry = pre ++ [] :: post ->
       Forall (fun q => startsWith (requestOf dep) q = false) pre ->
       recorded path [] finding).
Proof.
  intros options plugin modules module path dep Hsetup Hempty Hmod Hres Htruthy
         Hexcl Hdep registry finding.
  destruct (plugin_patterns _ Hsetup) as [Hpats _]. fold registry in Hpats.
  assert (Hcontrib : forall q, findForbidden (requestOf dep) registry = Some q ->
                               recorded path q finding).
  { intros q F. apply scanModules_recorded. exists module, dep. repeat split; auto.
    rewrite Hpats, findForbidden_setOfArray. exact F. }
  repeat split.
  - destruct (findForbidden (requestOf dep) registry) as [q|] eqn:F.
    + destruct (Hcontrib q eq_refl) as [matched [Hget Hin]]. now exists matched, q.
    + pose proof (proj1 (findForbidden_None _ _) F [] Hempty) as H. discriminate.
  - intros pre post Ereg Hpre. apply Hcontrib. apply findForbidden_Some.
    now exists pre, post.
Qed.

Lemma empty_pattern_flags_every_module_witness :
  startsWith (requestOf blankDep) [] = true /\
  (exists matched q,
     mapGet shadowPath
       (scanModules (exclude (resolvedOptions blankPlugin))
                    (forbiddenPatterns blankPlugin) [blankModule]) = Some matched /\
     In q matched /\
     findForbidden (requestOf blankDep)
       (List.map pattern (forbiddenImports (resolvedOptions blankPlugin))) = Some q) /\
  (forall pre post,
     List.map pattern (forbiddenImports (resolvedOptions blankPlugin)) = pre ++ [] :: post ->
     Forall (fun q => startsWith (requestOf blankDep) q = false) pre ->
     recorded shadowPath []
       (scanModules (exclude (resolvedOptions blankPlugin))
                    (forbiddenPatterns blankPlugin) [blankModule])).
Proof.
  apply (@empty_pattern_flags_every_module blankOptions blankPlugin [blankModule]
           blankModule shadowPath blankDep).
  - reflexivity.
  - simpl. left. reflexivity.
  - simpl. left. reflexivity.
  - reflexivity.
  - reflexivity.
  - reflexivity.
  - simpl. left. reflexivity.
Defined.

(** C10, counterexample to the claim as written: the registry holds the
    empty pattern after next/link, the module is not excluded, has a
    resource path and one dependency, and yet the empty pattern is not in
    its matched set, which is the single pattern next/link. *)
Lemma empty_pattern_shadowed :
  pluginBlockImports shadowOptions = Ok shadowPlugin /\
  In [] (List.map pattern (forbiddenImports (resolvedOptions shadowPlugin))) /\
  resource shadowModule = Some shadowPath /\
  shouldExclude shadowPath (exclude (resolvedOptions shadowPlugin)) = false /\
  orDefault (dependencies shadowModule) [] = [shadowDep] /\
  mapGet shadowPath
    (scanModules (exclude (resolvedOptions shadowPlugin))
                 (forbiddenPatterns shadowPlugin) [shadowModule])
    = Some [js "next/link"] /\
  ~ recorded shadowPath []
      (scanModules (exclude (resolvedOptions shadowPlugin))
                   (forbiddenPatterns shadowPlugin) [shadowModule]).
Proof.
  repeat split; try reflexivity.
  - simpl. right. left. reflexivity.
  - intros [matched [Hget Hin]]. vm_compute in Hget. injection Hget as <-.
    destruct Hin as [H | []]. discriminate.
Qed.

(** ** Reporter: the error count *)

Lemma reportOccurrence_spec : forall c rp err st,
  console (reportOccurrence c rp err st) = console st ++ occurrenceBlock c rp err /\
  errorCount (reportOccurrence c rp err st) = S (errorCount st) /\
  foundImports (reportOccurrence c rp err st) = setAdd (importName err) (foundImports st).
Proof.
  intros c rp err st. unfold reportOccurrence, occurrenceBlock.
  destruct (truthy (lineContent err)); simpl; repeat split;
    repeat rewrite <- app_assoc; reflexivity.
Qed.

Lemma fold_reportOccurrence_spec : forall c rp errs st,
  console (fold_left (fun st err => reportOccurrence c rp err st) errs st)
    = console st ++ flat_map (occurrenceBlock c rp) errs /\
  errorCount (fold_left (fun st err => reportOccurrence c rp err st) errs st)
    = errorCount st + List.length errs.
Proof.
  intros c rp. induction errs as [|err errs IH]; intro st; simpl.
  - now rewrite app_nil_r, Nat.add_0_r.
  - destruct (IH (reportOccurrence c rp err st)) as [Hc Hn].
    destruct (reportOccurrence_spec c rp err st) as [Hc1 [Hn1 _]].
    rewrite Hc, Hn, Hc1, Hn1. split; [now rewrite <- app_assoc | lia].
Qed.

Lemma reportFile_spec : forall c fs cwd st entry,
  console (reportFile c fs cwd st entry) = console st ++ fileBlock c fs cwd entry /\
  errorCount (reportFile c fs cwd st entry)
    = errorCount st
      + List.length (snd (findImportLocations fs (fst entry) (snd entry))).
Proof.
  intros c fs cwd st entry. unfold reportFile, fileBlock.
  destruct (fold_reportOccurrence_spec c (removeFirst (fst entry) cwd)
              (snd (findImportLocations fs (fst entry) (snd entry)))
              (consoleEvents (fst (findImportLocations fs (fst entry) (snd entry))) st))
    as [Hc Hn].
  rewrite Hc, Hn. simpl. split; [now rewrite <- app_assoc | reflexivity].
Qed.

Lemma reportFiles_spec : forall c fs cwd errorMap st,
  console (reportFiles c fs cwd errorMap st)
    = console st ++ flat_map (fileBlock c fs cwd) errorMap /\
  errorCount (reportFiles c fs cwd errorMap st)
    = errorCount st + totalOccurrences fs errorMap.
Proof.
  intros c fs cwd. unfold reportFiles, totalOccurrences.
  induction errorMap as [|entry errorMap IH]; intro st; simpl.
  - now rewrite app_nil_r, Nat.add_0_r.
  - destruct (IH (reportFile c fs cwd st entry)) as [Hc Hn].
    destruct (reportFile_spec c fs cwd st entry) as [Hc1 Hn1].
    rewrite Hc, Hn, Hc1, Hn1. split; [now rewrite <- app_assoc | lia].
Qed.

Lemma reportAlternative_count : forall c alts st imp,
  errorCount (reportAlternative c alts st imp) = errorCount st.
Proof.
  intros c alts st imp. unfold reportAlternative.
  destruct (mapGet imp alts) as [alt|]; [|reflexivity].
  destruct (truthy alt); reflexivity.
Qed.

Lemma fold_reportAlternative_count : forall c alts imps st,
  errorCount (fold_left (reportAlternative c alts) imps st) = errorCount st.
Proof.
  intros c alts. induction imps as [|imp imps IH]; intro st; simpl; [reflexivity|].
  now rewrite IH, reportAlternative_count.
Qed.

Lemma printHeader_count : forall c options st,
  errorCount (printHeader c options st) = errorCount st.
Proof. reflexivity. Qed.

Lemma printAlternatives_count : forall c alts st,
  errorCount (printAlternatives c alts st) = errorCount st.
Proof.
  intros c alts st. unfold printAlternatives.
  destruct (0 <? List.length (foundImports st)); [|reflexivity].
  simpl. now rewrite fold_reportAlternative_count.
Qed.

(** The value returned by the reporter. *)
Lemma printErrorReport_count : forall fs errorMap forbidden options cwd,
  snd (printErrorReport fs errorMap forbidden options cwd)
  = totalOccurrences fs errorMap.
Proof.
  intros fs errorMap forbidden options cwd. unfold printErrorReport. simpl.
  rewrite printAlternatives_count.
  match goal with
  | |- context [reportFiles ?c fs cwd errorMap ?st] =>
      destruct (reportFiles_spec c fs cwd errorMap st) as [_ Hn]; rewrite Hn
  end.
  reflexivity.
Qed.

(** ** Reporter: what is written *)

Lemma fold_reportAlternative_console : forall c alts imps st,
  exists lines,
    console (fold_left (reportAlternative c alts) imps st) = console st ++ lines.
Proof.
  intros c alts. induction imps as [|imp imps IH]; intro st; simpl.
  - exists []. now rewrite app_nil_r.
  - destruct (IH (reportAlternative c alts st imp)) as [lines Hl]. rewrite Hl.
    unfold reportAlternative. destruct (mapGet imp alts) as [alt|].
    + destruct (truthy alt); simpl.
      * eexists. now rewrite <- app_assoc.
      * now exists lines.
    + now exists lines.
Qed.

Lemma printAlternatives_console : forall c alts st,
  exists lines, console (printAlternatives c alts st) = console st ++ lines.
Proof.
  intros c alts st. unfold printAlternatives.
  destruct (0 <? List.length (foundImports st)).
  - simpl.
    destruct (fold_reportAlternative_console c alts (foundImports st)
                (consoleError (yellow c (js "  Suggested alternatives:")) st))
      as [lines Hl].
    rewrite Hl. simpl. eexists. repeat rewrite <- app_assoc. reflexivity.
  - exists []. now rewrite app_nil_r.
Qed.

(** The report is the header, one block per file of the finding in map
    order, the alternatives, the summary line and an empty line. *)
Lemma printErrorReport_console : forall fs errorMap forbidden options cwd,
  exists header alternatives,
    fst (printErrorReport fs errorMap forbidden options cwd)
    = header
      ++ flat_map (fileBlock (createColorizer (colors options)) fs cwd) errorMap
      ++ alternatives
      ++ [ ConsoleError
             (red (createColorizer (colors options))
                (bold (createColorizer (colors options))
                   (js "  "
                    ++ ofNat (snd (printErrorReport fs errorMap forbidden options cwd))
                    ++ js " error(s) found."
                    ++ (if failOnError options then js " Build failed." else []))));
           ConsoleError [] ].
Proof.
  intros fs errorMap forbidden options cwd.
  rewrite printErrorReport_count. unfold printErrorReport.
  set (c := createColorizer (colors options)).
  set (st0 := printHeader c options {| console := []; foundImports := []; errorCount := 0 |}).
  destruct (reportFiles_spec c fs cwd errorMap st0) as [Hc Hn].
  destruct (printAlternatives_console c (alternativesOf forbidden)
              (reportFiles c fs cwd errorMap st0)) as [alts Ha].
  exists (console st0), alts. simpl. unfold summaryLine.
  rewrite printAlternatives_count, Ha, Hc, Hn. simpl.
  repeat rewrite <- app_assoc. reflexivity.
Qed.

Lemma totalOccurrences_empty : forall fs, totalOccurrences fs [] = 0.
Proof. reflexivity. Qed.

(** C3.  The value returned by the reporter is the number of occurrences
    the locator returned over all files of the finding, each of which is
    printed as one block and counted once; the report ends with the
    summary line, which reads N error(s) found. and carries the clause
    Build failed. exactly when failOnError is set.  For one file with two
    different forbidden imports, one per line, the count is 2 although the
    finding has a single file. *)
Theorem error_count_is_occurrence_count :
  (forall fs errorMap forbidden options cwd,
     snd (printErrorReport fs errorMap forbidden options cwd)
       = totalOccurrences fs errorMap /\
     exists header alternatives,
       fst (printErrorReport fs errorMap forbidden options cwd)
       = header
         ++ flat_map (fileBlock (createColorizer (colors options)) fs cwd) errorMap
         ++ alternatives
         ++ [ ConsoleError
                (red (createColorizer (colors options))
                   (bold (createColorizer (colors options))
                      (js "  "
                       ++ ofNat (snd (printErrorReport fs errorMap forbidden options cwd))
                       ++ js " error(s) found."
                       ++ (if failOnError options then js " Build failed." else []))));
              ConsoleError [] ]) /\
  (pageFinding = [(pagePath, [js "next/image"; js "next-intl"])] /\
   snd (printErrorReport (oneFile pagePath pageText) pageFinding
          (forbiddenImports (resolvedOptions heroPlugin))
          (resolvedOptions heroPlugin) (js "/app")) = 2 /\
   snd (printErrorReport (oneFile pagePath pageText) pageFinding
          (forbiddenImports (resolvedOptions lenientPlugin))
          (resolvedOptions lenientPlugin) (js "/app")) = 2 /\
   nth_error (rev (fst (printErrorReport (oneFile pagePath pageText) pageFinding
                          (forbiddenImports (resolvedOptions heroPlugin))
                          (resolvedOptions heroPlugin) (js "/app")))) 1
     = Some (ConsoleError (ANSI_red ++ (ANSI_bold ++ js "  2 error(s) found. Build failed."
                                        ++ ANSI_reset) ++ ANSI_reset)) /\
   nth_error (rev (fst (printErrorReport (oneFile pagePath pageText) pageFinding
                          (forbiddenImports (resolvedOptions lenientPlugin))
                          (resolvedOptions lenientPlugin) (js "/app")))) 1
     = Some (ConsoleError (ANSI_red ++ (ANSI_bold ++ js "  2 error(s) found."
                                        ++ ANSI_reset) ++ ANSI_reset))).
Proof.
  split.
  - intros fs errorMap forbidden options cwd. split.
    + apply printErrorReport_count.
    + apply printErrorReport_console.
  - repeat split; vm_compute; reflexivity.
Qed.

(** ** Orchestration *)

(** C2.  With failOnError set and a positive count returned by the
    reporter, the callback throws after the whole report, which ends with
    the summary line, has been written, and the message of the failure is
    the plugin tag followed by the count and the text forbidden import(s)
    detected. See the error report above for details.  With failOnError
    unset the callback never throws. *)
Theorem abort_after_report :
  forall plugin fs cwd modules,
    (failOnError (resolvedOptions plugin) = true ->
     0 < snd (printErrorReport fs
                (scanModules (exclude (resolvedOptions plugin))
                             (forbiddenPatterns plugin) modules)
                (forbiddenImports (resolvedOptions plugin))
                (resolvedOptions plugin) cwd) ->
     exists report before,
       report = printErrorReport fs
                  (scanModules (exclude (resolvedOptions plugin))
                               (forbiddenPatterns plugin) modules)
                  (forbiddenImports (resolvedOptions plugin))
                  (resolvedOptions plugin) cwd /\
       finishModules plugin fs cwd modules
       = (fst report,
          Throw (js "[plugin-block-imports] " ++ ofNat (snd report)
                 ++ js " forbidden import(s) detected. See the error report above for details.")) /\
       fst report
       = before
         ++ [ ConsoleError
                (red (createColorizer (colors (resolvedOptions plugin)))
                   (bold (createColorizer (colors (resolvedOptions plugin)))
                      (js "  " ++ ofNat (snd report)
                       ++ js " error(s) found. Build failed.")));
              ConsoleError [] ]) /\
    (failOnError (resolvedOptions plugin) = false ->
     snd (finishModules plugin fs cwd modules) = Ok tt).
Proof.
  intros plugin fs cwd modules. split.
  - intros Hfail Hpos.
    set (finding := scanModules (exclude (resolvedOptions plugin))
                                (forbiddenPatterns plugin) modules) in *.
    set (report := printErrorReport fs finding (forbiddenImports (resolvedOptions plugin))
                                    (resolvedOptions plugin) cwd) in *.
    destruct (printErrorReport_console fs finding
                (forbiddenImports (resolvedOptions plugin)) (resolvedOptions plugin) cwd)
      as [header [alts Hcons]].
    fold report in Hcons. rewrite Hfail in Hcons.
    exists report, (header
                    ++ flat_map (fileBlock (createColorizer (colors (resolvedOptions plugin)))
                                           fs cwd) finding
                    ++ alts).
    split; [reflexivity|]. split.
    + unfold finishModules. fold finding. fold report.
      assert (Hne : (0 <? List.length finding) = true).
      { destruct finding as [|e f] eqn:E; [|reflexivity].
        unfold report in Hpos. rewrite printErrorReport_count in Hpos.
        rewrite totalOccurrences_empty in Hpos. lia. }
      rewrite Hne, Hfail. apply Nat.ltb_lt in Hpos. rewrite Hpos. simpl.
      unfold abortMessage. reflexivity.
    + rewrite Hcons. repeat rewrite <- app_assoc. reflexivity.
  - intro Hfail. unfold finishModules. rewrite Hfail. simpl.
    destruct (0 <? List.length _); reflexivity.
Qed.

Lemma abort_after_report_witness :
  (exists report before,
     report = printErrorReport (oneFile pagePath pageText)
                (scanModules (exclude (resolvedOptions heroPlugin))
                             (forbiddenPatterns heroPlugin) pageModules)
                (forbiddenImports (resolvedOptions heroPlugin))
                (resolvedOptions heroPlugin) (js "/app") /\
     finishModules heroPlugin (oneFile pagePath pageText) (js "/app") pageModules
     = (fst report,
        Throw (js "[plugin-block-imports] " ++ ofNat (snd report)
               ++ js " forbidden import(s) detected. See the error report above for details.")) /\
     fst report
     = before
       ++ [ ConsoleError
              (red (createColorizer (colors (resolvedOptions heroPlugin)))
                 (bold (createColorizer (colors (resolvedOptions heroPlugin)))
                    (js "  " ++ ofNat (snd report)
                     ++ js " error(s) found. Build failed.")));
            ConsoleError [] ]) /\
  snd (finishModules lenientPlugin (oneFile pagePath pageText) (js "/app") pageModules)
  = Ok tt.
Proof.
  split.
  - apply (proj1 (@abort_after_report heroPlugin (oneFile pagePath pageText)
                    (js "/app") pageModules)).
    + reflexivity.
    + apply Nat.ltb_lt. vm_compute. reflexivity.
  - apply (proj2 (@abort_after_report lenientPlugin (oneFile pagePath pageText)
                    (js "/app") pageModules)).
    reflexivity.
Defined.

(** C8.  An input on which scanner and locator disagree: the registered
    pattern is next/router, the only forbidden request of the module is
    next/routerx and the file, which is readable, imports exactly that.
    The prefix test puts the file in the finding; none of the three forms
    matches on any line, so the locator returns no occurrence, the
    reporter writes the ten lines of header and summary and returns 0,
    and the callback returns normally although failOnError is set and the
    finding is not empty. *)
Theorem scanner_and_locator_disagree :
  pluginBlockImports routerOptions = Ok routerPlugin /\
  failOnError (resolvedOptions routerPlugin) = true /\
  startsWith (js "next/routerx") (js "next/router") = true /\
  scanModules (exclude (resolvedOptions routerPlugin))
              (forbiddenPatterns routerPlugin) routerModules
    = [(routerPath, [js "next/router"])] /\
  Forall (fun lineText =>
            Forall (fun form => matchIndex lineText form = None)
                   (formsOf (js "next/router")))
         (splitLines routerText) /\
  findImportLocations (oneFile routerPath routerText) routerPath [js "next/router"]
    = ([], []) /\
  snd (printErrorReport (oneFile routerPath routerText)
         [(routerPath, [js "next/router"])]
         (forbiddenImports (resolvedOptions routerPlugin))
         (resolvedOptions routerPlugin) (js "/app")) = 0 /\
  List.length (fst (finishModules routerPlugin (oneFile routerPath routerText)
                      (js "/app") routerModules)) = 10 /\
  snd (finishModules routerPlugin (oneFile routerPath routerText) (js "/app")
         routerModules) = Ok tt.
Proof.
  repeat split; try (vm_compute; reflexivity).
  - assert (G : forallb (fun lineText =>
                           forallb (fun form =>
                                      match matchIndex lineText form with
                                      | None => true
                                      | Some _ => false
                                      end)
                                   (formsOf (js "next/router")))
                        (splitLines routerText) = true)
      by (vm_compute; reflexivity).
    rewrite forallb_forall in G. apply Forall_forall. intros lineText Hl.
    specialize (G lineText Hl). rewrite forallb_forall in G.
    apply Forall_forall. intros form Hf. specialize (G form Hf).
    now destruct (matchIndex lineText form).
Qed.

(** ** Colors *)

Lemma escFree_nil : escFree [].
Proof. intros []. Qed.

Lemma escFree_app : forall a b, escFree a -> escFree b -> escFree (a ++ b).
Proof.
  intros a b Ha Hb H. apply in_app_or in H. destruct H; auto.
Qed.

Lemma escFree_cons : forall c s, c <> ESC -> escFree s -> escFree (c :: s).
Proof. intros c s Hc Hs [H | H]; [now apply Hc | now apply Hs]. Qed.

Lemma escFree_lit : forall s,
  forallb (fun c => negb (N.eqb c ESC)) s = true -> escFree s.
Proof.
  intros s H Hin. rewrite forallb_forall in H. apply H in Hin.
  rewrite N.eqb_refl in Hin. discriminate.
Qed.

Lemma escFree_ofNat : forall n, escFree (ofNat n).
Proof.
  intros n H. apply ofNat_digits in H. unfold ESC in H. lia.
Qed.

Lemma escFree_trim : forall s, escFree s -> escFree (trim s).
Proof. intros s H Hin. apply H. now apply in_trim. Qed.

Lemma escFree_removeFirst : forall s pat, escFree s -> escFree (removeFirst s pat).
Proof. intros s pat H Hin. apply H. now apply in_removeFirst in Hin. Qed.

Lemma escFree_spaces : forall n, escFree (repeat 32%N n).
Proof. intros n Hin. apply repeat_spec in Hin. discriminate. Qed.

Lemma escFree_padEnd : forall s n, escFree s -> escFree (padEnd s n).
Proof.
  intros s n H. unfold padEnd. apply escFree_app; [assumption | apply escFree_spaces].
Qed.

Lemma escFree_line : forall content l,
  escFree content -> In l (splitLines content) -> escFree l.
Proof. intros content l H Hl Hin. apply H. eapply in_splitLines; eassumption. Qed.

Create HintDb esc.

#[local] Hint Resolve escFree_nil escFree_app escFree_ofNat escFree_trim
  escFree_removeFirst escFree_padEnd escFree_spaces : esc.

Ltac esc_lit := apply escFree_lit; reflexivity.

Ltac esc_free :=
  repeat first
    [ apply escFree_nil
    | apply escFree_cons; [vm_compute; discriminate |]
    | apply escFree_app ];
  auto with esc; try esc_lit.

Lemma quiet_consoleError : forall t st,
  escFree t -> quiet st -> quiet (consoleError t st).
Proof.
  intros t st Ht [Hc Hf]. split; simpl; [|assumption].
  apply Forall_app. split; [assumption | repeat constructor; assumption].
Qed.

Lemma quiet_printHeader : forall options st,
  escFree (errorHeader options) -> quiet st ->
  quiet (printHeader (createColorizer false) options st).
Proof.
  intros options st Hh Hq. unfold printHeader. simpl.
  repeat (apply quiet_consoleError; [esc_free|]). assumption.
Qed.

Lemma quiet_reportOccurrence : forall rp err st,
  escFree rp -> escFree (importName err) -> escFree (lineContent err) ->
  quiet st -> quiet (reportOccurrence (createColorizer false) rp err st).
Proof.
  intros rp err st Hrp Hn Hl Hq. unfold reportOccurrence. simpl.
  assert (Hq1 : quiet (addFound (importName err) st)).
  { destruct Hq as [Hc Hf]. split; simpl; [assumption|].
    apply Forall_forall. intros x Hx. apply in_setAdd in Hx.
    destruct Hx as [-> | Hx]; [assumption|].
    now apply (proj1 (Forall_forall _ _) Hf). }
  assert (Hincr : forall s, quiet s -> quiet (incrCount s)) by (intros s [A B]; now split).
  apply Hincr. apply quiet_consoleError; [esc_free|].
  destruct (truthy (lineContent err)).
  - repeat (apply quiet_consoleError; [destruct (0 <? line err); esc_free|]). assumption.
  - repeat (apply quiet_consoleError; [destruct (0 <? line err); esc_free|]). assumption.
Qed.

Lemma located_escFree : forall (fs : FileSystem) path imports,
  (forall content, fs path = Some content -> escFree content) ->
  escFree path -> Forall escFree imports ->
  Forall (fun ev => escFree (eventText ev)) (fst (findImportLocations fs path imports)) /\
  Forall (fun o => escFree (importName o) /\ escFree (lineContent o))
         (snd (findImportLocations fs path imports)).
Proof.
  intros fs path imports Hfs Hpath Himports.
  destruct (fs path) as [content|] eqn:Hread.
  - rewrite (findImportLocations_readable _ _ _ Hread). simpl. split; [constructor|].
    apply Forall_forall. intros o Ho. apply in_occurrencesIn in Ho.
    destruct Ho as [l [i [p [c [Hl [Hp [_ ->]]]]]]]. simpl. split.
    + now apply (proj1 (Forall_forall _ _) Himports).
    + apply escFree_trim. apply (@escFree_line content l (Hfs content eq_refl)).
      now apply (nth_error_In _ _ Hl).
  - unfold findImportLocations, locateTry. rewrite Hread. simpl. split.
    + repeat constructor. simpl. esc_free.
    + apply Forall_forall. intros o Ho. apply in_map_iff in Ho.
      destruct Ho as [p [<- Hp]]. simpl. split; [|apply escFree_nil].
      now apply (proj1 (Forall_forall _ _) Himports).
Qed.

Lemma quiet_reportFile : forall (fs : FileSystem) cwd st entry,
  (forall content, fs (fst entry) = Some content -> escFree content) ->
  escFree (fst entry) -> Forall escFree (snd entry) ->
  quiet st -> quiet (reportFile (createColorizer false) fs cwd st entry).
Proof.
  intros fs cwd st entry Hfs Hpath Himports Hq. unfold reportFile.
  destruct (@located_escFree fs (fst entry) (snd entry) Hfs Hpath Himports) as [Hw Ho].
  assert (Hq0 : quiet (consoleEvents (fst (findImportLocations fs (fst entry) (snd entry))) st)).
  { destruct Hq as [Hc Hf]. split; simpl; [|assumption].
    apply Forall_app. now split. }
  revert Hq0. generalize (consoleEvents (fst (findImportLocations fs (fst entry) (snd entry))) st).
  induction Ho as [|o errs [Hn Hl] _ IH]; intros s Hs; simpl; [assumption|].
  apply IH. apply quiet_reportOccurrence; auto with esc.
Qed.

Lemma alternativesOf_origin : forall forbidden imp alt,
  mapGet imp (alternativesOf forbidden) = Some alt ->
  exists f, In f forbidden /\ alternative f = alt.
Proof.
  intros forbidden imp alt. unfold alternativesOf.
  assert (G : forall m,
            mapGet imp (fold_left (fun m f => mapSet (pattern f) (alternative f) m)
                                  forbidden m) = Some alt ->
            mapGet imp m = Some alt \/ exists f, In f forbidden /\ alternative f = alt).
  { induction forbidden as [|f forbidden IH]; intros m H; simpl in *; [now left|].
    apply IH in H. destruct H as [H | [f' [Hin Ha]]].
    - destruct (list_eq_dec N.eq_dec imp (pattern f)) as [->|Hne].
      + rewrite mapGet_mapSet_same in H. injection H as <-. right. exists f. auto.
      + rewrite mapGet_mapSet_other in H by assumption. now left.
    - right. exists f'. auto. }
  intro H. apply G in H. destruct H as [H | H]; [discriminate | assumption].
Qed.

Lemma quiet_printAlternatives : forall forbidden st,
  (forall f, In f forbidden -> escFree (alternative f)) ->
  quiet st ->
  quiet (printAlternatives (createColorizer false) (alternativesOf forbidden) st).
Proof.
  intros forbidden st Halt Hq. unfold printAlternatives.
  destruct (0 <? List.length (foundImports st)); [|assumption].
  simpl. apply quiet_consoleError; [esc_free|].
  assert (Hq1 : quiet (consoleError (js "  Suggested alternatives:") st))
    by (apply quiet_consoleError; [esc_free | assumption]).
  assert (Himps : Forall escFree (foundImports st)) by apply Hq.
  revert Hq1. generalize (consoleError (js "  Suggested alternatives:") st).
  induction Himps as [|imp imps Himp _ IH]; intros s Hs; simpl; [assumption|].
  apply IH. unfold reportAlternative.
  destruct (mapGet imp (alternativesOf forbidden)) as [alt|] eqn:E; [|assumption].
  destruct (truthy alt); [|assumption].
  apply alternativesOf_origin in E. destruct E as [f [Hf <-]].
  simpl. apply quiet_consoleError; [|assumption].
  pose proof (Halt f Hf). esc_free.
Qed.

Lemma quiet_reportFiles : forall (fs : FileSystem) cwd errorMap st,
  (forall path content, fs path = Some content -> escFree content) ->
  (forall entry, In entry errorMap ->
                 escFree (fst entry) /\ Forall escFree (snd entry)) ->
  quiet st -> quiet (reportFiles (createColorizer false) fs cwd errorMap st).
Proof.
  intros fs cwd. unfold reportFiles.
  induction errorMap as [|entry errorMap IH]; intros st Hfs Hmap Hq; simpl; [assumption|].
  apply IH; [assumption | intros e He; apply Hmap; now right |].
  destruct (Hmap entry (or_introl eq_refl)) as [Hp Hi].
  apply quiet_reportFile; auto. intros content. apply Hfs.
Qed.

Lemma quiet_printSummary : forall options st,
  quiet st -> quiet (printSummary (createColorizer false) options st).
Proof.
  intros options st Hq. unfold printSummary, summaryLine. simpl.
  repeat (apply quiet_consoleError; [destruct (failOnError options); esc_free|]).
  assumption.
Qed.

(** With colors off the whole report is free of escape characters as
    soon as its inputs are. *)
Lemma plain_report_escFree : forall (fs : FileSystem) errorMap forbidden options cwd,
  colors options = false ->
  escFree (errorHeader options) ->
  (forall path content, fs path = Some content -> escFree content) ->
  (forall entry, In entry errorMap ->
                 escFree (fst entry) /\ Forall escFree (snd entry)) ->
  (forall f, In f forbidden -> escFree (alternative f)) ->
  Forall (fun ev => escFree (eventText ev))
         (fst (printErrorReport fs errorMap forbidden options cwd)).
Proof.
  intros fs errorMap forbidden options cwd Hcol Hhead Hfs Hmap Halt.
  unfold printErrorReport. rewrite Hcol. simpl fst.
  apply quiet_printSummary. apply quiet_printAlternatives; [assumption|].
  apply quiet_reportFiles; [assumption | assumption |].
  apply quiet_printHeader; [assumption|]. split; constructor.
Qed.

(** C9.  With colors off, red, yellow, cyan, gray and bold return their
    argument unchanged, and a report whose inputs hold no escape character
    holds none either; with colors on, each of the five functions returns
    its argument between its own color code and the reset code. *)
Theorem colorizer_identity_or_wrapped :
  (forall s,
     red (createColorizer false) s = s /\
     yellow (createColorizer false) s = s /\
     cyan (createColorizer false) s = s /\
     gray (createColorizer false) s = s /\
     bold (createColorizer false) s = s) /\
  (forall s,
     red (createColorizer true) s = (ESC :: js "[31m") ++ s ++ (ESC :: js "[0m") /\
     yellow (createColorizer true) s = (ESC :: js "[33m") ++ s ++ (ESC :: js "[0m") /\
     cyan (createColorizer true) s = (ESC :: js "[36m") ++ s ++ (ESC :: js "[0m") /\
     gray (createColorizer true) s = (ESC :: js "[90m") ++ s ++ (ESC :: js "[0m") /\
     bold (createColorizer true) s = (ESC :: js "[1m") ++ s ++ (ESC :: js "[0m")) /\
  (forall (fs : FileSystem) errorMap forbidden options cwd,
     colors options = false ->
     escFree (errorHeader options) ->
     (forall path content, fs path = Some content -> escFree content) ->
     (forall entry, In entry errorMap ->
                    escFree (fst entry) /\ Forall escFree (snd entry)) ->
     (forall f, In f forbidden -> escFree (alternative f)) ->
     Forall (fun ev => escFree (eventText ev))
            (fst (printErrorReport fs errorMap forbidden options cwd))).
Proof.
  split; [|split].
  - intro s. repeat split.
  - intro s. repeat split.
  - apply plain_report_escFree.
Qed.

Lemma colorizer_identity_or_wrapped_witness :
  Forall (fun ev => escFree (eventText ev))
         (fst (printErrorReport (oneFile pagePath pageText)
                 [(pagePath, [js "next/image"; js "next-intl"])]
                 (forbiddenImports (resolvedOptions plainPlugin))
                 (resolvedOptions plainPlugin) (js "/app"))).
Proof.
  apply (proj2 (proj2 colorizer_identity_or_wrapped)).
  - reflexivity.
  - apply escFree_lit. reflexivity.
  - intros path content. unfold oneFile.
    destruct (str_eqb path pagePath); [|discriminate].
    intro H. injection H as <-. apply escFree_lit. reflexivity.
  - intros entry [<- | []]. split.
    + apply escFree_lit. reflexivity.
    + repeat constructor; apply escFree_lit; reflexivity.
  - intros f Hf. apply escFree_lit.
    assert (G : forallb (fun f => forallb (fun c => negb (N.eqb c ESC)) (alternative f))
                        (forbiddenImports (resolvedOptions plainPlugin)) = true)
      by reflexivity.
    rewrite forallb_forall in G. now apply G.
Defined.

(* ================================================================== *)
(** * Further properties of the code *)
(* ================================================================== *)

(** ** Exclusion *)

Lemma excludedBy_iff : forall path rules,
  excludedBy path rules = true <->
  exists rule, In rule rules /\
               match rule with
               | ExcludeString s => includes path s = true
               | ExcludeRegExp test => test path = true
               end.
Proof.
  intros path. induction rules as [|rule rules IH]; simpl.
  - split; [discriminate | intros [rule [[] _]]].
  - destruct rule as [s|test].
    + destruct (includes path s) eqn:E.
      * split; [|reflexivity]. intros _. exists (ExcludeString s). auto.
      * rewrite IH. split.
        -- intros [rule [Hin H]]. exists rule. auto.
        -- intros [rule [[<- | Hin] H]]; [congruence | now exists rule].
    + destruct (test path) eqn:E.
      * split; [|reflexivity]. intros _. exists (ExcludeRegExp test). auto.
      * rewrite IH. split.
        -- intros [rule [Hin H]]. exists rule. auto.
        -- intros [rule [[<- | Hin] H]]; [congruence | now exists rule].
Qed.

(** X1.  A path is excluded exactly when it contains node_modules, or
    some string of the exclusion list occurs in it, or some expression of
    the list tests true on it. *)
Theorem shouldExclude_iff : forall path rules,
  shouldExclude path rules = true <->
  (exists pre post, path = pre ++ js "node_modules" ++ post) \/
  (exists s pre post, In (ExcludeString s) rules /\ path = pre ++ s ++ post) \/
  (exists test, In (ExcludeRegExp test) rules /\ test path = true).
Proof.
  intros path rules. unfold shouldExclude.
  destruct (includes path (js "node_modules")) eqn:E.
  - split; [|reflexivity]. intros _. left. now apply includes_spec.
  - rewrite excludedBy_iff. split.
    + intros [[s|test] [Hin H]].
      * right. left. apply includes_spec in H. destruct H as [pre [post H]].
        now exists s, pre, post.
      * right. right. now exists test.
    + intros [H | [[s [pre [post [Hin H]]]] | [test [Hin H]]]].
      * apply includes_spec in H. congruence.
      * exists (ExcludeString s). split; [assumption|]. apply includes_spec.
        now exists pre, post.
      * now exists (ExcludeRegExp test).
Qed.

(** ** The finding as a map *)

Lemma keys_mapSet : forall (V : Type) k (v : V) m,
  List.map fst (mapSet k v m)
  = if mapHas k m then List.map fst m else List.map fst m ++ [k].
Proof.
  intros V k v. unfold mapHas. induction m as [|[k' v'] m IH]; simpl; [reflexivity|].
  destruct (str_eqb k k') eqn:E; simpl; [reflexivity|].
  rewrite IH. now destruct (mapGet k m).
Qed.

Lemma mapGet_in_keys : forall (V : Type) k (v : V) m,
  mapGet k m = Some v -> In k (List.map fst m).
Proof.
  intros V k v. induction m as [|[k' v'] m IH]; simpl; [discriminate|].
  destruct (str_eqb k k') eqn:E.
  - apply str_eqb_eq in E. auto.
  - intro H. right. auto.
Qed.

Lemma mapGet_None_keys : forall (V : Type) k (m : list (jsstring * V)),
  mapGet k m = None -> ~ In k (List.map fst m).
Proof.
  intros V k. induction m as [|[k' v'] m IH]; simpl; [tauto|].
  destruct (str_eqb k k') eqn:E; [discriminate|].
  intros H [Hk | Hin]; [|now apply IH].
  apply str_eqb_neq in E. congruence.
Qed.

Lemma mapGet_of_in : forall (V : Type) k (v : V) m,
  NoDup (List.map fst m) -> In (k, v) m -> mapGet k m = Some v.
Proof.
  intros V k v. induction m as [|[k' v'] m IH]; simpl; intros Hnd Hin; [contradiction|].
  inversion Hnd as [|? ? Hnot Hnd']; subst.
  destruct Hin as [E | Hin].
  - injection E as -> ->. now rewrite str_eqb_refl.
  - destruct (str_eqb k k') eqn:E.
    + apply str_eqb_eq in E. subst k'. exfalso. apply Hnot.
      change k with (fst (k, v)). now apply in_map.
    + auto.
Qed.

Lemma keys_recordMatch_NoDup : forall path p m,
  NoDup (List.map fst m) -> NoDup (List.map fst (recordMatch path p m)).
Proof.
  intros path p m Hnd. unfold recordMatch.
  assert (Hnd1 : NoDup (List.map fst (if mapHas path m then m else mapSet path [] m))).
  { destruct (mapHas path m) eqn:E; [assumption|].
    rewrite keys_mapSet, E. apply NoDup_app; [assumption | repeat constructor; auto |].
    intros k Hk [Ek | []]. subst k. unfold mapHas in E.
    destruct (mapGet path m) eqn:G; [discriminate|].
    now apply (mapGet_None_keys _ _ G). }
  set (m1 := if mapHas path m then m else mapSet path [] m) in *.
  destruct (mapGet path m1) as [matched|] eqn:G; [|assumption].
  rewrite keys_mapSet. unfold mapHas. now rewrite G.
Qed.

Lemma keys_fold_recordHit_NoDup : forall hits m,
  NoDup (List.map fst m) -> NoDup (List.map fst (fold_left recordHit hits m)).
Proof.
  induction hits as [|hit hits IH]; intros m H; simpl; [assumption|].
  apply IH. now apply keys_recordMatch_NoDup.
Qed.

(** X2.  A file is a key of the finding at most once, and its matched set
    is never empty and holds no pattern twice. *)
Theorem finding_keys_distinct : forall excludeRules patterns modules,
  NoDup (List.map fst (scanModules excludeRules patterns modules)) /\
  Forall (fun entry => snd entry <> [] /\ NoDup (snd entry))
         (scanModules excludeRules patterns modules).
Proof.
  intros excludeRules patterns modules.
  assert (Hnd : NoDup (List.map fst (scanModules excludeRules patterns modules))).
  { rewrite scanModules_hits. apply keys_fold_recordHit_NoDup. constructor. }
  split; [assumption|].
  apply Forall_forall. intros [path matched] Hin. simpl.
  apply (scanModules_wellFormed excludeRules patterns modules path).
  now apply mapGet_of_in.
Qed.

(** X3.  Nothing is recorded without a cause: a pattern in the matched set
    of a file is a registered pattern, the file is the resource of a
    scanned module that is not excluded, and that module has a dependency
    whose request starts with the pattern and with no pattern registered
    before it. *)
Theorem scanner_records_only_matches :
  forall options plugin modules path matched p,
    pluginBlockImports options = Ok plugin ->
    mapGet path (scanModules (exclude (resolvedOptions plugin))
                             (forbiddenPatterns plugin) modules) = Some matched ->
    In p matched ->
    In p (List.map pattern (forbiddenImports (resolvedOptions plugin))) /\
    truthy path = true /\
    shouldExclude path (exclude (resolvedOptions plugin)) = false /\
    exists module dep pre post,
      In module modules /\ resource module = Some path /\
      In dep (orDefault (dependencies module) []) /\
      startsWith (requestOf dep) p = true /\
      List.map pattern (forbiddenImports (resolvedOptions plugin)) = pre ++ p :: post /\
      Forall (fun q => startsWith (requestOf dep) q = false) pre.
Proof.
  intros options plugin modules path matched p Hsetup Hget Hin.
  destruct (plugin_patterns _ Hsetup) as [Hpats _].
  assert (Hrec : recorded path p (scanModules (exclude (resolvedOptions plugin))
                                              (forbiddenPatterns plugin) modules))
    by now exists matched.
  apply scanModules_recorded in Hrec.
  destruct Hrec as [module [dep [Hm [Hres [Ht [Hx [Hdep F]]]]]]].
  rewrite Hpats, findForbidden_setOfArray in F.
  pose proof (findForbidden_in _ _ F) as [Hreg Hstart].
  apply findForbidden_Some in F. destruct F as [pre [post [Ereg [_ Hpre]]]].
  repeat split; auto. now exists module, dep, pre, post.
Qed.

Lemma scanner_records_only_matches_witness :
  In (js "next/image")
     (List.map pattern (forbiddenImports (resolvedOptions heroPlugin))) /\
  truthy heroPath = true /\
  shouldExclude heroPath (exclude (resolvedOptions heroPlugin)) = false /\
  exists module dep pre post,
    In module heroModules /\ resource module = Some heroPath /\
    In dep (orDefault (dependencies module) []) /\
    startsWith (requestOf dep) (js "next/image") = true /\
    List.map pattern (forbiddenImports (resolvedOptions heroPlugin))
      = pre ++ js "next/image" :: post /\
    Forall (fun q => startsWith (requestOf dep) q = false) pre.
Proof.
  apply (@scanner_records_only_matches heroOptions heroPlugin heroModules heroPath
           [js "next/image"] (js "next/image")).
  - reflexivity.
  - vm_compute. reflexivity.
  - left. reflexivity.
Defined.






(** X5.  The lookup set built at setup holds every registered pattern
    once; a pattern registered twice keeps the place of its first rule, so
    the first match of a request is the same in the set as in the list of
    rules. *)
Theorem lookup_set_of_patterns : forall options plugin,
  pluginBlockImports options = Ok plugin ->
  NoDup (forbiddenPatterns plugin) /\
  (forall p, In p (forbiddenPatterns plugin) <->
             exists rule, In rule (forbiddenImports (resolvedOptions plugin)) /\
                          pattern rule = p) /\
  (forall r, findForbidden r (forbiddenPatterns plugin)
             = findForbidden r (List.map pattern (forbiddenImports (resolvedOptions plugin)))).
Proof.
  intros options plugin Hsetup. destruct (plugin_patterns _ Hsetup) as [Hpats _].
  rewrite Hpats. repeat split.
  - apply NoDup_setOfArray.
  - intro H. apply (proj1 (in_setOfArray _ _)) in H. apply in_map_iff in H.
    destruct H as [rule [E Hin]]. now exists rule.
  - intros [rule [Hin E]]. apply in_setOfArray. apply in_map_iff. now exists rule.
  - intro r. apply findForbidden_setOfArray.
Qed.

Lemma lookup_set_of_patterns_witness :
  NoDup (forbiddenPatterns twicePlugin) /\
  (forall p, In p (forbiddenPatterns twicePlugin) <->
             exists rule, In rule (forbiddenImports (resolvedOptions twicePlugin)) /\
                          pattern rule = p) /\
  (forall r, findForbidden r (forbiddenPatterns twicePlugin)
             = findForbidden r (List.map pattern
                                  (forbiddenImports (resolvedOptions twicePlugin)))).
Proof.
  apply (@lookup_set_of_patterns twiceOptions twicePlugin). reflexivity.
Defined.

(** ** The callback as a whole *)

Lemma mapGet_all_None : forall (V : Type) (m : list (jsstring * V)),
  (forall k, mapGet k m = None) -> m = [].
Proof.
  intros V [|[k v] m] H; [reflexivity|].
  specialize (H k). simpl in H. rewrite str_eqb_refl in H. discriminate.
Qed.

Lemma scanModules_empty_iff : forall excludeRules patterns modules,
  scanModules excludeRules patterns modules = [] <->
  forall module dep path,
    In module modules -> resource module = Some path -> truthy path = true ->
    shouldExclude path excludeRules = false ->
    In dep (orDefault (dependencies module) []) ->
    findForbidden (requestOf dep) patterns = None.
Proof.
  intros excludeRules patterns modules. split.
  - intros Hnil module dep path Hm Hres Ht Hx Hdep.
    destruct (findForbidden (requestOf dep) patterns) as [p|] eqn:F; [|reflexivity].
    exfalso.
    assert (Habs : mapGet path (scanModules excludeRules patterns modules) = None)
      by now rewrite Hnil.
    apply (proj1 (scanModules_absent _ _ _ _) Habs p).
    exists module, dep. auto 10.
  - intro H. apply mapGet_all_None. intro path. apply scanModules_absent.
    intros p [module [dep [Hm [Hres [Ht [Hx [Hdep F]]]]]]].
    rewrite (H module dep path Hm Hres Ht Hx Hdep) in F. discriminate.
Qed.

Lemma printErrorReport_nonempty : forall fs errorMap forbidden options cwd,
  fst (printErrorReport fs errorMap forbidden options cwd) <> [].
Proof.
  intros fs errorMap forbidden options cwd.
  destruct (printErrorReport_console fs errorMap forbidden options cwd)
    as [header [alts H]].
  rewrite H. intro E.
  apply app_eq_nil in E. destruct E as [_ E].
  apply app_eq_nil in E. destruct E as [_ E].
  apply app_eq_nil in E. destruct E as [_ E]. discriminate.
Qed.

(** X6.  The callback writes nothing exactly when no request of a scanned
    module (one with a resource that is not excluded) starts with a
    registered pattern; and exactly then it writes nothing and returns
    normally whatever the file system and the working directory are. *)
Theorem silent_iff_nothing_matches : forall plugin fs cwd modules,
  (fst (finishModules plugin fs cwd modules) = [] <->
   forall module dep path,
     In module modules -> resource module = Some path -> truthy path = true ->
     shouldExclude path (exclude (resolvedOptions plugin)) = false ->
     In dep (orDefault (dependencies module) []) ->
     findForbidden (requestOf dep) (forbiddenPatterns plugin) = None) /\
  (fst (finishModules plugin fs cwd modules) = [] <->
   forall fs' cwd', finishModules plugin fs' cwd' modules = ([], Ok tt)).
Proof.
  intros plugin fs cwd modules.
  assert (Hkey : fst (finishModules plugin fs cwd modules) = [] <->
                 scanModules (exclude (resolvedOptions plugin))
                             (forbiddenPatterns plugin) modules = []).
  { unfold finishModules.
    destruct (scanModules (exclude (resolvedOptions plugin))
                          (forbiddenPatterns plugin) modules) as [|e m] eqn:E.
    - simpl. tauto.
    - change (0 <? List.length (e :: m)) with true. cbv iota.
      split; [|discriminate]. intro H. exfalso.
      destruct (failOnError (resolvedOptions plugin) && _);
        cbn [fst] in H; exact (printErrorReport_nonempty _ _ _ _ _ H). }
  split.
  - rewrite Hkey. apply scanModules_empty_iff.
  - split.
    + intros H fs' cwd'. apply Hkey in H. unfold finishModules. now rewrite H.
    + intro H. now rewrite (H fs cwd).
Qed.

Lemma abortMessage_injective : forall n m, abortMessage n = abortMessage m -> n = m.
Proof.
  intros n m H. unfold abortMessage in H.
  apply app_inv_head in H.
  assert (Hdig : forall k c, In c (ofNat k) -> c <> 32%N).
  { intros k c Hc. apply ofNat_digits in Hc. lia. }
  assert (G : forall a b t, (forall c, In c a -> c <> 32%N) ->
                            (forall c, In c b -> c <> 32%N) ->
                            a ++ 32%N :: t = b ++ 32%N :: t -> a = b).
  { induction a as [|x a IH]; intros [|y b] t Ha Hb E; simpl in E.
    - reflexivity.
    - injection E as E _. exfalso. apply (Hb y); [now left | now symmetry].
    - injection E as E _. exfalso. apply (Ha x); [now left | assumption].
    - injection E as -> E. f_equal. apply (IH b t); auto.
      + intros c Hc. apply Ha. now right.
      + intros c Hc. apply Hb. now right. }
  assert (E : ofNat n = ofNat m).
  { apply (G _ _ (js "forbidden import(s) detected. "
                  ++ js "See the error report above for details."));
      [apply Hdig | apply Hdig | exact H]. }
  unfold ofNat, js in E.
  apply (f_equal (List.map ascii_of_N)) in E.
  rewrite !map_map in E.
  assert (Hid : forall l, List.map (fun a => ascii_of_N (N_of_ascii a)) l = l).
  { induction l as [|a l IH]; simpl; [reflexivity|]. now rewrite ascii_N_embedding, IH. }
  rewrite !Hid in E.
  apply (f_equal string_of_list_ascii) in E.
  rewrite !string_of_list_ascii_of_string in E.
  apply (f_equal NilEmpty.uint_of_string) in E.
  rewrite !NilEmpty.usu in E. injection E as E.
  apply (f_equal Nat.of_uint) in E. now rewrite !DecimalNat.Unsigned.of_to in E.
Qed.

(** What the callback returns, in terms of the finding alone. *)
Lemma finishModules_outcome : forall plugin fs cwd modules,
  snd (finishModules plugin fs cwd modules)
  = if failOnError (resolvedOptions plugin)
       && (0 <? totalOccurrences fs
                  (scanModules (exclude (resolvedOptions plugin))
                               (forbiddenPatterns plugin) modules))
    then Throw (abortMessage
                  (totalOccurrences fs
                     (scanModules (exclude (resolvedOptions plugin))
                                  (forbiddenPatterns plugin) modules)))
    else Ok tt.
Proof.
  intros plugin fs cwd modules. unfold finishModules.
  set (finding := scanModules (exclude (resolvedOptions plugin))
                              (forbiddenPatterns plugin) modules).
  destruct finding as [|e m] eqn:E.
  - simpl. rewrite totalOccurrences_empty. simpl. now rewrite andb_false_r.
  - change (0 <? List.length (e :: m)) with true. cbv iota.
    rewrite printErrorReport_count.
    destruct (failOnError (resolvedOptions plugin) && (0 <? totalOccurrences fs (e :: m)));
      reflexivity.
Qed.

(** X7.  The callback throws exactly when failOnError holds and the
    locator returned at least one occurrence over the files of the
    finding; the message then carries that number, and different numbers
    give different messages. *)
Theorem callback_throws_iff : forall plugin fs cwd modules message,
  (snd (finishModules plugin fs cwd modules) = Throw message <->
   failOnError (resolvedOptions plugin) = true /\
   0 < totalOccurrences fs (scanModules (exclude (resolvedOptions plugin))
                                        (forbiddenPatterns plugin) modules) /\
   message = js "[plugin-block-imports] "
             ++ ofNat (totalOccurrences fs
                         (scanModules (exclude (resolvedOptions plugin))
                                      (forbiddenPatterns plugin) modules))
             ++ js " forbidden import(s) detected. See the error report above for details.") /\
  (forall n m,
     js "[plugin-block-imports] " ++ ofNat n
     ++ js " forbidden import(s) detected. See the error report above for details."
     = js "[plugin-block-imports] " ++ ofNat m
       ++ js " forbidden import(s) detected. See the error report above for details." ->
     n = m).
Proof.
  intros plugin fs cwd modules message. split; [|apply abortMessage_injective].
  rewrite finishModules_outcome.
  destruct (failOnError (resolvedOptions plugin)); simpl.
  - destruct (0 <? totalOccurrences fs _) eqn:P.
    + apply Nat.ltb_lt in P. split.
      * intro H. injection H as <-. repeat split; auto.
      * intros [_ [_ ->]]. reflexivity.
    + apply Nat.ltb_ge in P. split; [discriminate|]. intros [_ [H _]]. lia.
  - split; [discriminate|]. intros [H _]. discriminate.
Qed.

Lemma plugin_resolved : forall options plugin,
  pluginBlockImports options = Ok plugin ->
  exclude (resolvedOptions plugin) = orDefault (opt_exclude options) [] /\
  failOnError (resolvedOptions plugin) = orDefault (opt_failOnError options) true /\
  errorHeader (resolvedOptions plugin)
    = orDefault (opt_errorHeader options) (js "MODULE FEDERATION BUILD ERROR") /\
  colors (resolvedOptions plugin) = orDefault (opt_colors options) true.
Proof.
  intros options plugin H. unfold pluginBlockImports in H.
  destruct (negb (valTruthy (opt_forbiddenImports options))
            || negb (isArray (opt_forbiddenImports options))); [discriminate|].
  injection H as <-. simpl. auto.
Qed.

(** X8.  What leaving options out means.  Without an exclusion list only
    paths that contain node_modules are excluded; unless failOnError is
    given as false, the callback returns normally exactly when the locator
    returned no occurrence. *)
Theorem omitted_options : forall options plugin,
  pluginBlockImports options = Ok plugin ->
  (opt_exclude options = None ->
   forall path,
     shouldExclude path (exclude (resolvedOptions plugin))
     = includes path (js "node_modules")) /\
  (opt_failOnError options <> Some false ->
   forall fs cwd modules,
     snd (finishModules plugin fs cwd modules) = Ok tt <->
     totalOccurrences fs (scanModules (exclude (resolvedOptions plugin))
                                      (forbiddenPatterns plugin) modules) = 0).
Proof.
  intros options plugin Hsetup.
  destruct (plugin_resolved _ Hsetup) as [Hex [Hfail _]]. split.
  - intros Hnone path. rewrite Hex, Hnone. simpl. unfold shouldExclude. simpl.
    now destruct (includes path (js "node_modules")).
  - intros Hne fs cwd modules. rewrite finishModules_outcome, Hfail.
    assert (Ht : orDefault (opt_failOnError options) true = true).
    { destruct (opt_failOnError options) as [[|]|]; simpl; congruence. }
    rewrite Ht. simpl.
    destruct (totalOccurrences fs _) as [|n]; simpl.
    + tauto.
    + split; [discriminate | intro H; discriminate].
Qed.

Lemma omitted_options_witness :
  (forall path,
     shouldExclude path (exclude (resolvedOptions heroPlugin))
     = includes path (js "node_modules")) /\
  (forall fs cwd modules,
     snd (finishModules heroPlugin fs cwd modules) = Ok tt <->
     totalOccurrences fs (scanModules (exclude (resolvedOptions heroPlugin))
                                      (forbiddenPatterns heroPlugin) modules) = 0).
Proof.
  split.
  - apply (proj1 (@omitted_options heroOptions heroPlugin eq_refl)). reflexivity.
  - apply (proj2 (@omitted_options heroOptions heroPlugin eq_refl)). discriminate.
Defined.

Lemma totalOccurrences_unreadable : forall (fs : FileSystem) errorMap,
  (forall entry, In entry errorMap -> fs (fst entry) = None) ->
  totalOccurrences fs errorMap
  = list_sum (List.map (fun entry => List.length (snd entry)) errorMap).
Proof.
  intros fs. unfold totalOccurrences.
  induction errorMap as [|entry errorMap IH]; intro H; simpl; [reflexivity|].
  rewrite IH by (intros e He; apply H; now right). f_equal.
  unfold findImportLocations, locateTry. rewrite (H entry (or_introl eq_refl)).
  simpl. apply length_map.
Qed.

(** X9.  Files that can no longer be read still fail the build: when
    failOnError holds, the finding is not empty and none of its files can
    be read, the callback throws, and the number in the message is the
    number of (file, pattern) pairs of the finding. *)
Theorem unreadable_files_still_fail : forall plugin (fs : FileSystem) cwd modules,
  failOnError (resolvedOptions plugin) = true ->
  scanModules (exclude (resolvedOptions plugin)) (forbiddenPatterns plugin) modules <> [] ->
  (forall entry,
     In entry (scanModules (exclude (resolvedOptions plugin))
                           (forbiddenPatterns plugin) modules) ->
     fs (fst entry) = None) ->
  exists n,
    n = list_sum (List.map (fun entry => List.length (snd entry))
                    (scanModules (exclude (resolvedOptions plugin))
                                 (forbiddenPatterns plugin) modules)) /\
    0 < n /\
    snd (finishModules plugin fs cwd modules)
    = Throw (js "[plugin-block-imports] " ++ ofNat n
             ++ js " forbidden import(s) detected. See the error report above for details.").
Proof.
  intros plugin fs cwd modules Hfail Hne Hfs.
  set (finding := scanModules (exclude (resolvedOptions plugin))
                              (forbiddenPatterns plugin) modules) in *.
  exists (list_sum (List.map (fun entry => List.length (snd entry)) finding)).
  assert (Hpos : 0 < list_sum (List.map (fun entry => List.length (snd entry)) finding)).
  { destruct finding as [|[path matched] m] eqn:E; [contradiction|].
    assert (Hget : mapGet path
                     (scanModules (exclude (resolvedOptions plugin))
                                  (forbiddenPatterns plugin) modules) = Some matched).
    { fold finding. rewrite E. simpl. now rewrite str_eqb_refl. }
    apply scanModules_wellFormed in Hget. destruct Hget as [Hm _].
    simpl. destruct matched; [contradiction | simpl; lia]. }
  repeat split; [assumption|].
  rewrite finishModules_outcome. fold finding.
  rewrite (totalOccurrences_unreadable fs finding Hfs), Hfail.
  apply Nat.ltb_lt in Hpos. rewrite Hpos. reflexivity.
Qed.

Lemma unreadable_files_still_fail_witness :
  exists n,
    n = list_sum (List.map (fun entry => List.length (snd entry))
                    (scanModules (exclude (resolvedOptions heroPlugin))
                                 (forbiddenPatterns heroPlugin) pageModules)) /\
    0 < n /\
    snd (finishModules heroPlugin noFiles (js "/app") pageModules)
    = Throw (js "[plugin-block-imports] " ++ ofNat n
             ++ js " forbidden import(s) detected. See the error report above for details.").
Proof.
  apply (@unreadable_files_still_fail heroPlugin noFiles (js "/app") pageModules).
  - reflexivity.
  - vm_compute. discriminate.
  - reflexivity.
Defined.

(** X10.  An empty string in the exclusion list switches the plugin off:
    it occurs in every path, so every module is skipped and the callback
    writes nothing and returns normally whatever the modules import. *)
Theorem empty_exclusion_excludes_all : forall plugin,
  In (ExcludeString []) (exclude (resolvedOptions plugin)) ->
  (forall path, shouldExclude path (exclude (resolvedOptions plugin)) = true) /\
  (forall fs cwd modules, finishModules plugin fs cwd modules = ([], Ok tt)).
Proof.
  intros plugin Hin.
  assert (Hx : forall path, shouldExclude path (exclude (resolvedOptions plugin)) = true).
  { intro path. unfold shouldExclude.
    destruct (includes path (js "node_modules")); [reflexivity|].
    apply excludedBy_iff. exists (ExcludeString []). split; [assumption|].
    apply includes_spec. now exists [], path. }
  split; [assumption|]. intros fs cwd modules. unfold finishModules.
  assert (E : scanModules (exclude (resolvedOptions plugin))
                          (forbiddenPatterns plugin) modules = []).
  { apply scanModules_empty_iff. intros module dep path _ _ _ Hno. rewrite Hx in Hno.
    discriminate. }
  now rewrite E.
Qed.

Lemma empty_exclusion_excludes_all_witness :
  (forall path, shouldExclude path (exclude (resolvedOptions mutePlugin)) = true) /\
  (forall fs cwd modules, finishModules mutePlugin fs cwd modules = ([], Ok tt)).
Proof.
  apply (@empty_exclusion_excludes_all mutePlugin). left. reflexivity.
Defined.

(** ** Locator: where and what it finds *)

Unset Implicit Arguments.

Lemma trimStart_head : forall s c t, trimStart s = c :: t -> isSpace c = false.
Proof.
  induction s as [|x s IH]; intros c t H; simpl in H; [discriminate|].
  destruct (isSpace x) eqn:E; [eauto|]. injection H as <- _. assumption.
Qed.

Lemma trimStart_nil : forall s,
  trimStart s = [] -> forall c, In c s -> isSpace c = true.
Proof.
  induction s as [|x s IH]; intros H c Hc; simpl in *; [contradiction|].
  destruct (isSpace x) eqn:E; [|discriminate].
  destruct Hc as [<- | Hc]; auto.
Qed.

Lemma trimStart_snoc : forall s c,
  isSpace c = false -> exists a, trimStart (s ++ [c]) = a ++ [c].
Proof.
  induction s as [|x s IH]; intros c Hc; simpl.
  - rewrite Hc. now exists [].
  - destruct (isSpace x); [now apply IH | now exists (x :: s)].
Qed.

Lemma trim_of_trimStart : forall s d u,
  trimStart s = d :: u -> exists a, trim s = d :: a.
Proof.
  intros s d u H. unfold trim, trimEnd. rewrite H. simpl rev.
  destruct (trimStart_snoc (rev u) d (trimStart_head _ _ _ H)) as [a Ha].
  rewrite Ha, rev_app_distr. simpl. now exists (rev a).
Qed.

Lemma trim_first : forall s c rest, trim s = c :: rest -> isSpace c = false.
Proof.
  intros s c rest H. destruct (trimStart s) as [|d u] eqn:E.
  - unfold trim, trimEnd in H. rewrite E in H. discriminate.
  - destruct (trim_of_trimStart _ _ _ E) as [a Ha]. rewrite Ha in H.
    injection H as <- _. now apply (trimStart_head _ _ _ E).
Qed.

Lemma trim_last : forall s init c, trim s = init ++ [c] -> isSpace c = false.
Proof.
  intros s init c H. unfold trim, trimEnd in H.
  apply (f_equal (@rev char)) in H. rewrite rev_involutive, rev_app_distr in H.
  simpl in H. now apply (trimStart_head _ _ _ H).
Qed.

Lemma trim_nonempty : forall s c, In c s -> isSpace c = false -> trim s <> [].
Proof.
  intros s c Hin Hc. destruct (trimStart s) as [|d u] eqn:E.
  - rewrite (trimStart_nil _ E c Hin) in Hc. discriminate.
  - destruct (trim_of_trimStart _ _ _ E) as [a Ha]. rewrite Ha. discriminate.
Qed.

Lemma splitLines_length : forall s,
  List.length (splitLines s) = S (count_occ N.eq_dec s 10%N).
Proof.
  induction s as [|c s IH]; simpl; [reflexivity|].
  destruct (N.eq_dec c 10) as [->|Hne].
  - simpl. now rewrite IH.
  - apply N.eqb_neq in Hne. rewrite Hne.
    destruct (splitLines s) eqn:E; simpl in *; [discriminate | assumption].
Qed.

Lemma splitLines_no_feed : forall s l, In l (splitLines s) -> ~ In 10%N l.
Proof.
  induction s as [|c s IH]; simpl; intros l Hl.
  - destruct Hl as [<- | []]. tauto.
  - destruct (N.eqb c 10) eqn:E.
    + destruct Hl as [<- | Hl]; [tauto | auto].
    + apply N.eqb_neq in E.
      destruct (splitLines s) as [|l0 ls] eqn:Es.
      * destruct Hl as [<- | []]. intros [H | []]. congruence.
      * destruct Hl as [<- | Hl].
        -- intros [H | H]; [congruence|]. apply (IH l0); simpl; auto.
        -- apply IH. simpl. auto.
Qed.

(** What a form accepts: a keyword that starts with a letter, then an
    opening quote, the pattern, an optional subpath and a closing quote. *)
Lemma form_match_shape : forall p r t,
  In r (formsOf p) -> matches r t ->
  exists k head q1 sub q2,
    t = (k :: head) ++ [q1] ++ p ++ sub ++ [q2] /\ isSpace k = false /\
    isQuote q1 = true /\ subpathOf sub /\ isQuote q2 = true.
Proof.
  intros p r t Hin M. destruct Hin as [<- | [<- | [<- | []]]].
  - apply matches_fromForm in M.
    destruct M as [ws [q1 [sub [q2 [-> [_ [_ [Hq1 [Hsub Hq2]]]]]]]]].
    exists 102%N, (js "rom" ++ ws), q1, sub, q2.
    repeat split; auto; simpl; repeat rewrite <- app_assoc; reflexivity.
  - apply matches_requireForm in M.
    destruct M as [ws1 [ws2 [q1 [sub [q2 [-> [_ [_ [Hq1 [Hsub Hq2]]]]]]]]]].
    exists 114%N, (js "equire" ++ ws1 ++ [40%N] ++ ws2), q1, sub, q2.
    repeat split; auto; simpl; repeat rewrite <- app_assoc; reflexivity.
  - apply matches_importForm in M.
    destruct M as [ws1 [ws2 [q1 [sub [q2 [-> [_ [_ [Hq1 [Hsub Hq2]]]]]]]]]].
    exists 105%N, (js "mport" ++ ws1 ++ [40%N] ++ ws2), q1, sub, q2.
    repeat split; auto; simpl; repeat rewrite <- app_assoc; reflexivity.
Qed.

Lemma located_shape : forall l p c,
  firstMatch l (formsOf p) = Some c ->
  c < List.length l /\
  exists k head q1 sub q2 post,
    l = firstn c l ++ (k :: head) ++ [q1] ++ p ++ sub ++ [q2] ++ post /\
    isSpace k = false /\ isQuote q1 = true /\ subpathOf sub /\ isQuote q2 = true.
Proof.
  intros l p c H. apply firstMatch_Some in H.
  destruct H as [before [r [after [Eforms [_ Hm]]]]].
  assert (Hin : In r (formsOf p)).
  { rewrite Eforms. apply in_app_iff. right. now left. }
  apply matchIndex_Some in Hm. destruct Hm as [_ [Hm _]].
  apply matchesAt_spec in Hm. destruct Hm as [s1 [s2 [Es M]]].
  destruct (form_match_shape _ _ _ Hin M) as [k [head [q1 [sub [q2 [-> [Hk [Hq1 [Hsub Hq2]]]]]]]]].
  split.
  - destruct (Nat.lt_ge_cases c (List.length l)) as [Hlt | Hge]; [assumption|].
    rewrite (skipn_all2 l Hge) in Es. discriminate.
  - exists k, head, q1, sub, q2, s2. repeat split; auto.
    rewrite <- (firstn_skipn c l) at 1. rewrite Es.
    repeat rewrite <- app_assoc. reflexivity.
Qed.

(** X11.  On a readable file every occurrence points inside the file: its
    line number is between 1 and the number of lines, which is one more
    than the number of line feeds of the text; its column is an index into
    that line; its text is the trimmed line, which is not empty and neither
    starts nor ends with white space; and its pattern is one that was
    asked for. *)
Theorem occurrences_point_into_the_file :
  forall (fs : FileSystem) filePath imports content,
    fs filePath = Some content ->
    Forall
      (fun o =>
         1 <= line o <= S (count_occ N.eq_dec content 10%N) /\
         In (importName o) imports /\
         exists l,
           nth_error (splitLines content) (line o - 1) = Some l /\
           ~ In 10%N l /\
           column o < List.length l /\
           lineContent o = trim l /\
           lineContent o <> [] /\
           (forall c rest, lineContent o = c :: rest -> isSpace c = false) /\
           (forall init c, lineContent o = init ++ [c] -> isSpace c = false))
      (snd (findImportLocations fs filePath imports)).
Proof.
  intros fs filePath imports content Hread.
  rewrite (findImportLocations_readable _ _ _ Hread). simpl.
  apply Forall_forall. intros o Ho. apply in_occurrencesIn in Ho.
  destruct Ho as [l [i [p [c [Hl [Hp [Hc ->]]]]]]]. simpl.
  destruct (located_shape _ _ _ Hc)
    as [Hlt [k [head [q1 [sub [q2 [post [El [Hk _]]]]]]]]].
  assert (Hi : i < List.length (splitLines content)).
  { apply nth_error_Some. congruence. }
  rewrite splitLines_length in Hi.
  repeat split; try lia; try assumption.
  exists l. replace (i + 1 - 1) with i by lia.
  repeat split; try assumption.
  - apply splitLines_no_feed with (s := content). now apply (nth_error_In _ _ Hl).
  - apply (trim_nonempty l k); [|assumption].
    rewrite El. apply in_app_iff. right. now left.
  - apply trim_first.
  - apply trim_last.
Qed.

Lemma occurrences_point_into_the_file_witness :
  Forall
    (fun o =>
       1 <= line o <= S (count_occ N.eq_dec mixedText 10%N) /\
       In (importName o) [js "next/link"; js "next/head"; js "next/dynamic"] /\
       exists l,
         nth_error (splitLines mixedText) (line o - 1) = Some l /\
         ~ In 10%N l /\
         column o < List.length l /\
         lineContent o = trim l /\
         lineContent o <> [] /\
         (forall c rest, lineContent o = c :: rest -> isSpace c = false) /\
         (forall init c, lineContent o = init ++ [c] -> isSpace c = false))
    (snd (findImportLocations mixedFs mixedPath
            [js "next/link"; js "next/head"; js "next/dynamic"])).
Proof.
  apply (@occurrences_point_into_the_file mixedFs mixedPath
           [js "next/link"; js "next/head"; js "next/dynamic"] mixedText).
  reflexivity.
Defined.

(** X12.  The pattern is searched as plain text: on a readable file the
    line of every occurrence holds, after the reported column, a quote
    followed by the pattern itself, character for character, then nothing
    or a slash and characters other than quotes, then a quote. *)
Theorem occurrences_quote_the_pattern :
  forall (fs : FileSystem) filePath imports content,
    fs filePath = Some content ->
    Forall
      (fun o =>
         exists l pre q1 sub q2 post,
           nth_error (splitLines content) (line o - 1) = Some l /\
           l = pre ++ [q1] ++ importName o ++ sub ++ [q2] ++ post /\
           column o < List.length pre /\
           isQuote q1 = true /\ isQuote q2 = true /\ subpathOf sub)
      (snd (findImportLocations fs filePath imports)).
Proof.
  intros fs filePath imports content Hread.
  rewrite (findImportLocations_readable _ _ _ Hread). simpl.
  apply Forall_forall. intros o Ho. apply in_occurrencesIn in Ho.
  destruct Ho as [l [i [p [c [Hl [Hp [Hc ->]]]]]]]. simpl.
  destruct (located_shape _ _ _ Hc)
    as [Hlt [k [head [q1 [sub [q2 [post [El [_ [Hq1 [Hsub Hq2]]]]]]]]]]].
  exists l, (firstn c l ++ k :: head), q1, sub, q2, post.
  replace (i + 1 - 1) with i by lia. repeat split; try assumption.
  - rewrite El at 1. repeat rewrite <- app_assoc. reflexivity.
  - rewrite length_app, length_firstn. simpl. lia.
Qed.

Lemma occurrences_quote_the_pattern_witness :
  Forall
    (fun o =>
       exists l pre q1 sub q2 post,
         nth_error (splitLines mixedText) (line o - 1) = Some l /\
         l = pre ++ [q1] ++ importName o ++ sub ++ [q2] ++ post /\
         column o < List.length pre /\
         isQuote q1 = true /\ isQuote q2 = true /\ subpathOf sub)
    (snd (findImportLocations mixedFs mixedPath
            [js "next/link"; js "next/head"; js "next/dynamic"])).
Proof.
  apply (@occurrences_quote_the_pattern mixedFs mixedPath
           [js "next/link"; js "next/head"; js "next/dynamic"] mixedText).
  reflexivity.
Defined.

Lemma skipn_prefix : forall (pre rest : jsstring),
  skipn (List.length pre) (pre ++ rest) = rest.
Proof.
  induction pre as [|c pre IH]; intro rest; simpl; [reflexivity | apply IH].
Qed.

(** An expression that accepts a piece of the line matches at or before
    the start of that piece. *)
Lemma matchIndex_of_piece : forall r pre t post,
  matches r t ->
  exists c, matchIndex (pre ++ t ++ post) r = Some c /\ c <= List.length pre.
Proof.
  intros r pre t post M.
  assert (Hat : matchesAt r (skipn (List.length pre) (pre ++ t ++ post)) = true).
  { rewrite skipn_prefix. apply matchesAt_spec. now exists t, post. }
  destruct (matchIndex (pre ++ t ++ post) r) as [c|] eqn:E.
  - exists c. split; [reflexivity|].
    apply matchIndex_Some in E. destruct E as [_ [_ Hmin]].
    destruct (Nat.le_gt_cases c (List.length pre)) as [Hle | Hgt]; [assumption|].
    rewrite (Hmin _ Hgt) in Hat. discriminate.
  - exfalso. rewrite (proj1 (matchIndex_None _ _) E (List.length pre)) in Hat.
    + discriminate.
    + rewrite length_app. lia.
Qed.

Lemma firstMatch_None : forall l rs,
  firstMatch l rs = None <-> forall r, In r rs -> matchIndex l r = None.
Proof.
  intros l. induction rs as [|r rs IH]; simpl.
  - split; [intros _ r [] | reflexivity].
  - destruct (matchIndex l r) eqn:E.
    + split; [discriminate|]. intro H. specialize (H r (or_introl eq_refl)). congruence.
    + rewrite IH. split.
      * intros H r' [<- | Hr']; auto.
      * intros H r' Hr'. apply H. now right.
Qed.

Lemma occurrence_of_line : forall (fs : FileSystem) filePath imports content i l p c,
  fs filePath = Some content ->
  nth_error (splitLines content) i = Some l ->
  In p imports ->
  firstMatch l (formsOf p) = Some c ->
  In {| importName := p; line := i + 1; column := c; lineContent := trim l |}
     (snd (findImportLocations fs filePath imports)).
Proof.
  intros fs filePath imports content i l p c Hread Hl Hp Hc.
  rewrite (findImportLocations_readable _ _ _ Hread). simpl.
  apply in_occurrencesIn. now exists l, i, p, c.
Qed.

(** X13.  A static import is always located: when a line of a readable
    file holds the word from, white space, a quote, a requested pattern,
    nothing or a subpath, and a quote, the result has an occurrence for
    that line and pattern, and its column is at or before the word from. *)
Theorem static_import_is_located :
  forall (fs : FileSystem) filePath imports content i pre ws q1 p sub q2 post,
    fs filePath = Some content ->
    In p imports ->
    nth_error (splitLines content) i
      = Some (pre ++ (js "from" ++ ws ++ [q1] ++ p ++ sub ++ [q2]) ++ post) ->
    ws <> [] ->
    Forall (fun c => isSpace c = true) ws ->
    isQuote q1 = true -> isQuote q2 = true -> subpathOf sub ->
    exists o,
      In o (snd (findImportLocations fs filePath imports)) /\
      line o = i + 1 /\ importName o = p /\ column o <= List.length pre /\
      lineContent o
        = trim (pre ++ (js "from" ++ ws ++ [q1] ++ p ++ sub ++ [q2]) ++ post).
Proof.
  intros fs filePath imports content i pre ws q1 p sub q2 post
         Hread Hp Hl Hne Hws Hq1 Hq2 Hsub.
  set (l := pre ++ (js "from" ++ ws ++ [q1] ++ p ++ sub ++ [q2]) ++ post) in *.
  assert (M : matches (fromForm (lit p)) (js "from" ++ ws ++ [q1] ++ p ++ sub ++ [q2])).
  { apply matches_fromForm. exists ws, q1, sub, q2. auto 10. }
  destruct (matchIndex_of_piece _ pre _ post M) as [c [Hc Hle]]. fold l in Hc.
  assert (Hfirst : firstMatch l (formsOf p) = Some c).
  { unfold formsOf. simpl. now rewrite Hc. }
  exists {| importName := p; line := i + 1; column := c; lineContent := trim l |}.
  split; [|simpl; auto].
  now apply (occurrence_of_line fs filePath imports content i l p c).
Qed.

Lemma static_import_is_located_witness :
  exists o,
    In o (snd (findImportLocations mixedFs mixedPath [js "next/image"; js "next/link"])) /\
    line o = 0 + 1 /\ importName o = js "next/link" /\
    column o <= List.length (js "import Link ") /\
    lineContent o
      = trim (js "import Link "
              ++ (js "from" ++ js " " ++ [39%N] ++ js "next/link" ++ [] ++ [39%N])
              ++ js ";").
Proof.
  apply (@static_import_is_located mixedFs mixedPath [js "next/image"; js "next/link"]
           mixedText 0 (js "import Link ") (js " ") 39%N (js "next/link") [] 39%N (js ";")).
  - reflexivity.
  - right. left. reflexivity.
  - reflexivity.
  - discriminate.
  - repeat constructor.
  - reflexivity.
  - reflexivity.
  - left. reflexivity.
Defined.

(** X14.  A call of require or a dynamic import is always located: when a
    line of a readable file holds the word require or import, optional
    white space, an opening parenthesis, optional white space, a quote, a
    requested pattern, nothing or a subpath, and a quote, the result has
    an occurrence for that line and pattern. *)
Theorem call_import_is_located :
  forall (fs : FileSystem) filePath imports content i pre kw ws1 ws2 q1 p sub q2 post,
    fs filePath = Some content ->
    In p imports ->
    kw = js "require" \/ kw = js "import" ->
    nth_error (splitLines content) i
      = Some (pre ++ (kw ++ ws1 ++ [40%N] ++ ws2 ++ [q1] ++ p ++ sub ++ [q2]) ++ post) ->
    Forall (fun c => isSpace c = true) ws1 ->
    Forall (fun c => isSpace c = true) ws2 ->
    isQuote q1 = true -> isQuote q2 = true -> subpathOf sub ->
    exists o,
      In o (snd (findImportLocations fs filePath imports)) /\
      line o = i + 1 /\ importName o = p /\
      lineContent o
        = trim (pre ++ (kw ++ ws1 ++ [40%N] ++ ws2 ++ [q1] ++ p ++ sub ++ [q2]) ++ post).
Proof.
  intros fs filePath imports content i pre kw ws1 ws2 q1 p sub q2 post
         Hread Hp Hkw Hl Hws1 Hws2 Hq1 Hq2 Hsub.
  set (piece := kw ++ ws1 ++ [40%N] ++ ws2 ++ [q1] ++ p ++ sub ++ [q2]) in *.
  set (l := pre ++ piece ++ post) in *.
  assert (Hform : exists r, In r (formsOf p) /\ matches r piece).
  { destruct Hkw as [-> | ->].
    - exists (requireForm (lit p)). split; [right; left; reflexivity|].
      apply matches_requireForm. exists ws1, ws2, q1, sub, q2. auto 10.
    - exists (importForm (lit p)). split; [right; right; left; reflexivity|].
      apply matches_importForm. exists ws1, ws2, q1, sub, q2. auto 10. }
  destruct Hform as [r [Hr M]].
  destruct (matchIndex_of_piece _ pre _ post M) as [c [Hc _]]. fold l in Hc.
  destruct (firstMatch l (formsOf p)) as [c'|] eqn:Hfirst.
  - exists {| importName := p; line := i + 1; column := c'; lineContent := trim l |}.
    split; [|simpl; auto].
    now apply (occurrence_of_line fs filePath imports content i l p c').
  - rewrite (proj1 (firstMatch_None _ _) Hfirst r Hr) in Hc. discriminate.
Qed.

Lemma call_import_is_located_witness :
  exists o,
    In o (snd (findImportLocations mixedFs mixedPath [js "next/head"])) /\
    line o = 1 + 1 /\ importName o = js "next/head" /\
    lineContent o
      = trim (js "  const head = "
              ++ (js "require" ++ [] ++ [40%N] ++ js " " ++ [39%N] ++ js "next/head"
                  ++ js "/amp" ++ [39%N])
              ++ js " );").
Proof.
  apply (@call_import_is_located mixedFs mixedPath [js "next/head"] mixedText 1
           (js "  const head = ") (js "require") [] (js " ") 39%N (js "next/head")
           (js "/amp") 39%N (js " );")).
  - reflexivity.
  - left. reflexivity.
  - left. reflexivity.
  - reflexivity.
  - constructor.
  - repeat constructor.
  - reflexivity.
  - reflexivity.
  - right. exists (js "amp"). split; [reflexivity | repeat constructor].
Defined.

Lemma length_flat_map_le : forall (A B : Type) (f : A -> list B) k l,
  (forall a, List.length (f a) <= k) ->
  List.length (flat_map f l) <= List.length l * k.
Proof.
  intros A B f k l H. induction l as [|a l IH]; simpl; [lia|].
  rewrite length_app. specialize (H a). lia.
Qed.

(** X15.  The locator returns at most one occurrence per line and
    requested pattern when the file can be read, that is at most (number
    of line feeds + 1) times the number of patterns, and exactly one per
    requested pattern when it cannot. *)
Theorem occurrence_count_bound : forall (fs : FileSystem) filePath imports,
  match fs filePath with
  | Some content =>
      List.length (snd (findImportLocations fs filePath imports))
      <= S (count_occ N.eq_dec content 10%N) * List.length imports
  | None =>
      List.length (snd (findImportLocations fs filePath imports)) = List.length imports
  end.
Proof.
  intros fs filePath imports. destruct (fs filePath) as [content|] eqn:Hread.
  - rewrite (findImportLocations_readable _ _ _ Hread). cbn [snd].
    unfold occurrencesIn. rewrite <- splitLines_length.
    replace (List.length (splitLines content))
      with (List.length (indexed (splitLines content))).
    + apply length_flat_map_le. intros [l i]. simpl.
      replace (List.length imports) with (List.length imports * 1) by lia.
      apply length_flat_map_le. intro p. unfold occurrencesOn.
      destruct (firstMatch l (formsOf p)); simpl; lia.
    + unfold indexed. rewrite length_combine, length_seq. lia.
  - unfold findImportLocations, locateTry. rewrite Hread. simpl. apply length_map.
Qed.

(** X16.  An occurrence has line 0 exactly when the file could not be
    read, so the reporter leaves the line and column out of the location
    for such files and for no others. *)
Theorem line_zero_iff_unreadable : forall (fs : FileSystem) filePath imports,
  Forall (fun o => (line o = 0 <-> fs filePath = None) /\
                   ((0 <? line o) = false <-> fs filePath = None))
         (snd (findImportLocations fs filePath imports)).
Proof.
  intros fs filePath imports. apply Forall_forall. intros o Ho.
  destruct (fs filePath) as [content|] eqn:Hread.
  - rewrite (findImportLocations_readable _ _ _ Hread) in Ho. simpl in Ho.
    apply in_occurrencesIn in Ho. destruct Ho as [l [i [p [c [_ [_ [_ ->]]]]]]].
    simpl. replace (i + 1) with (S i) by lia. simpl.
    split; split; discriminate.
  - unfold findImportLocations, locateTry in Ho. rewrite Hread in Ho. simpl in Ho.
    apply in_map_iff in Ho. destruct Ho as [p [<- _]]. simpl. tauto.
Qed.

Lemma StronglySorted_app_le : forall a b,
  StronglySorted le a -> StronglySorted le b ->
  (forall x y, In x a -> In y b -> x <= y) ->
  StronglySorted le (a ++ b).
Proof.
  induction a as [|x a IH]; intros b Ha Hb Hab; simpl; [assumption|].
  inversion Ha as [|? ? Ha' Hx]; subst. constructor.
  - apply IH; auto. intros; apply Hab; auto. now right.
  - apply Forall_app. split; [assumption|].
    apply Forall_forall. intros y Hy. apply Hab; auto. now left.
Qed.

Lemma StronglySorted_constant : forall n l,
  Forall (fun x => x = n) l -> StronglySorted le l.
Proof.
  intros n. induction l as [|x l IH]; intro H; [constructor|].
  inversion H; subst. constructor; [now apply IH|].
  apply Forall_forall. intros y Hy.
  rewrite (proj1 (Forall_forall _ _) H3 y Hy). lia.
Qed.

Lemma lines_of_block : forall l i imports,
  Forall (fun x => x = i + 1)
         (List.map line (flat_map (occurrencesOn l i) imports)).
Proof.
  intros l i imports. apply Forall_forall. intros x Hx.
  apply in_map_iff in Hx. destruct Hx as [o [<- Ho]].
  apply in_flat_map in Ho. destruct Ho as [p [_ Ho]].
  apply in_occurrencesOn in Ho. destruct Ho as [c [_ ->]]. reflexivity.
Qed.

Lemma lines_sorted_from : forall imports ls k,
  StronglySorted le
    (List.map line
       (flat_map (fun entry : jsstring * nat =>
                    flat_map (occurrencesOn (fst entry) (snd entry)) imports)
                 (combine ls (seq k (List.length ls))))) /\
  Forall (fun x => k + 1 <= x)
    (List.map line
       (flat_map (fun entry : jsstring * nat =>
                    flat_map (occurrencesOn (fst entry) (snd entry)) imports)
                 (combine ls (seq k (List.length ls))))).
Proof.
  intros imports. induction ls as [|l ls IH]; intro k; simpl.
  - split; constructor.
  - destruct (IH (S k)) as [Hs Hb]. rewrite map_app.
    pose proof (lines_of_block l k imports) as Hblock. split.
    + apply StronglySorted_app_le.
      * now apply (StronglySorted_constant (k + 1)).
      * assumption.
      * intros x y Hx Hy.
        rewrite (proj1 (Forall_forall _ _) Hblock x Hx).
        pose proof (proj1 (Forall_forall _ _) Hb y Hy). simpl in *. lia.
    + apply Forall_app. split.
      * apply Forall_forall. intros x Hx.
        rewrite (proj1 (Forall_forall _ _) Hblock x Hx). lia.
      * apply Forall_forall. intros y Hy.
        pose proof (proj1 (Forall_forall _ _) Hb y Hy). simpl in *. lia.
Qed.

(** X17.  The occurrences come in the order of the lines of the file:
    their line numbers never decrease along the result. *)
Theorem occurrences_follow_the_lines : forall (fs : FileSystem) filePath imports,
  StronglySorted le (List.map line (snd (findImportLocations fs filePath imports))).
Proof.
  intros fs filePath imports. destruct (fs filePath) as [content|] eqn:Hread.
  - rewrite (findImportLocations_readable _ _ _ Hread). simpl.
    unfold occurrencesIn, indexed. apply lines_sorted_from.
  - unfold findImportLocations, locateTry. rewrite Hread. simpl.
    apply (StronglySorted_constant 0). apply Forall_forall. intros x Hx.
    apply in_map_iff in Hx. destruct Hx as [o [<- Ho]].
    apply in_map_iff in Ho. destruct Ho as [p [<- _]]. reflexivity.
Qed.

(** ** Reporter: paths, alternatives and layout *)

Lemma includes_length : forall s sub,
  includes s sub = true -> List.length sub <= List.length s.
Proof.
  intros s sub H. apply includes_spec in H. destruct H as [pre [post ->]].
  rewrite !length_app. lia.
Qed.

Lemma startsWith_includes : forall s sub, startsWith s sub = true -> includes s sub = true.
Proof.
  intros s sub H. destruct s; simpl; rewrite H; reflexivity.
Qed.

Lemma removeFirst_length : forall s pat,
  List.length (removeFirst s pat)
  = List.length s - (if includes s pat then List.length pat else 0).
Proof.
  induction s as [|c s IH]; intro pat.
  - simpl. destruct (startsWith [] pat) eqn:E; simpl.
    + rewrite skipn_nil. reflexivity.
    + reflexivity.
  - cbn [removeFirst includes]. destruct (startsWith (c :: s) pat) eqn:E.
    + rewrite orb_true_l, length_skipn. reflexivity.
    + rewrite orb_false_l. cbn [Datatypes.length]. rewrite IH.
      destruct (includes s pat) eqn:I; [|lia].
      apply includes_length in I. lia.
Qed.

Lemma removeFirst_absent : forall s pat,
  includes s pat = false -> removeFirst s pat = s.
Proof.
  induction s as [|c s IH]; intros pat H; simpl in *.
  - apply orb_false_iff in H. destruct H as [H _]. now rewrite H.
  - apply orb_false_iff in H. destruct H as [H1 H2]. rewrite H1. now rewrite IH.
Qed.

Lemma removeFirst_first_occurrence : forall cwd pre post,
  (forall k, k < List.length pre ->
             startsWith (skipn k (pre ++ cwd ++ post)) cwd = false) ->
  removeFirst (pre ++ cwd ++ post) cwd = pre ++ post.
Proof.
  intros cwd. induction pre as [|c pre IH]; intros post H.
  - simpl app.
    assert (Hs : startsWith (cwd ++ post) cwd = true)
      by (apply startsWith_spec; now exists post).
    destruct (cwd ++ post) as [|d s] eqn:E; simpl; rewrite Hs; rewrite <- E;
      apply skipn_prefix.
  - pose proof (H 0 ltac:(simpl; lia)) as H0. simpl in H0. simpl. rewrite H0.
    f_equal. apply IH. intros k Hk. apply (H (S k)). simpl. lia.
Qed.

(** X18.  How a path is shortened for display.  When the path starts with
    the working directory, what follows it is shown; the path is shown
    unchanged exactly when the working directory is empty or does not
    occur in it; in general the first occurrence of the working directory
    is cut out wherever it stands, also in the middle of the path, so the
    shown path is shorter by its length exactly when it occurs, and only
    keeps characters of the path. *)
Theorem displayed_path : forall cwd,
  (forall rest, removeFirst (cwd ++ rest) cwd = rest) /\
  (forall path, removeFirst path cwd = path <-> cwd = [] \/ includes path cwd = false) /\
  (forall pre post,
     (forall k, k < List.length pre ->
                startsWith (skipn k (pre ++ cwd ++ post)) cwd = false) ->
     removeFirst (pre ++ cwd ++ post) cwd = pre ++ post) /\
  (forall path,
     List.length (removeFirst path cwd)
     = List.length path - (if includes path cwd then List.length cwd else 0)) /\
  (forall path c, In c (removeFirst path cwd) -> In c path).
Proof.
  intro cwd. repeat split.
  - intro rest. apply (removeFirst_first_occurrence cwd [] rest).
    intros k Hk. simpl in Hk. lia.
  - intro H. destruct cwd as [|c cwd]; [now left | right].
    destruct (includes path (c :: cwd)) eqn:I; [|reflexivity].
    pose proof (removeFirst_length path (c :: cwd)) as L. rewrite H, I in L.
    apply includes_length in I. simpl in *. lia.
  - intros [-> | H].
    + destruct path; reflexivity.
    + now apply removeFirst_absent.
  - apply removeFirst_first_occurrence.
  - intro path. apply removeFirst_length.
  - intros path c. apply in_removeFirst.
Qed.

Lemma displayed_path_witness :
  removeFirst (js "/srv" ++ js "/app" ++ js "/src/Hero.tsx") (js "/app")
  = js "/srv" ++ js "/src/Hero.tsx".
Proof.
  apply (proj1 (proj2 (proj2 (displayed_path (js "/app"))))).
  intros k Hk.
  destruct k as [|[|[|[|k]]]]; try reflexivity. simpl in Hk. lia.
Defined.

Lemma alternatives_fold_other : forall k rules m,
  (forall r, In r rules -> pattern r <> k) ->
  mapGet k (fold_left (fun m f => mapSet (pattern f) (alternative f) m) rules m)
  = mapGet k m.
Proof.
  intros k. induction rules as [|r rules IH]; intros m H; simpl; [reflexivity|].
  rewrite IH by (intros r' Hr'; apply H; now right).
  apply mapGet_mapSet_other. intro E. apply (H r (or_introl eq_refl)). now symmetry.
Qed.

(** X19.  When several rules share a pattern, the alternative shown is the
    one of the last such rule; a pattern of no rule has no alternative. *)
Theorem last_alternative_wins : forall before rule after,
  (forall r, In r after -> pattern r <> pattern rule) ->
  mapGet (pattern rule) (alternativesOf (before ++ rule :: after))
    = Some (alternative rule) /\
  (forall p, (forall r, In r (before ++ rule :: after) -> pattern r <> p) ->
             mapGet p (alternativesOf (before ++ rule :: after)) = None).
Proof.
  intros before rule after H. unfold alternativesOf. split.
  - rewrite fold_left_app. simpl. rewrite alternatives_fold_other by assumption.
    apply mapGet_mapSet_same.
  - intros p Hp. now rewrite alternatives_fold_other.
Qed.

Lemma last_alternative_wins_witness :
  mapGet (js "next/link")
    (alternativesOf ([mkForbidden (js "next/link") (js "first advice");
                      mkForbidden (js "next-intl") (js "react-intl")]
                     ++ mkForbidden (js "next/link") (js "second advice") :: []))
    = Some (js "second advice") /\
  (forall p,
     (forall r, In r ([mkForbidden (js "next/link") (js "first advice");
                       mkForbidden (js "next-intl") (js "react-intl")]
                      ++ mkForbidden (js "next/link") (js "second advice") :: []) ->
                pattern r <> p) ->
     mapGet p
       (alternativesOf ([mkForbidden (js "next/link") (js "first advice");
                         mkForbidden (js "next-intl") (js "react-intl")]
                        ++ mkForbidden (js "next/link") (js "second advice") :: []))
     = None).
Proof.
  apply (last_alternative_wins
           [mkForbidden (js "next/link") (js "first advice");
            mkForbidden (js "next-intl") (js "react-intl")]
           (mkForbidden (js "next/link") (js "second advice")) []).
  intros r [].
Defined.

Lemma fold_reportOccurrence_found : forall c rp errs st,
  foundImports (fold_left (fun st err => reportOccurrence c rp err st) errs st)
  = fold_left (fun s x => setAdd x s) (List.map importName errs) (foundImports st).
Proof.
  intros c rp. induction errs as [|err errs IH]; intro st; simpl; [reflexivity|].
  rewrite IH. destruct (reportOccurrence_spec c rp err st) as [_ [_ Hf]].
  now rewrite Hf.
Qed.

Lemma reportFiles_found : forall c fs cwd errorMap st,
  foundImports (reportFiles c fs cwd errorMap st)
  = fold_left (fun s x => setAdd x s)
              (List.map importName (allOccurrences fs errorMap)) (foundImports st).
Proof.
  intros c fs cwd. unfold reportFiles, allOccurrences.
  induction errorMap as [|entry errorMap IH]; intro st; simpl; [reflexivity|].
  rewrite IH, map_app, fold_left_app. f_equal.
  unfold reportFile. now rewrite fold_reportOccurrence_found.
Qed.

Lemma fold_reportAlternative_spec : forall c alts imps st,
  console (fold_left (reportAlternative c alts) imps st)
    = console st ++ flat_map (alternativeLine c alts) imps /\
  foundImports (fold_left (reportAlternative c alts) imps st) = foundImports st.
Proof.
  intros c alts. induction imps as [|imp imps IH]; intro st; simpl.
  - now rewrite app_nil_r.
  - destruct (IH (reportAlternative c alts st imp)) as [Hc Hf]. rewrite Hc, Hf.
    unfold reportAlternative, alternativeLine.
    destruct (mapGet imp alts) as [alt|]; [|auto].
    destruct (truthy alt); simpl; [|auto].
    split; [now rewrite <- app_assoc | reflexivity].
Qed.

Lemma printAlternatives_spec : forall c alts st,
  console (printAlternatives c alts st)
  = console st ++ alternativesSection c alts (foundImports st).
Proof.
  intros c alts st. unfold printAlternatives, alternativesSection.
  destruct (foundImports st) as [|imp imps] eqn:E.
  - simpl. now rewrite app_nil_r.
  - change (0 <? List.length (imp :: imps)) with true. cbv iota.
    cbn [console consoleError].
    destruct (fold_reportAlternative_spec c alts
                (foundImports (consoleError (yellow c (js "  Suggested alternatives:")) st))
                (consoleError (yellow c (js "  Suggested alternatives:")) st)) as [Hc _].
    rewrite Hc. cbn [console consoleError foundImports]. rewrite E.
    repeat rewrite <- app_assoc. reflexivity.
Qed.

(** The console of the reporter in closed form. *)
Lemma printErrorReport_layout : forall fs errorMap forbidden options cwd,
  fst (printErrorReport fs errorMap forbidden options cwd)
  = headerLines (createColorizer (colors options)) options
    ++ flat_map (fileBlock (createColorizer (colors options)) fs cwd) errorMap
    ++ alternativesSection (createColorizer (colors options)) (alternativesOf forbidden)
         (setOfArray (List.map importName (allOccurrences fs errorMap)))
    ++ [ ConsoleError
           (red (createColorizer (colors options))
              (bold (createColorizer (colors options))
                 (js "  " ++ ofNat (List.length (allOccurrences fs errorMap))
                  ++ js " error(s) found."
                  ++ (if failOnError options then js " Build failed." else []))));
         ConsoleError [] ].
Proof.
  intros fs errorMap forbidden options cwd. unfold printErrorReport.
  set (c := createColorizer (colors options)).
  set (st0 := printHeader c options {| console := []; foundImports := []; errorCount := 0 |}).
  destruct (reportFiles_spec c fs cwd errorMap st0) as [Hc Hn].
  pose proof (reportFiles_found c fs cwd errorMap st0) as Hf.
  cbn [fst]. unfold printSummary. cbn [console consoleError].
  rewrite printAlternatives_count, printAlternatives_spec, Hc, Hn, Hf.
  assert (Ht : totalOccurrences fs errorMap = List.length (allOccurrences fs errorMap)).
  { unfold totalOccurrences, allOccurrences. clear.
    induction errorMap as [|e m IH]; simpl; [reflexivity|].
    now rewrite length_app, IH. }
  rewrite Ht. unfold summaryLine. subst st0. simpl.
  unfold setOfArray, headerLines. repeat rewrite <- app_assoc. reflexivity.
Qed.

(** X20.  The whole report, line by line: the eight header lines; for
    every file of the finding, in map order, the warning of the locator if
    the file cannot be read and then one block per occurrence; the
    alternatives section, which lists each distinct pattern of the printed
    occurrences once, in the order of its first occurrence, provided it has
    a non-empty alternative, and which is left out when there is no
    occurrence at all; the summary line and an empty line. *)
Theorem report_layout : forall fs errorMap forbidden options cwd,
  fst (printErrorReport fs errorMap forbidden options cwd)
  = headerLines (createColorizer (colors options)) options
    ++ flat_map (fileBlock (createColorizer (colors options)) fs cwd) errorMap
    ++ alternativesSection (createColorizer (colors options)) (alternativesOf forbidden)
         (setOfArray (List.map importName (allOccurrences fs errorMap)))
    ++ [ ConsoleError
           (red (createColorizer (colors options))
              (bold (createColorizer (colors options))
                 (js "  " ++ ofNat (List.length (allOccurrences fs errorMap))
                  ++ js " error(s) found."
                  ++ (if failOnError options then js " Build failed." else []))));
         ConsoleError [] ].
Proof.
  intros fs errorMap forbidden options cwd. apply printErrorReport_layout.
Qed.

(** X21.  The box of the header is 65 characters wide, and the line with
    the header text is as wide as the box when the text has at most 59
    characters; a longer text is not cut and pushes the right border out
    by the excess. *)
Theorem header_box_width : forall options,
  List.length boxTop = 65 /\
  List.length boxBottom = 65 /\
  nth_error (headerLines (createColorizer false) options) 2
    = Some (ConsoleError (js "  " ++ [boxVertical] ++ js "  "
                          ++ padEnd (errorHeader options) 59 ++ [boxVertical])) /\
  List.length (js "  " ++ [boxVertical] ++ js "  "
               ++ padEnd (errorHeader options) 59 ++ [boxVertical])
    = Nat.max 65 (List.length (errorHeader options) + 6).
Proof.
  intro options. repeat split.
  unfold padEnd. rewrite !length_app, repeat_length.
  change (List.length (js "  ")) with 2. cbn [Datatypes.length]. lia.
Qed.

(** ** Order of the finding *)

Lemma mapHas_keys : forall (V : Type) k (m : list (jsstring * V)),
  existsb (str_eqb k) (List.map fst m) = mapHas k m.
Proof.
  intros V k. unfold mapHas. induction m as [|[k' v] m IH]; simpl; [reflexivity|].
  destruct (str_eqb k k'); [reflexivity | assumption].
Qed.

Lemma keys_recordMatch : forall path p m,
  List.map fst (recordMatch path p m) = setAdd path (List.map fst m).
Proof.
  intros path p m. unfold recordMatch, setAdd. rewrite mapHas_keys.
  destruct (mapHas path m) eqn:E.
  - unfold mapHas in E. destruct (mapGet path m) as [matched|] eqn:G; [|discriminate].
    rewrite keys_mapSet. unfold mapHas. now rewrite G.
  - rewrite mapGet_mapSet_same, keys_mapSet.
    unfold mapHas at 1. rewrite mapGet_mapSet_same.
    rewrite keys_mapSet, E. reflexivity.
Qed.

Lemma keys_fold_recordHit : forall hits m,
  List.map fst (fold_left recordHit hits m)
  = fold_left (fun s x => setAdd x s) (List.map fst hits) (List.map fst m).
Proof.
  induction hits as [|[path p] hits IH]; intro m; simpl; [reflexivity|].
  rewrite IH. unfold recordHit. simpl. now rewrite keys_recordMatch.
Qed.

Lemma mapGet_fold_recordHit : forall path hits m,
  mapGet path (fold_left recordHit hits m)
  = match List.map snd (filter (fun hit => str_eqb (fst hit) path) hits) with
    | [] => mapGet path m
    | p :: ps =>
        Some (fold_left (fun s x => setAdd x s) (p :: ps) (orDefault (mapGet path m) []))
    end.
Proof.
  intros path. induction hits as [|[path' p'] hits IH]; intro m; [reflexivity|].
  cbn [fold_left filter fst]. rewrite IH. unfold recordHit. cbn [fst snd].
  destruct (str_eqb path' path) eqn:E.
  - apply str_eqb_eq in E. subst path'. rewrite recordMatch_same.
    cbn [List.map snd orDefault fold_left].
    destruct (List.map snd (filter (fun hit => str_eqb (fst hit) path) hits));
      reflexivity.
  - apply str_eqb_neq in E.
    rewrite recordMatch_other by (intro H; apply E; now symmetry). reflexivity.
Qed.

(** X22.  The order of the finding is the order of discovery: its files
    are the resources of the recorded hits, each once, in the order in
    which the loops first record them, and the matched set of a file
    lists the patterns recorded for it, each once, in the order in which
    they were first recorded. *)
Theorem finding_in_discovery_order : forall excludeRules patterns modules,
  List.map fst (scanModules excludeRules patterns modules)
  = setOfArray (List.map fst (flat_map (moduleHits excludeRules patterns) modules)) /\
  (forall path,
     mapGet path (scanModules excludeRules patterns modules)
     = match List.map snd
               (filter (fun hit => str_eqb (fst hit) path)
                       (flat_map (moduleHits excludeRules patterns) modules)) with
       | [] => None
       | p :: ps => Some (setOfArray (p :: ps))
       end).
Proof.
  intros excludeRules patterns modules. rewrite scanModules_hits. split.
  - apply keys_fold_recordHit.
  - intro path. rewrite mapGet_fold_recordHit. reflexivity.
Qed.

(** ** Requests and the default rules *)

(** X23.  A dependency that carries no request text, in either field, is
    judged on the empty string, and the empty string starts with the empty
    pattern only: such a dependency is recorded exactly when a rule with
    an empty pattern is registered. *)
Theorem requestless_dependency : forall patterns dep,
  (requestOf dep = [] <->
   (request dep = None \/ request dep = Some []) /\
   (userRequest dep = None \/ userRequest dep = Some [])) /\
  findForbidden [] patterns
  = (if existsb (str_eqb []) patterns then Some [] else None) /\
  (forall path errorMap,
     scanDependency patterns path errorMap {| request := None; userRequest := None |}
     = if existsb (str_eqb []) patterns
       then recordMatch path [] errorMap
       else errorMap).
Proof.
  intros patterns dep.
  assert (Hempty : findForbidden [] patterns
                   = (if existsb (str_eqb []) patterns then Some [] else None)).
  { induction patterns as [|p ps IH]; simpl; [reflexivity|].
    destruct p as [|c p]; simpl; [reflexivity | assumption]. }
  split; [|split; [assumption|]].
  - unfold requestOf.
    destruct (request dep) as [[|c r]|]; destruct (userRequest dep) as [[|d u]|];
      split; intro H; try discriminate; auto;
      try (destruct H as [[H | H] [H' | H']]; discriminate).
  - intros path errorMap. unfold scanDependency.
    cbn [requestOf request userRequest]. rewrite Hempty.
    now destruct (existsb (str_eqb []) patterns).
Qed.

Lemma headers_shadowed : forall r,
  startsWith r (js "next/headers") = true ->
  findForbidden r (List.map pattern NEXTJS_FORBIDDEN_IMPORTS) = Some (js "next/head").
Proof.
  intros r H. apply startsWith_spec in H. destruct H as [t ->]. reflexivity.
Qed.

(** X24.  With the default rules the rule for next/headers can never
    fire: next/head is registered before it and is a prefix of it, so
    every request that starts with next/headers is recorded as next/head,
    and next/headers is in no matched set of any finding.  It is the only
    default rule in that position: each other default pattern is its own
    first match. *)
Theorem default_rules_shadow_headers :
  (forall r, startsWith r (js "next/headers") = true ->
             findForbidden r (forbiddenPatterns heroPlugin) = Some (js "next/head")) /\
  (forall excludeRules modules path,
     ~ recorded path (js "next/headers")
         (scanModules excludeRules (forbiddenPatterns heroPlugin) modules)) /\
  Forall (fun p => p = js "next/headers" \/
                   findForbidden p (forbiddenPatterns heroPlugin) = Some p)
         (List.map pattern NEXTJS_FORBIDDEN_IMPORTS).
Proof.
  assert (Hpats : forbiddenPatterns heroPlugin
                  = setOfArray (List.map pattern NEXTJS_FORBIDDEN_IMPORTS))
    by reflexivity.
  assert (H1 : forall r, startsWith r (js "next/headers") = true ->
                         findForbidden r (forbiddenPatterns heroPlugin)
                         = Some (js "next/head")).
  { intros r H. rewrite Hpats, findForbidden_setOfArray. now apply headers_shadowed. }
  split; [assumption | split].
  - intros excludeRules modules path Hrec. apply scanModules_recorded in Hrec.
    destruct Hrec as [module [dep [_ [_ [_ [_ [_ F]]]]]]].
    pose proof (findForbidden_in _ _ F) as [_ Hstart].
    rewrite (H1 _ Hstart) in F. discriminate.
  - repeat constructor; (right; vm_compute; reflexivity) || (left; reflexivity).
Qed.

(** ** Escaping and warnings *)

Lemma escapeRegExp_length : forall p,
  List.length p <= List.length (escapeRegExp p) <= 2 * List.length p.
Proof.
  unfold escapeRegExp. induction p as [|c p IH]; simpl; [lia|].
  destruct (isSyntaxChar c); simpl; lia.
Qed.

Lemma escapeRegExp_id : forall p,
  escapeRegExp p = p <-> forall c, In c p -> isSyntaxChar c = false.
Proof.
  unfold escapeRegExp. induction p as [|c p IH]; simpl.
  - split; [intros _ c [] | reflexivity].
  - destruct (isSyntaxChar c) eqn:E; simpl.
    + split.
      * intro H. exfalso.
        pose proof (escapeRegExp_length p) as L. unfold escapeRegExp in L.
        apply (f_equal (@List.length char)) in H. simpl in H. lia.
      * intro H. specialize (H c (or_introl eq_refl)). congruence.
    + split.
      * intros H c' [<- | Hc']; [assumption|]. injection H as H. now apply IH.
      * intro H. f_equal. apply IH. intros c' Hc'. apply H. now right.
Qed.

(** X25.  Escaping makes any pattern text literal.  Every syntax
    character gets one backslash, so the escaped text is at most twice as
    long and equals the pattern exactly when the pattern has no syntax
    character; read back as an expression it accepts the pattern itself
    and nothing else; so the three expressions can always be built, and
    the locator writes its warning exactly when the file cannot be read. *)
Theorem escaping_is_literal : forall p,
  List.length p <= List.length (escapeRegExp p) <= 2 * List.length p /\
  (escapeRegExp p = p <-> forall c, In c p -> isSyntaxChar c = false) /\
  (exists r, parseEscaped (escapeRegExp p) = Some r /\
             forall t, matches r t <-> t = p) /\
  importRegexes p <> None /\
  (forall (fs : FileSystem) filePath imports,
     fst (findImportLocations fs filePath imports)
     = match fs filePath with
       | Some _ => []
       | None => [ConsoleWarn (js "[plugin-block-imports] Could not read file: "
                               ++ filePath)]
       end).
Proof.
  intro p. repeat split.
  - apply escapeRegExp_length.
  - apply escapeRegExp_length.
  - apply escapeRegExp_id.
  - apply escapeRegExp_id.
  - exists (lit p). split; [apply parseEscaped_escapeRegExp | apply matches_lit].
  - rewrite importRegexes_total. discriminate.
  - intros fs filePath imports. destruct (fs filePath) as [content|] eqn:Hread.
    + now rewrite (findImportLocations_readable _ _ _ Hread).
    + unfold findImportLocations, locateTry. now rewrite Hread.
Qed.

(** ** What is printed for one file *)

Lemma flat_map_map : forall (A B C : Type) (f : B -> list C) (g : A -> B) l,
  flat_map f (List.map g l) = flat_map (fun a => f (g a)) l.
Proof.
  intros A B C f g. induction l as [|a l IH]; simpl; [reflexivity | now rewrite IH].
Qed.

Lemma flat_map_ext_in : forall (A B : Type) (f g : A -> list B) l,
  (forall a, In a l -> f a = g a) -> flat_map f l = flat_map g l.
Proof.
  intros A B f g. induction l as [|a l IH]; intro H; simpl; [reflexivity|].
  rewrite (H a (or_introl eq_refl)), IH; [reflexivity|].
  intros a' Ha'. apply H. now right.
Qed.

Lemma located_occurrence_visible : forall content imports o,
  In o (occurrencesIn content imports) ->
  (0 <? line o) = true /\ truthy (lineContent o) = true.
Proof.
  intros content imports o Ho. apply in_occurrencesIn in Ho.
  destruct Ho as [l [i [p [c [_ [_ [Hc ->]]]]]]]. simpl. split.
  - apply Nat.ltb_lt. lia.
  - destruct (located_shape _ _ _ Hc)
      as [_ [k [head [q1 [sub [q2 [post [El [Hk _]]]]]]]]].
    assert (Hne : trim l <> []).
    { apply (trim_nonempty l k); [|assumption].
      rewrite El. apply in_app_iff. right. now left. }
    destruct (trim l); [contradiction | reflexivity].
Qed.

(** X26.  What is printed for one file of the finding.  When the file
    cannot be read: the warning, then for every pattern of its matched
    set three lines, the shortened path without line and column, the
    pattern, and an empty line.  When it can be read: for every
    occurrence four lines, the shortened path followed by a colon, the
    line, a colon and the column, then the pattern, the trimmed source
    line, and an empty line. *)
Theorem file_block_shapes : forall c (fs : FileSystem) cwd path imports,
  fileBlock c fs cwd (path, imports)
  = match fs path with
    | None =>
        [ConsoleWarn (js "[plugin-block-imports] Could not read file: " ++ path)]
        ++ flat_map
             (fun imp =>
                [ ConsoleError (cyan c (js "  " ++ removeFirst path cwd));
                  ConsoleError (red c (js "    " ++ [heavyCross] ++ js " Forbidden import: "
                                       ++ bold c imp));
                  ConsoleError [] ])
             imports
    | Some _ =>
        flat_map
          (fun o =>
             [ ConsoleError (cyan c (js "  " ++ removeFirst path cwd ++ js ":"
                                     ++ ofNat (line o) ++ js ":" ++ ofNat (column o)));
               ConsoleError (red c (js "    " ++ [heavyCross] ++ js " Forbidden import: "
                                    ++ bold c (importName o)));
               ConsoleError (gray c (js "    " ++ [boxVertical] ++ js " "
                                     ++ lineContent o));
               ConsoleError [] ])
          (snd (findImportLocations fs path imports))
    end.
Proof.
  intros c fs cwd path imports. unfold fileBlock. cbn [fst snd].
  destruct (fs path) as [content|] eqn:Hread.
  - rewrite (findImportLocations_readable _ _ _ Hread). cbn [fst snd app].
    apply flat_map_ext_in. intros o Ho.
    destruct (located_occurrence_visible _ _ _ Ho) as [Hline Htext].
    unfold occurrenceBlock. rewrite Hline, Htext. reflexivity.
  - unfold findImportLocations, locateTry. rewrite Hread. cbn [fst snd].
    f_equal. rewrite flat_map_map. apply flat_map_ext_in. intros imp _.
    unfold occurrenceBlock, degraded. cbn. now rewrite app_nil_r.
Qed.

(** ** Growth of the finding *)




(** ** From an import in the source to the failed build *)

Lemma mapGet_In : forall (V : Type) k (v : V) m,
  mapGet k m = Some v -> In (k, v) m.
Proof.
  intros V k v. induction m as [|[k' v'] m IH]; simpl; [discriminate|].
  destruct (str_eqb k k') eqn:E.
  - intro H. injection H as ->. apply str_eqb_eq in E. subst. now left.
  - intro H. right. now apply IH.
Qed.

Lemma totalOccurrences_ge : forall fs errorMap entry,
  In entry errorMap ->
  List.length (snd (findImportLocations fs (fst entry) (snd entry)))
  <= totalOccurrences fs errorMap.
Proof.
  intros fs. unfold totalOccurrences.
  induction errorMap as [|e m IH]; intros entry Hin; simpl; [contradiction|].
  destruct Hin as [<- | Hin]; [lia|]. specialize (IH entry Hin). lia.
Qed.

(** X28.  From the source line to the failed build.  Let failOnError
    hold and let a scanned module (with a resource that is not excluded)
    have a dependency whose first matching pattern is [p].  If the file of
    the module can be read and one of its lines holds the word from, white
    space, a quote, [p], nothing or a subpath, and a quote, then the
    callback throws. *)
Theorem forbidden_static_import_fails_build :
  forall plugin (fs : FileSystem) cwd modules module path dep content
         i pre ws q1 p sub q2 post,
    failOnError (resolvedOptions plugin) = true ->
    In module modules ->
    resource module = Some path ->
    truthy path = true ->
    shouldExclude path (exclude (resolvedOptions plugin)) = false ->
    In dep (orDefault (dependencies module) []) ->
    findForbidden (requestOf dep) (forbiddenPatterns plugin) = Some p ->
    fs path = Some content ->
    nth_error (splitLines content) i
      = Some (pre ++ (js "from" ++ ws ++ [q1] ++ p ++ sub ++ [q2]) ++ post) ->
    ws <> [] ->
    Forall (fun c => isSpace c = true) ws ->
    isQuote q1 = true -> isQuote q2 = true -> subpathOf sub ->
    exists n,
      0 < n /\
      snd (finishModules plugin fs cwd modules)
      = Throw (js "[plugin-block-imports] " ++ ofNat n
               ++ js " forbidden import(s) detected. See the error report above for details.").
Proof.
  intros plugin fs cwd modules module path dep content i pre ws q1 p sub q2 post
         Hfail Hm Hres Ht Hx Hdep F Hread Hl Hne Hws Hq1 Hq2 Hsub.
  set (finding := scanModules (exclude (resolvedOptions plugin))
                              (forbiddenPatterns plugin) modules).
  assert (Hrec : recorded path p finding).
  { apply scanModules_recorded. exists module, dep. auto 10. }
  destruct Hrec as [matched [Hget Hin]].
  set (l := pre ++ (js "from" ++ ws ++ [q1] ++ p ++ sub ++ [q2]) ++ post) in *.
  assert (M : matches (fromForm (lit p)) (js "from" ++ ws ++ [q1] ++ p ++ sub ++ [q2])).
  { apply matches_fromForm. exists ws, q1, sub, q2. auto 10. }
  destruct (matchIndex_of_piece _ pre _ post M) as [c [Hc _]]. fold l in Hc.
  assert (Hfirst : firstMatch l (formsOf p) = Some c).
  { unfold formsOf. simpl. now rewrite Hc. }
  pose proof (occurrence_of_line fs path matched content i l p c Hread Hl Hin Hfirst)
    as Hocc.
  assert (Hpos : 0 < totalOccurrences fs finding).
  { pose proof (totalOccurrences_ge fs finding (path, matched) (mapGet_In _ _ _ _ Hget))
      as Hge.
    cbn [fst snd] in Hge.
    destruct (snd (findImportLocations fs path matched)); [contradiction|].
    simpl in Hge. lia. }
  exists (totalOccurrences fs finding). split; [assumption|].
  rewrite finishModules_outcome. fold finding. rewrite Hfail.
  apply Nat.ltb_lt in Hpos. rewrite Hpos. reflexivity.
Qed.

Lemma forbidden_static_import_fails_build_witness :
  exists n,
    0 < n /\
    snd (finishModules heroPlugin (oneFile pagePath pageText) (js "/app") pageModules)
    = Throw (js "[plugin-block-imports] " ++ ofNat n
             ++ js " forbidden import(s) detected. See the error report above for details.").
Proof.
  apply (forbidden_static_import_fails_build heroPlugin (oneFile pagePath pageText)
           (js "/app") pageModules
           (moduleOf pagePath [js "next/image"; js "react"; js "next-intl"]) pagePath
           {| request := Some (js "next/image"); userRequest := None |} pageText
           0 (js "import Image ") (js " ") 39%N (js "next/image") [] 39%N (js ";")).
  - reflexivity.
  - left. reflexivity.
  - reflexivity.
  - reflexivity.
  - reflexivity.
  - left. reflexivity.
  - vm_compute. reflexivity.
  - reflexivity.
  - reflexivity.
  - discriminate.
  - repeat constructor.
  - reflexivity.
  - reflexivity.
  - left. reflexivity.
Defined.

(** ** Colors are cosmetic *)

Lemma occurrenceBlock_length : forall c rp err,
  List.length (occurrenceBlock c rp err)
  = if truthy (lineContent err) then 4 else 3.
Proof.
  intros c rp err. unfold occurrenceBlock.
  destruct (truthy (lineContent err)); reflexivity.
Qed.

Lemma fileBlock_length : forall c c' fs cwd entry,
  List.length (fileBlock c fs cwd entry) = List.length (fileBlock c' fs cwd entry).
Proof.
  intros c c' fs cwd entry. unfold fileBlock. rewrite !length_app. f_equal.
  rewrite !length_flat_map. f_equal. apply map_ext. intro err.
  now rewrite !occurrenceBlock_length.
Qed.

Lemma alternativesSection_length : forall c c' alts found,
  List.length (alternativesSection c alts found)
  = List.length (alternativesSection c' alts found).
Proof.
  intros c c' alts found. unfold alternativesSection.
  destruct found as [|imp imps]; [reflexivity|].
  rewrite !length_app. f_equal. f_equal.
  rewrite !length_flat_map. f_equal. apply map_ext. intro x.
  unfold alternativeLine. destruct (mapGet x alts) as [alt|]; [|reflexivity].
  destruct (truthy alt); reflexivity.
Qed.

(** X29.  The colors option is cosmetic: reports that differ only in that
    option return the same number, have the same number of lines, and
    write the same warnings. *)
Theorem colors_are_cosmetic : forall fs errorMap forbidden cwd rules excluded fail header,
  snd (printErrorReport fs errorMap forbidden
         {| forbiddenImports := rules; exclude := excluded; failOnError := fail;
            errorHeader := header; colors := true |} cwd)
  = snd (printErrorReport fs errorMap forbidden
           {| forbiddenImports := rules; exclude := excluded; failOnError := fail;
              errorHeader := header; colors := false |} cwd) /\
  List.length (fst (printErrorReport fs errorMap forbidden
                      {| forbiddenImports := rules; exclude := excluded;
                         failOnError := fail; errorHeader := header;
                         colors := true |} cwd))
  = List.length (fst (printErrorReport fs errorMap forbidden
                        {| forbiddenImports := rules; exclude := excluded;
                           failOnError := fail; errorHeader := header;
                           colors := false |} cwd)) /\
  filter (fun ev => match ev with ConsoleWarn _ => true | ConsoleError _ => false end)
         (fst (printErrorReport fs errorMap forbidden
                 {| forbiddenImports := rules; exclude := excluded; failOnError := fail;
                    errorHeader := header; colors := true |} cwd))
  = filter (fun ev => match ev with ConsoleWarn _ => true | ConsoleError _ => false end)
           (fst (printErrorReport fs errorMap forbidden
                   {| forbiddenImports := rules; exclude := excluded; failOnError := fail;
                      errorHeader := header; colors := false |} cwd)).
Proof.
  intros fs errorMap forbidden cwd rules excluded fail header. split; [|split].
  - now rewrite !printErrorReport_count.
  - rewrite !printErrorReport_layout. cbn [colors]. rewrite !length_app.
    f_equal. f_equal; [|f_equal; apply alternativesSection_length].
    rewrite !length_flat_map. f_equal. apply map_ext. intro entry.
    apply fileBlock_length.
  - rewrite !printErrorReport_layout. cbn [colors]. rewrite !filter_app.
    assert (Hblock : forall c c' entry,
              filter (fun ev => match ev with ConsoleWarn _ => true | _ => false end)
                     (fileBlock c fs cwd entry)
              = filter (fun ev => match ev with ConsoleWarn _ => true | _ => false end)
                       (fileBlock c' fs cwd entry)).
    { intros c c' entry. unfold fileBlock. rewrite !filter_app. f_equal.
      induction (snd (findImportLocations fs (fst entry) (snd entry))) as [|o os IH];
        [reflexivity|].
      cbn [flat_map]. rewrite !filter_app, IH. f_equal.
      unfold occurrenceBlock. destruct (truthy (lineContent o)); reflexivity. }
    assert (Halt : forall c alts found,
              filter (fun ev => match ev with ConsoleWarn _ => true | _ => false end)
                     (alternativesSection c alts found) = []).
    { intros c alts found. unfold alternativesSection.
      assert (Hmid : forall l,
                filter (fun ev => match ev with ConsoleWarn _ => true | _ => false end)
                       (flat_map (alternativeLine c alts) l) = []).
      { induction l as [|x xs IH]; [reflexivity|].
        cbn [flat_map]. rewrite filter_app, IH, app_nil_r.
        unfold alternativeLine. destruct (mapGet x alts) as [alt|]; [|reflexivity].
        destruct (truthy alt); reflexivity. }
      destruct found as [|imp imps]; [reflexivity|].
      rewrite !filter_app, Hmid. reflexivity. }
    rewrite !Halt. f_equal.
    f_equal. induction errorMap as [|e m IH]; [reflexivity|].
    simpl. rewrite !filter_app, IH. f_equal. apply Hblock.
Qed.
